(** * The job pipeline of the AI video editor backend (backend/main.py)

    A shallow embedding of the job store, the per-job pipeline
    [process_video], the retention sweep [cleanup_old_jobs], the
    submission handler [edit_video], the status and download endpoints
    and the sanitation helpers, and the properties of the job life
    cycle proved about them. *)

From Stdlib Require Import ZArith Lia Floats.PrimFloat.
From Stdlib Require Import Strings.String Strings.Ascii Strings.Byte.
From Stdlib Require Import DecimalString.
From stdpp Require Import gmap list.

Local Open Scope Z_scope.

(** ** Python values *)

(** A Python [str] is a sequence of Unicode code points. *)
Abbreviation char := N (only parsing).
Abbreviation str := (list N) (only parsing).

(** A Python [bytes] object. *)
Abbreviation bytes := (list byte) (only parsing).

(** A string literal of the source. *)
Definition py (s : string) : str :=
  (fun a => N_of_ascii a) <$> list_ascii_of_string s.

Arguments py : simpl never.

(** [len(x)] *)
Definition len {A} (l : list A) : Z := Z.of_nat (length l).

(** The four literals ever stored under the key ["status"]. *)
Inductive Status := pending | processing | completed | failed.

#[global] Instance Status_eq_dec : EqDecision Status.
Proof. solve_decision. Defined.

(** A job record: the dict built by [edit_video] (lines 285-292). *)
Record Job := mkJob {
  j_id : str;
  status : Status;
  progress : Z;
  output_url : option str;
  error : option str;
  created_at : float;
}.

Definition with_status (s : Status) (j : Job) : Job :=
  mkJob (j_id j) s (progress j) (output_url j) (error j) (created_at j).
Definition with_progress (p : Z) (j : Job) : Job :=
  mkJob (j_id j) (status j) p (output_url j) (error j) (created_at j).
Definition with_output_url (u : str) (j : Job) : Job :=
  mkJob (j_id j) (status j) (progress j) (Some u) (error j) (created_at j).
Definition with_error (m : str) (j : Job) : Job :=
  mkJob (j_id j) (status j) (progress j) (output_url j) (Some m) (created_at j).

(** ** Exceptions *)

Inductive Exn :=
| KeyError (key : str)
| ValueError (msg : str)
| RuntimeError (msg : str)
| HTTPException (status_code : Z) (detail : str)
| FfmpegError (stderr : str)      (* ffmpeg.Error; [stderr] as an f-string renders it *)
| OSError (msg : str)
| OtherException (msg : str)      (* any other subclass of Exception (httpx errors, ...) *)
| RequestValidationError (errors : str)
    (* raised by the framework, before the body of an endpoint runs, for a
       parameter that fails the validation declared in the signature; the
       client is answered with status 422; [errors] is how the list of
       errors prints *)
| CancelledError.                 (* a BaseException that is not an Exception *)

(** [isinstance(e, Exception)] *)
Definition is_Exception (e : Exn) : bool :=
  match e with CancelledError => false | _ => true end.

(** [str(e)].  A [KeyError] prints the repr of its key, which for the
    keys of the store (identifiers made by [uuid4], without quotes or
    escapes) is the key between apostrophes; the detail of an
    [HTTPException] is what the client is shown. *)
Definition str_of (e : Exn) : str :=
  match e with
  | KeyError k => py "'" ++ k ++ py "'"
  | ValueError m | RuntimeError m | OSError m | OtherException m => m
  | RequestValidationError errors => errors
  | HTTPException _ d => d
  | FfmpegError _ => py "ffmpeg error (see stderr output for detail)"
  | CancelledError => []
  end.

(** ** The outside world *)

(** The arguments handed to the transcoder (lines 168-192). *)
Record FfmpegCmd := mkFfmpegCmd {
  ff_input : str;
  ff_scale : Z * Z * str;          (* width, height, force_original_aspect_ratio *)
  ff_pad : Z * Z * str * str;      (* width, height, x, y *)
  ff_output : str;
  ff_vcodec : str;
  ff_acodec : str;
  ff_preset : str;
  ff_crf : Z;
  ff_overwrite_output : bool;
  ff_quiet : bool;
}.

(** How one invocation of the transcoder ends, and what it leaves at
    the output path ([None]: nothing written). *)
Inductive FfmpegExit :=
| FfOk
| FfFails (stderr : str)          (* non-zero exit: ffmpeg.Error *)
| FfCannotRun (msg : str).        (* the tool could not be started: OSError *)

Record FfmpegResult := mkFfmpegResult {
  ff_exit : FfmpegExit;
  ff_written : option bytes;
}.

Inductive FsCall :=
| FsOpen (path : str)
| FsWrite (path : str)
| FsRemove (path : str)           (* os.remove *)
| FsUnlink (path : str).          (* Path.unlink *)

(** Everything the program reads from its environment. *)
Record Env := mkEnv {
  OLLAMA_API_KEY : option str;
  OLLAMA_BASE_URL : option str;
  ffmpeg_run : FfmpegCmd -> gmap str bytes -> FfmpegResult;
  fs_error : FsCall -> option str;   (* [Some msg]: the call raises OSError(msg) *)
  uuid4 : str;
  time_time : float;
}.

(** What a coroutine waits for at an [await], and what it is resumed with. *)
Inductive Request :=
| HttpPost (url : str) (authorization : str) (model : str) (user_prompt : str).
  (* the constant system message of the chat request is left out *)

Inductive Reply :=
| Content (text : str)            (* data["message"]["content"] *)
| Failure (e : Exn).              (* the request, raise_for_status or json() raised *)

(** ** Observable actions *)

Inductive Event :=
| EvCreate (job_id : str)                   (* jobs[job_id] = {...} *)
| EvStatus (job_id : str) (s : Status)      (* jobs[job_id]["status"] = s *)
| EvProgress (job_id : str) (p : Z)
| EvOutputUrl (job_id : str) (url : str)
| EvError (job_id : str) (msg : str)
| EvDelete (job_id : str)                   (* del jobs[job_id] *)
| EvRequest (req : Request)
| EvPrint (msg : str)
| EvFfmpeg (cmd : FfmpegCmd)
| EvFs (call : FsCall).

(** The process state shared by all coroutines: the module-level dict
    [jobs], the files under TEMP_DIR, and the actions performed so far
    (oldest first). *)
Record World := mkWorld {
  jobs : gmap str Job;
  files : gmap str bytes;
  log : list Event;
}.

Definition set_jobs (f : gmap str Job -> gmap str Job) (w : World) : World :=
  mkWorld (f (jobs w)) (files w) (log w).
Definition set_files (f : gmap str bytes -> gmap str bytes) (w : World) : World :=
  mkWorld (jobs w) (f (files w)) (log w).
Definition record (ev : Event) (w : World) : World :=
  mkWorld (jobs w) (files w) (log w ++ [ev]).

(** ** Coroutines

    A coroutine started in a world runs without interruption until it
    returns, raises, or reaches an [await]; there it hands the world
    back to the event loop and is resumed later, with a reply, in the
    world the other coroutines have left. *)

Inductive Run (A : Type) : Type :=
| Return (a : A) (w : World)
| Raise (e : Exn) (w : World)
| Await (req : Request) (w : World) (k : Reply -> World -> Run A).

Arguments Return {A} a w.
Arguments Raise {A} e w.
Arguments Await {A} req w k.

Definition M (A : Type) : Type := World -> Run A.

Definition ret {A} (a : A) : M A := fun w => Return a w.
Definition raise {A} (e : Exn) : M A := fun w => Raise e w.
Definition await (req : Request) : M Reply :=
  fun w => Await req w (fun rep w' => Return rep w').

Fixpoint bind_run {A B} (r : Run A) (f : A -> M B) : Run B :=
  match r with
  | Return a w => f a w
  | Raise e w => Raise e w
  | Await req w k => Await req w (fun rep w' => bind_run (k rep w') f)
  end.

Definition bind {A B} (m : M A) (f : A -> M B) : M B :=
  fun w => bind_run (m w) f.

#[global] Instance M_ret : MRet M := fun A a => ret a.
#[global] Instance M_bind : MBind M := fun A B f m => bind m f.

(** [try: body except <classes> as e: handler]: [handler e] is [None]
    when no except clause matches [e]. *)
Fixpoint catch_run {A} (r : Run A) (handler : Exn -> option (M A)) : Run A :=
  match r with
  | Return a w => Return a w
  | Raise e w => match handler e with Some h => h w | None => Raise e w end
  | Await req w k => Await req w (fun rep w' => catch_run (k rep w') handler)
  end.

Definition try_except {A} (body : M A) (handler : Exn -> option (M A)) : M A :=
  fun w => catch_run (body w) handler.

(** [except Exception as e: h e] *)
Definition except_Exception {A} (h : Exn -> M A) : Exn -> option (M A) :=
  fun e => if is_Exception e then Some (h e) else None.

(** [try: body finally: final] *)
Fixpoint finally_run {A} (r : Run A) (final : M unit) : Run A :=
  match r with
  | Return a w => bind_run (final w) (fun _ => ret a)
  | Raise e w => bind_run (final w) (fun _ => raise e)
  | Await req w k => Await req w (fun rep w' => finally_run (k rep w') final)
  end.

Definition try_finally {A} (body : M A) (final : M unit) : M A :=
  fun w => finally_run (body w) final.

(** ** Primitive operations on the world *)

Definition emit (ev : Event) : M unit := fun w => Return tt (record ev w).

Definition get_world : M World := fun w => Return w w.

(** [jobs[job_id][key] = value]: the subscript [jobs[job_id]] raises
    KeyError when the record is gone. *)
Definition jobs_update (job_id : str) (f : Job -> Job) (ev : Event) : M unit :=
  fun w =>
    match jobs w !! job_id with
    | Some j => Return tt (record ev (set_jobs (insert job_id (f j)) w))
    | None => Raise (KeyError job_id) w
    end.

Definition set_status (job_id : str) (s : Status) : M unit :=
  jobs_update job_id (with_status s) (EvStatus job_id s).
Definition set_progress (job_id : str) (p : Z) : M unit :=
  jobs_update job_id (with_progress p) (EvProgress job_id p).
Definition set_output_url (job_id : str) (u : str) : M unit :=
  jobs_update job_id (with_output_url u) (EvOutputUrl job_id u).
Definition set_error (job_id : str) (m : str) : M unit :=
  jobs_update job_id (with_error m) (EvError job_id m).

(** [jobs[job_id] = job] *)
Definition jobs_setitem (job_id : str) (job : Job) : M unit :=
  fun w => Return tt (record (EvCreate job_id) (set_jobs (insert job_id job) w)).

(** [del jobs[job_id]] *)
Definition jobs_delitem (job_id : str) : M unit :=
  fun w =>
    match jobs w !! job_id with
    | Some _ => Return tt (record (EvDelete job_id) (set_jobs (delete job_id) w))
    | None => Raise (KeyError job_id) w
    end.

(** [os.path.exists(path)], [Path.exists()] *)
Definition path_exists (path : str) : M bool :=
  fun w => Return (bool_decide (is_Some (files w !! path))) w.

(** A call that deletes [path]: [os.remove] or [Path.unlink]. *)
Definition fs_delete (env : Env) (call : FsCall) (path : str) : M unit :=
  fun w =>
    let w := record (EvFs call) w in
    match fs_error env call with
    | Some msg => Raise (OSError msg) w
    | None =>
        match files w !! path with
        | Some _ => Return tt (set_files (delete path) w)
        | None => Raise (OSError (py "No such file or directory")) w
        end
    end.

Definition os_remove (env : Env) (path : str) : M unit :=
  fs_delete env (FsRemove path) path.
Definition unlink (env : Env) (path : str) : M unit :=
  fs_delete env (FsUnlink path) path.

(** [open(path, "wb")] creates or truncates the file. *)
Definition open_wb (env : Env) (path : str) : M unit :=
  fun w =>
    let w := record (EvFs (FsOpen path)) w in
    match fs_error env (FsOpen path) with
    | Some msg => Raise (OSError msg) w
    | None => Return tt (set_files (insert path []) w)
    end.

(** [f.write(chunk)] on the file opened at [path]; writing to a file
    that has been unlinked leaves the directory as it is. *)
Definition f_write (env : Env) (path : str) (chunk : bytes) : M unit :=
  fun w =>
    let w := record (EvFs (FsWrite path)) w in
    match fs_error env (FsWrite path) with
    | Some msg => Raise (OSError msg) w
    | None => Return tt (set_files (alter (fun old => old ++ chunk) path) w)
    end.

Definition print (msg : str) : M unit := emit (EvPrint msg).

(** [ffmpeg.run(stream, overwrite_output=True, quiet=True)] *)
Definition ffmpeg_run_cmd (env : Env) (cmd : FfmpegCmd) : M unit :=
  fun w =>
    let res := ffmpeg_run env cmd (files w) in
    let w := record (EvFfmpeg cmd) w in
    let w := match ff_written res with
             | Some data => set_files (insert (ff_output cmd) data) w
             | None => w
             end in
    match ff_exit res with
    | FfOk => Return tt w
    | FfFails stderr => Raise (FfmpegError stderr) w
    | FfCannotRun msg => Raise (OSError msg) w
    end.

(** ** Constants and the format catalog (lines 44-47, 81-86) *)

Definition MAX_FILE_SIZE : Z := 500 * 1024 * 1024.

Definition ALLOWED_VIDEO_TYPES : list str :=
  [py "video/mp4"; py "video/webm"; py "video/quicktime";
   py "video/x-msvideo"; py "video/x-matroska"].

(** [TEMP_DIR / name] *)
Definition TEMP_DIR (name : str) : str := py "/tmp/video-editor/" ++ name.

Record FormatConfig := mkFormat { width : Z; height : Z; aspect : str }.

Definition FORMAT_CONFIGS : list (str * FormatConfig) :=
  [(py "tiktok", mkFormat 1080 1920 (py "9:16"));
   (py "youtube", mkFormat 1920 1080 (py "16:9"));
   (py "square", mkFormat 1080 1080 (py "1:1"));
   (py "landscape", mkFormat 1920 1080 (py "16:9"))].

(** [d.get(key, default)] on a dict literal *)
Fixpoint dict_get {V} (d : list (str * V)) (key : str) (default : V) : V :=
  match d with
  | [] => default
  | (k, v) :: d' => if bool_decide (k = key) then v else dict_get d' key default
  end.

(** [key in d] *)
Definition dict_mem {V} (d : list (str * V)) (key : str) : bool :=
  bool_decide (key ∈ d.*1).

(** [FORMAT_CONFIGS["tiktok"]] *)
Definition FORMAT_tiktok : FormatConfig := mkFormat 1080 1920 (py "9:16").

(** ** The instruction advisor (lines 108-140) *)

(** [os.getenv(name, default)] *)
Definition getenv (value : option str) (default : str) : str :=
  match value with Some v => v | None => default end.

(** [video_path] is accepted and not used, as in the source. *)
Definition call_qwen_api (env : Env) (prompt : str) (video_path : option str) : M str :=
  let ollama_api_key := OLLAMA_API_KEY env in
  let ollama_base_url := getenv (OLLAMA_BASE_URL env) (py "https://ollama.com/api") in
  match ollama_api_key with
  | None | Some [] => raise (ValueError (py "OLLAMA_API_KEY is not configured"))
  | Some key =>
      let req := HttpPost (ollama_base_url ++ py "/chat") (py "Bearer " ++ key)
                          (py "qwen3-vl:235b-cloud") prompt in
      emit (EvRequest req) ;;
      response ← await req;
      match response with
      | Content text => ret text
      | Failure e => raise e
      end
  end.

(** ** The per-job pipeline (lines 143-216) *)

Definition transcode_cmd (video_path output_path : str) (config : FormatConfig) : FfmpegCmd :=
  {| ff_input := video_path;
     ff_scale := (width config, height config, py "decrease");
     ff_pad := (width config, height config, py "(ow-iw)/2", py "(oh-ih)/2");
     ff_output := output_path;
     ff_vcodec := py "libx264";
     ff_acodec := py "aac";
     ff_preset := py "medium";
     ff_crf := 23;
     ff_overwrite_output := true;
     ff_quiet := true |}.

Definition process_video (env : Env) (job_id video_path prompt output_format : str) : M unit :=
  let output_path := TEMP_DIR (job_id ++ py "_output.mp4") in
  try_finally
    (try_except
       (set_status job_id processing ;;
        set_progress job_id 10 ;;
        (* Get AI instructions *)
        try_except
          (ai_response ← call_qwen_api env prompt (Some video_path);
           set_progress job_id 30)
          (except_Exception (fun e =>
             (* Continue with basic processing if AI fails *)
             print (py "AI API error: " ++ str_of e) ;;
             set_progress job_id 30)) ;;
        (* Get format config *)
        let config := dict_get FORMAT_CONFIGS output_format FORMAT_tiktok in
        (* Process video with FFmpeg *)
        set_progress job_id 50 ;;
        try_except
          (ffmpeg_run_cmd env (transcode_cmd video_path output_path config))
          (fun e => match e with
                    | FfmpegError stderr =>
                        Some (raise (RuntimeError (py "FFmpeg processing failed: " ++ stderr)))
                    | _ => None
                    end) ;;
        set_progress job_id 90 ;;
        (* Verify output file exists *)
        output_exists ← path_exists output_path;
        (if negb output_exists
         then raise (RuntimeError (py "Output file was not created"))
         else ret tt) ;;
        set_status job_id completed ;;
        set_progress job_id 100 ;;
        set_output_url job_id (py "/api/download/" ++ job_id))
       (except_Exception (fun e =>
          set_status job_id failed ;;
          set_error job_id (take 500 (str_of e)))))   (* Limit error message length *)
    (* Clean up input file *)
    (try_except
       (input_exists ← path_exists video_path;
        if (input_exists : bool) then os_remove env video_path else ret tt)
       (except_Exception (fun _ => ret tt))).

(** ** The retention sweep (lines 219-232) *)

(** [for x in xs: body x] *)
Fixpoint for_each {A} (xs : list A) (body : A -> M unit) : M unit :=
  match xs with
  | [] => ret tt
  | x :: xs' => body x ;; for_each xs' body
  end.

(** [job.get("created_at", 0) < current_time - 3600] *)
Definition expired (current_time : float) (job : Job) : bool :=
  PrimFloat.ltb (created_at job) (PrimFloat.sub current_time 3600%float).

(** The body of the loop (lines 224-232) for one item of
    [jobs.items()]. *)
Definition cleanup_job (env : Env) (current_time : float) (item : str * Job) : M unit :=
  let '(job_id, job) := item in
  (* Clean up jobs older than 1 hour *)
  if expired current_time job then
    let output_path := TEMP_DIR (job_id ++ py "_output.mp4") in
    output_exists ← path_exists output_path;
    (if (output_exists : bool)
     then try_except (unlink env output_path) (except_Exception (fun _ => ret tt))
     else ret tt) ;;
    jobs_delitem job_id
  else ret tt.

(** The records are visited in the order of [map_to_list]; the visits
    of different jobs touch different keys and different paths. *)
Definition cleanup_old_jobs (env : Env) : M unit :=
  let current_time := time_time env in
  w ← get_world;                      (* list(jobs.items()) *)
  for_each (map_to_list (jobs w)) (cleanup_job env current_time).

(** ** Prompt and format sanitation (lines 50-69, 281) *)

(** [re.sub(r'[<>]', '', v)] *)
Definition re_sub_angle (v : str) : str :=
  filter (fun c : N => c ≠ 60%N ∧ c ≠ 62%N) v.

(** Whether the subject character [c] matches the pattern character
    [p] (a lower-case ASCII letter or a punctuation mark) under
    re.IGNORECASE: [c] is [p], its ASCII capital, or one of the four
    letters Unicode case folding adds (U+0130 and U+0131 for i, U+017F
    for s, U+212A for k). *)
Definition matches_ignorecase (p c : N) : bool :=
  (c =? p)%N
  || ((97 <=? p)%N && (p <=? 122)%N && (c =? p - 32)%N)
  || ((p =? 105)%N && ((c =? 304)%N || (c =? 305)%N))
  || ((p =? 115)%N && (c =? 383)%N)
  || ((p =? 107)%N && (c =? 8490)%N).

(** The pattern matches at the head of the subject. *)
Fixpoint match_here (pat v : str) : bool :=
  match pat, v with
  | [], _ => true
  | _ :: _, [] => false
  | p :: pat', c :: v' => matches_ignorecase p c && match_here pat' v'
  end.

(** [re.sub(pat, '', v, flags=re.IGNORECASE)] for a literal, non-empty
    pattern: the leftmost non-overlapping matches are removed in one
    pass; [skip] counts the characters of the current match still to
    be dropped. *)
Fixpoint re_sub_literal_ignorecase (pat : str) (skip : nat) (v : str) : str :=
  match v with
  | [] => []
  | c :: v' =>
      match skip with
      | S n => re_sub_literal_ignorecase pat n v'
      | O => if match_here pat v
             then re_sub_literal_ignorecase pat (pred (length pat)) v'
             else c :: re_sub_literal_ignorecase pat O v'
      end
  end.

(** [str.isspace] on one character. *)
Definition is_space (c : N) : bool :=
  ((9 <=? c) && (c <=? 13) || (28 <=? c) && (c <=? 32)
   || (c =? 133) || (c =? 160) || (c =? 5760)
   || (8192 <=? c) && (c <=? 8202)
   || (c =? 8232) || (c =? 8233) || (c =? 8239) || (c =? 8287) || (c =? 12288))%N.

Fixpoint lstrip (v : str) : str :=
  match v with
  | c :: v' => if is_space c then lstrip v' else v
  | [] => []
  end.

(** [v.strip()] *)
Definition strip (v : str) : str := reverse (lstrip (reverse (lstrip v))).

(** [VideoEditRequest.sanitize_prompt]: the validator of the request
    model (lines 55-61). *)
Definition sanitize_prompt (v : str) : str :=
  (* Remove potentially dangerous content *)
  let v := re_sub_angle v in
  let v := re_sub_literal_ignorecase (py "javascript:") O v in
  strip (take 2000 v).

(** [VideoEditRequest.validate_format] (lines 63-69). *)
Definition validate_format (v : str) : str :=
  let allowed_formats := [py "tiktok"; py "youtube"; py "square"; py "landscape"] in
  if bool_decide (v ∈ allowed_formats) then v else py "tiktok".

(** The sanitation the submission handler applies (line 281). *)
Definition sanitized_prompt_of (prompt : str) : str :=
  strip (take 2000 (re_sub_angle prompt)).

(** ** The submission handler (lines 240-298) *)

Record UploadFile := mkUpload {
  content_type : option str;
  body : bytes;                   (* what the spooled upload holds *)
}.

(** [', '.join(xs)] *)
Fixpoint join (sep : str) (xs : list str) : str :=
  match xs with
  | [] => []
  | [x] => x
  | x :: xs' => x ++ sep ++ join sep xs'
  end.

(** Decimal rendering of an integer in an f-string. *)
Definition str_of_Z (z : Z) : str := py (NilZero.string_of_int (Z.to_int z)).

(** The detail joins the members of the set [ALLOWED_VIDEO_TYPES], in
    an order that depends on the hash seed of the process; the order
    of the source stands for it here. *)
Definition validate_video_file (file : UploadFile) : M unit :=
  let rejected :=
    match content_type file with
    | None => true
    | Some ct => bool_decide (ct = []) || negb (bool_decide (ct ∈ ALLOWED_VIDEO_TYPES))
    end in
  if rejected
  then raise (HTTPException 400
         (py "Invalid video type. Allowed: " ++ join (py ", ") ALLOWED_VIDEO_TYPES))
  else ret tt.

(** The size of one read: [video.read(8192)]. *)
Definition CHUNK : nat := Z.to_nat 8192.

(** The loop of lines 266-274.  [rest] is the part of the upload not
    yet read and [fuel] bounds the number of reads; every read but the
    last takes at least one byte, so [S (length rest)] reads suffice. *)
Fixpoint save_chunks (fuel : nat) (env : Env) (video_path : str)
    (rest : bytes) (total_size : Z) : M unit :=
  match fuel with
  | O => ret tt
  | S fuel' =>
      let chunk := take CHUNK rest in
      if bool_decide (chunk = []) then ret tt
      else
        let total_size := total_size + len chunk in
        if bool_decide (MAX_FILE_SIZE < total_size) then
          os_remove env video_path ;;
          raise (HTTPException 400
                   (py "File too large. Maximum size is "
                    ++ str_of_Z (MAX_FILE_SIZE / (1024 * 1024)) ++ py "MB"))
        else
          f_write env video_path chunk ;;
          save_chunks fuel' env video_path (drop CHUNK rest) total_size
  end.

(** What the handler answers with: [{"id": job_id, "status": "pending"}]. *)
Record Accepted := mkAccepted { acc_id : str; acc_status : Status }.

(** The calls queued with [background_tasks.add_task]. *)
Inductive BackgroundTask :=
| TaskProcessVideo (job_id video_path prompt output_format : str)
| TaskCleanupOldJobs.

(** The wording of the validation error is the framework's. *)
Definition prompt_too_long : str := py "String should have at most 2000 characters".

(** The endpoint.  The framework validates the parameters against the
    signature (line 243: [prompt: str = Form(..., max_length=2000)])
    before the body runs.  The reads of the upload ([await
    video.read]) are points at which the handler has written to
    nothing but the input file of its own fresh identifier; they are
    taken in one stretch. *)
Definition edit_video (env : Env) (prompt format : str) (video : option UploadFile)
  : M (Accepted * list BackgroundTask) :=
  if bool_decide (2000 < len prompt) then raise (RequestValidationError prompt_too_long)
  else
  (* Validate format *)
  let format := if dict_mem FORMAT_CONFIGS format then format else py "tiktok" in
  (* Validate video *)
  match video with
  | None => raise (HTTPException 400 (py "Video file is required"))
  | Some video =>
      validate_video_file video ;;
      (* Generate secure job ID *)
      let job_id := uuid4 env in
      (* Save uploaded video with size limit check *)
      let video_path := TEMP_DIR (job_id ++ py "_input.mp4") in
      try_except
        (open_wb env video_path ;;
         save_chunks (S (length (body video))) env video_path (body video) 0)
        (fun e => match e with
                  | HTTPException _ _ => Some (raise e)
                  | _ => if is_Exception e
                         then Some (raise (HTTPException 500 (py "Failed to save video file")))
                         else None
                  end) ;;
      (* Sanitize prompt *)
      let sanitized_prompt := sanitized_prompt_of prompt in
      (* Initialize job *)
      jobs_setitem job_id
        {| j_id := job_id; status := pending; progress := 0;
           output_url := None; error := None; created_at := time_time env |} ;;
      (* Start background processing *)
      ret (mkAccepted job_id pending,
           [TaskProcessVideo job_id video_path sanitized_prompt format;
            TaskCleanupOldJobs])
  end.

(** ** Running a coroutine to its end *)

(** The run [r], resumed at its [await] (if it reaches one) with the
    reply [rep], in the world the other coroutines made of the one it
    was suspended in. *)
Definition run_to_end {A} (r : Run A) (rep : Reply) (others : World -> World) : Run A :=
  match r with
  | Await _ w k => k rep (others w)
  | _ => r
  end.

(** The world a run stops in. *)
Definition world_of {A} (r : Run A) : World :=
  match r with Return _ w | Raise _ w | Await _ w _ => w end.

(** The exception a run ends with, if any. *)
Definition raised {A} (r : Run A) : option Exn :=
  match r with Raise e _ => Some e | _ => None end.

Definition is_Await {A} (r : Run A) : bool :=
  match r with Await _ _ _ => true | _ => false end.

(** ** What the pipeline does, spelled out

    The functions below describe the worlds the pipeline leaves; the
    lemmas after them show that [process_video] computes exactly these. *)

Definition output_path_of (job_id : str) : str := TEMP_DIR (job_id ++ py "_output.mp4").

(** The world after the [finally] block. *)
Definition cleanup_input (env : Env) (video_path : str) (w : World) : World :=
  match files w !! video_path with
  | Some _ =>
      let w := record (EvFs (FsRemove video_path)) w in
      match fs_error env (FsRemove video_path) with
      | Some _ => w
      | None => set_files (delete video_path) w
      end
  | None => w
  end.

(** The record and the actions the pipeline ends with once the
    transcoder has run: [fs] are the files it has left. *)
Definition ending (job_id : str) (exit : FfmpegExit) (fs : gmap str bytes) (j : Job)
  : Job * list Event :=
  let fail (p : Z) (msg : str) :=
    (with_error (take 500 msg) (with_status failed (with_progress p j)),
     [EvStatus job_id failed; EvError job_id (take 500 msg)]) in
  match exit with
  | FfOk =>
      if bool_decide (is_Some (fs !! output_path_of job_id))
      then (with_output_url (py "/api/download/" ++ job_id)
              (with_progress 100 (with_status completed j)),
            [EvProgress job_id 90; EvStatus job_id completed; EvProgress job_id 100;
             EvOutputUrl job_id (py "/api/download/" ++ job_id)])
      else let f := fail 90 (py "Output file was not created") in
           (f.1, EvProgress job_id 90 :: f.2)
  | FfFails stderr => fail 50 (py "FFmpeg processing failed: " ++ stderr)
  | FfCannotRun msg => fail 50 msg
  end.

(** The pipeline from line 154 (or 158) on, started in [w]. *)
Definition after_advisor (env : Env) (job_id video_path output_format : str)
    (w : World) : Run unit :=
  match jobs w !! job_id with
  | None => Raise (KeyError job_id) (cleanup_input env video_path w)
  | Some j =>
      let cmd := transcode_cmd video_path (output_path_of job_id)
                   (dict_get FORMAT_CONFIGS output_format FORMAT_tiktok) in
      let res := ffmpeg_run env cmd (files w) in
      let fs := match ff_written res with
                | Some data => <[output_path_of job_id := data]> (files w)
                | None => files w
                end in
      let e := ending job_id (ff_exit res) fs j in
      Return tt (cleanup_input env video_path
                   (mkWorld (<[job_id := e.1]> (jobs w)) fs
                      (log w ++ [EvProgress job_id 30; EvProgress job_id 50; EvFfmpeg cmd]
                             ++ e.2)))
  end.

(** The continuation of the pipeline at its [await].  Line 154 is
    inside the inner [try]: when the record is gone, its KeyError is
    reported by line 157 before line 158 raises it again. *)
Definition resumed (env : Env) (job_id video_path output_format : str)
    (rep : Reply) (w : World) : Run unit :=
  match rep with
  | Content _ =>
      match jobs w !! job_id with
      | Some _ => after_advisor env job_id video_path output_format w
      | None =>
          after_advisor env job_id video_path output_format
            (record (EvPrint (py "AI API error: " ++ str_of (KeyError job_id))) w)
      end
  | Failure e =>
      if is_Exception e
      then after_advisor env job_id video_path output_format
             (record (EvPrint (py "AI API error: " ++ str_of e)) w)
      else Raise e (cleanup_input env video_path w)
  end.

(** Whether [call_qwen_api] finds its key. *)
Definition api_key (env : Env) : option str :=
  match OLLAMA_API_KEY env with
  | None | Some [] => None
  | Some key => Some key
  end.

Definition advisor_request (env : Env) (prompt : str) (key : str) : Request :=
  HttpPost (getenv (OLLAMA_BASE_URL env) (py "https://ollama.com/api") ++ py "/chat")
           (py "Bearer " ++ key) (py "qwen3-vl:235b-cloud") prompt.

(** The world at the [await]: lines 148-149 done, the request issued. *)
Definition started (job_id : str) (j : Job) (evs : list Event) (w : World) : World :=
  mkWorld (<[job_id := with_progress 10 (with_status processing j)]> (jobs w)) (files w)
          (log w ++ [EvStatus job_id processing; EvProgress job_id 10] ++ evs).

(** ** The event loop

    The background calls queued by the submissions are coroutines of
    one event loop.  A pipeline is kept under the identifier of its
    job; the retention sweeps queued behind the pipelines are taken to
    run at any moment.  A coroutine runs alone from one [await] to
    the next, so a step of the loop is one such stretch, and the
    states below are the points at which another coroutine (a status
    query, a sweep, another pipeline) can look at the store. *)

Inductive Task :=
| Queued (m : M unit)                                        (* not started yet *)
| Suspended (req : Request) (k : Reply -> World -> Run unit). (* waiting at an await *)

Record System := mkSystem {
  world : World;
  tasks : gmap str Task;
  issued : gset str;              (* the identifiers uuid4 has produced *)
}.

(** What is left of a task that ran up to [r]. *)
Definition settle (r : Run unit) : option Task :=
  match r with
  | Await req _ k => Some (Suspended req k)
  | _ => None
  end.

Definition advance (job_id : str) (r : Run unit) (s : System) : System :=
  mkSystem (world_of r)
    (match settle r with
     | Some t => <[job_id := t]> (tasks s)
     | None => delete job_id (tasks s)
     end)
    (issued s).

(** [background_tasks.add_task(...)] *)
Definition spawn (env : Env) (bg : list BackgroundTask) (ts : gmap str Task)
  : gmap str Task :=
  foldr (fun t ts =>
           match t with
           | TaskProcessVideo job_id video_path prompt output_format =>
               <[job_id := Queued (process_video env job_id video_path prompt output_format)]> ts
           | TaskCleanupOldJobs => ts
           end) ts bg.

(** One request to /api/edit, handled in [env]; the pipeline it queues
    will run in [env_bg]. *)
Definition submit (env env_bg : Env) (prompt format : str) (video : option UploadFile)
    (s : System) : System :=
  match edit_video env prompt format video (world s) with
  | Return (_, bg) w =>
      mkSystem w (spawn env_bg bg (tasks s)) ({[uuid4 env]} ∪ issued s)
  | r => mkSystem (world_of r) (tasks s) ({[uuid4 env]} ∪ issued s)
  end.

Definition sweep (env : Env) (s : System) : System :=
  mkSystem (world_of (cleanup_old_jobs env (world s))) (tasks s) (issued s).

Inductive step : System -> System -> Prop :=
| step_submit s env env_bg prompt format video :
    uuid4 env ∉ issued s ->
    step s (submit env env_bg prompt format video s)
| step_start s job_id m :
    tasks s !! job_id = Some (Queued m) ->
    step s (advance job_id (m (world s)) s)
| step_resume s job_id req k rep :
    tasks s !! job_id = Some (Suspended req k) ->
    step s (advance job_id (k rep (world s)) s)
| step_sweep s env :
    step s (sweep env s).

(** The states of the process: it starts with an empty store. *)
Inductive reachable : System -> Prop :=
| reach_init fs : reachable (mkSystem (mkWorld ∅ fs []) ∅ ∅)
| reach_step s s' : reachable s -> step s s' -> reachable s'.

(** ** The history of one job *)

(** The value an action writes to the status field of [job_id]. *)
Definition status_written (job_id : str) (ev : Event) : option Status :=
  match ev with
  | EvCreate i => if bool_decide (i = job_id) then Some pending else None
  | EvStatus i s => if bool_decide (i = job_id) then Some s else None
  | _ => None
  end.

(** The value an action writes to the progress field of [job_id]. *)
Definition progress_written (job_id : str) (ev : Event) : option Z :=
  match ev with
  | EvCreate i => if bool_decide (i = job_id) then Some 0 else None
  | EvProgress i p => if bool_decide (i = job_id) then Some p else None
  | _ => None
  end.

Definition status_writes (job_id : str) (l : list Event) : list Status :=
  omap (status_written job_id) l.
Definition progress_writes (job_id : str) (l : list Event) : list Z :=
  omap (progress_written job_id) l.

(** The two ways a status history can go. *)
Definition status_chain (l : list Status) : Prop :=
  l `prefix_of` [pending; processing; completed]
  \/ l `prefix_of` [pending; processing; failed].

(** What a record may hold for a given status. *)
Definition record_ok (j : Job) : Prop :=
  match status j with
  | pending | processing => output_url j = None /\ error j = None
  | completed => is_Some (output_url j) /\ error j = None
  | failed =>
      output_url j = None
      /\ exists msg, error j = Some msg /\ (length msg <= 500)%nat
  end.

(** The actions of the [finally] block in [w]. *)
Definition cleanup_events (video_path : str) (w : World) : list Event :=
  match files w !! video_path with
  | Some _ => [EvFs (FsRemove video_path)]
  | None => []
  end.

(** The actions [evs] write to no record but that of [job_id]. *)
Definition about (job_id : str) (evs : list Event) : Prop :=
  forall i, i <> job_id -> status_writes i evs = [] /\ progress_writes i evs = [].

(** What a stretch of the pipeline of [job_id] that leads from [w] to
    [w'] does: it leaves the other records alone and writes [sw] and
    [pw] to the status and the progress of its own, which ends as [r]. *)
Record Effect (job_id : str) (w w' : World)
    (sw : list Status) (pw : list Z) (r : option Job) : Prop := mkEffect {
  eff_others : forall i, i <> job_id -> jobs w' !! i = jobs w !! i;
  eff_record : jobs w' !! job_id = r;
  eff_log : exists evs,
      log w' = log w ++ evs /\ about job_id evs
      /\ status_writes job_id evs = sw /\ progress_writes job_id evs = pw;
}.

(** From [w] to [w'] no record has been written or removed. *)
Definition Quiet (w w' : World) : Prop :=
  jobs w' = jobs w
  /\ exists evs, log w' = log w ++ evs
       /\ forall i, status_writes i evs = [] /\ progress_writes i evs = [].

(** The run [r], started in [w], ends without an [await] and without
    having touched the store. *)
Definition ends_quietly {A} (w : World) (r : Run A) : Prop :=
  match r with
  | Return _ w' | Raise _ w' => Quiet w w'
  | Await _ _ _ => False
  end.

(** The record a submission creates. *)
Definition new_job (env : Env) : Job :=
  {| j_id := uuid4 env; status := pending; progress := 0;
     output_url := None; error := None; created_at := time_time env |}.

(** How lines 154-208 can end for a record [j] that is still in the
    store: the writes to its status and progress, and the record left. *)
Inductive Ending (j : Job) : list Status -> list Z -> Job -> Prop :=
| ending_completed url :
    Ending j [completed] [30; 50; 90; 100]
      (with_output_url url (with_progress 100 (with_status completed j)))
| ending_transcode_failed msg :
    Ending j [failed] [30; 50]
      (with_error (take 500 msg) (with_status failed (with_progress 50 j)))
| ending_output_missing msg :
    Ending j [failed] [30; 50; 90]
      (with_error (take 500 msg) (with_status failed (with_progress 90 j))).

(** The histories of a job whose pipeline is over, or was never
    queued: the values written to its status and to its progress. *)
Inductive final_history : list Status -> list Z -> Prop :=
| fh_none : final_history [] []
| fh_not_started : final_history [pending] [0]
| fh_interrupted : final_history [pending; processing] [0; 10]
| fh_transcode_failed : final_history [pending; processing; failed] [0; 10; 30; 50]
| fh_output_missing : final_history [pending; processing; failed] [0; 10; 30; 50; 90]
| fh_completed : final_history [pending; processing; completed] [0; 10; 30; 50; 90; 100].

(** The record [j] holds what was written last, and what its status allows. *)
Definition good_record (sw : list Status) (pw : list Z) (j : Job) : Prop :=
  last sw = Some (status j) /\ last pw = Some (progress j) /\ record_ok j.

(** The invariant of the event loop, for one job identifier. *)
Record job_inv (s : System) (i : str) : Prop := mkJobInv {
  inv_fresh :
    i ∉ issued s ->
    status_writes i (log (world s)) = [] /\ progress_writes i (log (world s)) = []
    /\ tasks s !! i = None /\ jobs (world s) !! i = None;
  inv_record :
    forall j, jobs (world s) !! i = Some j ->
      good_record (status_writes i (log (world s))) (progress_writes i (log (world s))) j;
  inv_phase :
    match tasks s !! i with
    | Some (Queued m) =>
        (exists env video_path prompt output_format,
            m = process_video env i video_path prompt output_format)
        /\ status_writes i (log (world s)) = [pending]
        /\ progress_writes i (log (world s)) = [0]
    | Some (Suspended req k) =>
        (exists env video_path prompt output_format w0 w1,
            process_video env i video_path prompt output_format w0 = Await req w1 k)
        /\ status_writes i (log (world s)) = [pending; processing]
        /\ progress_writes i (log (world s)) = [0; 10]
    | None =>
        final_history (status_writes i (log (world s))) (progress_writes i (log (world s)))
    end;
}.

(** ** One run of the pipeline, seen from outside *)

(** What has been appended to the log between [w] and [w']. *)
Definition appended (w w' : World) : list Event := drop (length (log w)) (log w').

(** The actions of a coroutine started in [w] that ran up to [r], and
    on from its [await] when it has one: what the other coroutines did
    in between is left out. *)
Definition trace_of {A} (w : World) (r : Run A) (rep : Reply) (others : World -> World)
  : list Event :=
  match r with
  | Await _ w1 _ =>
      appended w w1 ++ appended (others w1) (world_of (run_to_end r rep others))
  | _ => appended w (world_of r)
  end.

(** The world in which the pipeline of the record [j] goes on after
    the advisor has answered, or has raised without an [await]. *)
Definition resumed_world (env : Env) (job_id prompt : str) (j : Job) (w : World)
    (others : World -> World) : World :=
  match api_key env with
  | Some key => others (started job_id j [EvRequest (advisor_request env prompt key)] w)
  | None => started job_id j [] w
  end.

(** What the advisor stage prints (line 157), and whether the pipeline
    goes on to line 160 ([None]: it is left with a BaseException). *)
Definition advisor_report (env : Env) (job_id : str) (present : bool) (rep : Reply)
  : option (list Event) :=
  let report (e : Exn) := [EvPrint (py "AI API error: " ++ str_of e)] in
  match api_key env with
  | None => Some (report (ValueError (py "OLLAMA_API_KEY is not configured")))
  | Some _ =>
      match rep with
      | Content _ => Some (if present then [] else report (KeyError job_id))
      | Failure e => if is_Exception e then Some (report e) else None
      end
  end.

#[global] Instance FsCall_eq_dec : EqDecision FsCall.
Proof. solve_decision. Defined.

(** The environment [env] with the outcome of one file-system call replaced. *)
Definition with_fs_error (call : FsCall) (outcome : option str) (env : Env) : Env :=
  {| OLLAMA_API_KEY := OLLAMA_API_KEY env;
     OLLAMA_BASE_URL := OLLAMA_BASE_URL env;
     ffmpeg_run := ffmpeg_run env;
     fs_error := fun c => if decide (c = call) then outcome else fs_error env c;
     uuid4 := uuid4 env;
     time_time := time_time env |}.

(** ** A sample execution

    One submission of a one-byte video, its pipeline started, and the
    pipeline resumed with an answer of the advisor. *)

Definition demo_env : Env :=
  {| OLLAMA_API_KEY := Some (py "key");
     OLLAMA_BASE_URL := None;
     ffmpeg_run := fun _ _ => mkFfmpegResult FfOk (Some [x2a]);
     fs_error := fun _ => None;
     uuid4 := py "job-1";
     time_time := 5000%float |}.

Definition demo_upload : UploadFile :=
  {| content_type := Some (py "video/mp4"); body := [x00] |}.

Definition demo_input : str := TEMP_DIR (py "job-1" ++ py "_input.mp4").

Definition demo_pipeline : M unit :=
  process_video demo_env (py "job-1") demo_input
    (sanitized_prompt_of (py "make it square")) (py "square").

Definition demo_submitted : System :=
  submit demo_env demo_env (py "make it square") (py "square") (Some demo_upload)
    (mkSystem (mkWorld ∅ ∅ []) ∅ ∅).

Definition demo_started : System :=
  advance (py "job-1") (demo_pipeline (world demo_submitted)) demo_submitted.

Definition demo_done : System :=
  advance (py "job-1")
    (run_to_end (demo_pipeline (world demo_submitted)) (Content (py "{}")) (fun w => w))
    demo_started.

(** The same environment with a transcoder that fails. *)
Definition failing_env : Env :=
  {| OLLAMA_API_KEY := Some (py "key");
     OLLAMA_BASE_URL := None;
     ffmpeg_run := fun _ _ => mkFfmpegResult (FfFails (py "b'Invalid data'")) None;
     fs_error := fun _ => None;
     uuid4 := py "job-1";
     time_time := 5000%float |}.

(** A store with one record created long ago, its output on disk,
    and an environment in which the output cannot be unlinked. *)
Definition stale_job : Job :=
  mkJob (py "job-0") completed 100 (Some (py "/api/download/job-0")) None 0%float.

Definition stale_world : World :=
  mkWorld {[ py "job-0" := stale_job ]}
          {[ output_path_of (py "job-0") := [x2a] ]} [].

Definition locked_env : Env :=
  {| OLLAMA_API_KEY := None;
     OLLAMA_BASE_URL := None;
     ffmpeg_run := fun _ _ => mkFfmpegResult FfOk None;
     fs_error := fun call =>
       match call with
       | FsUnlink _ => Some (py "Permission denied")
       | _ => None
       end;
     uuid4 := py "job-9";
     time_time := 10000%float |}.

(** The detail of the rejection of an oversized upload (lines 270-273). *)
Definition too_large_detail : str :=
  py "File too large. Maximum size is "
  ++ str_of_Z (MAX_FILE_SIZE / (1024 * 1024)) ++ py "MB".

(** An upload of one byte more than the cap. *)
Definition oversized_upload : UploadFile :=
  {| content_type := Some (py "video/mp4");
     body := replicate (Z.to_nat (MAX_FILE_SIZE + 1)) x00 |}.

(** The sample environment, with an input file that cannot be removed. *)
Definition undeletable_env : Env :=
  with_fs_error (FsRemove (TEMP_DIR (py "job-1" ++ py "_input.mp4")))
    (Some (py "Permission denied")) demo_env.

(** ** File names (lines 89-96) *)

(** [p.rfind(c)]: the index of the last [c] in [p], or -1. *)
Fixpoint rfind (c : N) (p : str) : Z :=
  match p with
  | [] => -1
  | x :: p' =>
      let r := rfind c p' in
      if bool_decide (0 <= r) then r + 1
      else if bool_decide (x = c) then 0 else -1
  end.

(** [os.path.basename(p)] of posixpath: what follows the last slash. *)
Definition basename (p : str) : str :=
  let i := rfind 47%N p + 1 in
  drop (Z.to_nat i) p.

(** The characters of the class [a-zA-Z0-9._-]. *)
Definition is_safe_char (c : N) : bool :=
  ((97 <=? c) && (c <=? 122) || (65 <=? c) && (c <=? 90) || (48 <=? c) && (c <=? 57)
   || (c =? 46) || (c =? 95) || (c =? 45))%N.

(** [re.sub(r'[^a-zA-Z0-9._-]', '_', filename)] *)
Definition re_sub_unsafe (filename : str) : str :=
  (fun c : N => if is_safe_char c then c else 95%N) <$> filename.

Definition sanitize_filename (filename : str) : str :=
  (* Remove path components and keep only the filename *)
  let filename := basename filename in
  (* Replace unsafe characters *)
  let filename := re_sub_unsafe filename in
  (* Limit length *)
  take 255 filename.

(** ** The allowed origins (lines 21-28)

    [FRONTEND_URL] is the value of the environment variable, if set. *)
Definition ALLOWED_ORIGINS (FRONTEND_URL : option str) : list str :=
  let allowed := [py "http://localhost:3000";
                  py "https://ai-video-editor-virid.vercel.app"] in
  let frontend_url := getenv FRONTEND_URL [] in
  if negb (bool_decide (frontend_url = [])) && negb (bool_decide (frontend_url ∈ allowed))
  then allowed ++ [frontend_url]
  else allowed.

(** ** The status and download endpoints (lines 301-345)

    [uuid_UUID job_id] stands for the call [uuid.UUID(job_id)] of the
    standard library: [Some msg] when it raises [ValueError(msg)]. *)

Definition parse_uuid (uuid_UUID : str -> option str) (job_id : str) : M unit :=
  match uuid_UUID job_id with
  | Some msg => raise (ValueError msg)
  | None => ret tt
  end.

(** [except ValueError: raise HTTPException(400, "Invalid job ID format")] *)
Definition except_ValueError {A} (h : M A) : Exn -> option (M A) :=
  fun e => match e with ValueError _ => Some h | _ => None end.

(** The dict a status query is answered with. *)
Record StatusReport := mkStatusReport {
  rep_id : str;
  rep_status : Status;
  rep_progress : Z;
  rep_output_url : option str;
  rep_error : option str;
}.

(** [jobs[job_id]] *)
Definition jobs_getitem (job_id : str) : M Job :=
  fun w =>
    match jobs w !! job_id with
    | Some j => Return j w
    | None => Raise (KeyError job_id) w
    end.

(** [job_id in jobs] *)
Definition jobs_contains (job_id : str) : M bool :=
  fun w => Return (bool_decide (is_Some (jobs w !! job_id))) w.

Definition get_job_status (uuid_UUID : str -> option str) (job_id : str) : M StatusReport :=
  (* Validate job_id format (UUID) *)
  try_except (parse_uuid uuid_UUID job_id)
    (except_ValueError (raise (HTTPException 400 (py "Invalid job ID format")))) ;;
  known ← jobs_contains job_id;
  (if negb known then raise (HTTPException 404 (py "Job not found")) else ret tt) ;;
  job ← jobs_getitem job_id;
  ret {| rep_id := j_id job;
         rep_status := status job;
         rep_progress := progress job;
         rep_output_url := output_url job;
         rep_error := error job |}.

(** What [FileResponse] is built from. *)
Record FileResponse := mkFileResponse {
  fr_path : str;
  fr_media_type : str;
  fr_filename : str;
}.

Definition download_video (uuid_UUID : str -> option str) (job_id : str) : M FileResponse :=
  (* Validate job_id format *)
  try_except (parse_uuid uuid_UUID job_id)
    (except_ValueError (raise (HTTPException 400 (py "Invalid job ID format")))) ;;
  known ← jobs_contains job_id;
  (if negb known then raise (HTTPException 404 (py "Job not found")) else ret tt) ;;
  job ← jobs_getitem job_id;
  (if negb (bool_decide (status job = completed))
   then raise (HTTPException 400 (py "Video processing not complete"))
   else ret tt) ;;
  let output_path := TEMP_DIR (job_id ++ py "_output.mp4") in
  output_exists ← path_exists output_path;
  (if negb output_exists
   then raise (HTTPException 404 (py "Output file not found"))
   else ret tt) ;;
  ret {| fr_path := output_path;
         fr_media_type := py "video/mp4";
         fr_filename := py "edited_video_" ++ take 8 job_id ++ py ".mp4" |}.

(** ** Notions used by the further properties *)

(** The path the handler saves the upload of [job_id] under (line 261). *)
Definition input_path_of (job_id : str) : str := TEMP_DIR (job_id ++ py "_input.mp4").

(** The pattern matches somewhere in the subject, under re.IGNORECASE. *)
Fixpoint search_ignorecase (pat v : str) : bool :=
  match_here pat v
  || match v with
     | [] => false
     | _ :: v' => search_ignorecase pat v'
     end.

(** From [w] to [w'] no file but the one at [path] has been touched. *)
Definition Touches (path : str) (w w' : World) : Prop :=
  forall q, q <> path -> files w' !! q = files w !! q.

(** The run [r], started in [w], ends without an [await] and has
    touched no file but the one at [path]. *)
Definition ends_touching {A} (path : str) (w : World) (r : Run A) : Prop :=
  match r with
  | Return _ w' | Raise _ w' => Touches path w w'
  | Await _ _ _ => False
  end.

(** What a record stored under [job_id] holds besides its status, when
    the files are [fs]: its own identifier, and, once completed, the
    download URL of the job, whose output is on disk. *)
Definition record_sound (fs : gmap str bytes) (job_id : str) (j : Job) : Prop :=
  j_id j = job_id
  /\ (status j = completed ->
      output_url j = Some (py "/api/download/" ++ job_id)
      /\ is_Some (fs !! output_path_of job_id)).

Definition store_sound (w : World) : Prop :=
  forall i j, jobs w !! i = Some j -> record_sound (files w) i j.

(** The tasks of the event loop are pipelines queued by submissions:
    each works on the input path of its own job. *)
Definition task_of (job_id : str) (t : Task) : Prop :=
  match t with
  | Queued m =>
      exists env prompt output_format,
        m = process_video env job_id (input_path_of job_id) prompt output_format
  | Suspended req k =>
      exists env prompt output_format w0 w1,
        process_video env job_id (input_path_of job_id) prompt output_format w0
        = Await req w1 k
  end.

Definition system_sound (s : System) : Prop :=
  store_sound (world s) /\ forall i t, tasks s !! i = Some t -> task_of i t.

(** Where a task of the event loop gets when it is run next: from its
    start, or from its [await] with the reply [rep]. *)
Definition run_task (t : Task) (rep : Reply) (w : World) : Run unit :=
  match t with
  | Queued m => m w
  | Suspended _ k => k rep w
  end.

(** * Proofs *)

(** ** Symbolic execution of the pipeline *)

Lemma jobs_update_Some w job_id f ev j :
  jobs w !! job_id = Some j ->
  jobs_update job_id f ev w = Return tt (record ev (set_jobs (insert job_id (f j)) w)).
Proof. intros H. unfold jobs_update. by rewrite H. Qed.

Lemma jobs_update_None w job_id f ev :
  jobs w !! job_id = None ->
  jobs_update job_id f ev w = Raise (KeyError job_id) w.
Proof. intros H. unfold jobs_update. by rewrite H. Qed.


Ltac run_simpl :=
  cbn [bind_run catch_run finally_run except_Exception is_Exception ret raise
       emit print path_exists get_world jobs files log record set_jobs set_files].

Ltac run_unfold :=
  unfold try_finally, try_except, mbind, M_bind, mret, M_ret, bind,
    set_status, set_progress, set_output_url, set_error.

(** The [finally] block always returns. *)
Lemma cleanup_block env video_path w fs :
  fs = files w ->
  catch_run
    ((if bool_decide (is_Some (fs !! video_path))
      then os_remove env video_path else ret tt) w)
    (except_Exception (fun _ => ret tt))
  = Return tt (cleanup_input env video_path w).
Proof.
  intros ->. unfold cleanup_input, os_remove, fs_delete.
  destruct (files w !! video_path) as [data|] eqn:Hf.
  - rewrite bool_decide_eq_true_2 by eauto. run_simpl.
    destruct (fs_error env (FsRemove video_path)); run_simpl; [done|].
    rewrite Hf. done.
  - rewrite bool_decide_eq_false_2 by (intros [? ?]; done). done.
Qed.

Lemma process_video_evicted env job_id video_path prompt output_format w :
  jobs w !! job_id = None ->
  process_video env job_id video_path prompt output_format w
  = Raise (KeyError job_id) (cleanup_input env video_path w).
Proof.
  intros H. unfold process_video. run_unfold.
  rewrite (jobs_update_None _ _ _ _ H). run_simpl.
  rewrite (jobs_update_None _ _ _ _ H). run_simpl.
  rewrite cleanup_block by reflexivity. done.
Qed.

Lemma world_ext (w1 w2 : World) :
  jobs w1 = jobs w2 -> files w1 = files w2 -> log w1 = log w2 -> w1 = w2.
Proof. destruct w1, w2. cbn. by intros -> -> ->. Qed.

Ltac world_eq :=
  repeat (apply (f_equal (Return tt)) || apply (f_equal (cleanup_input _ _))
          || apply (f_equal (Raise _)));
  apply world_ext; cbn [jobs files log record set_jobs set_files fst snd];
  [ rewrite ?insert_insert_eq; reflexivity
  | reflexivity
  | rewrite <- ?app_assoc; reflexivity ].

Ltac run_write :=
  erewrite jobs_update_Some by (run_simpl; first [eassumption | apply lookup_insert_eq]);
  run_simpl.

(** Lines 160-204 with the handlers around them, in a world where the
    advisor stage has just ended. *)
Lemma tail_block env job_id video_path output_format w :
  finally_run
    (catch_run
       (bind_run
          (jobs_update job_id (with_progress 30) (EvProgress job_id 30) w)
          (fun _ : () =>
             let config := dict_get FORMAT_CONFIGS output_format FORMAT_tiktok in
             set_progress job_id 50 ;;
             try_except
               (ffmpeg_run_cmd env
                  (transcode_cmd video_path (TEMP_DIR (job_id ++ py "_output.mp4")) config))
               (fun e => match e with
                         | FfmpegError stderr =>
                             Some (raise (RuntimeError (py "FFmpeg processing failed: " ++ stderr)))
                         | _ => None
                         end) ;;
             set_progress job_id 90 ;;
             output_exists ← path_exists (TEMP_DIR (job_id ++ py "_output.mp4"));
             (if negb output_exists
              then raise (RuntimeError (py "Output file was not created"))
              else ret tt) ;;
             set_status job_id completed ;;
             set_progress job_id 100 ;;
             set_output_url job_id (py "/api/download/" ++ job_id)))
       (except_Exception (fun e =>
          set_status job_id failed ;;
          set_error job_id (take 500 (str_of e)))))
    (try_except
       (input_exists ← path_exists video_path;
        if (input_exists : bool) then os_remove env video_path else ret tt)
       (except_Exception (fun _ => ret tt)))
  = after_advisor env job_id video_path output_format w.
Proof.
  unfold after_advisor. run_unfold.
  destruct (jobs w !! job_id) as [j|] eqn:Hj.
  2:{ rewrite (jobs_update_None _ _ _ _ Hj). run_simpl.
      rewrite (jobs_update_None _ _ _ _ Hj). run_simpl.
      rewrite cleanup_block by reflexivity. done. }
  do 2 run_write.
  unfold ffmpeg_run_cmd, output_path_of. run_simpl.
  set (cmd := transcode_cmd _ _ _).
  destruct (ffmpeg_run env cmd (files w)) as [exit written]. cbn [ff_exit ff_written ff_output cmd transcode_cmd].
  unfold ending, output_path_of.
  destruct written as [data|], exit as [|stderr|msg]; run_simpl;
    repeat run_write;
    try (destruct (bool_decide (is_Some (_ !! TEMP_DIR _))); cbn [negb]; run_simpl);
    repeat run_write;
    (rewrite cleanup_block by reflexivity); world_eq.
Qed.

Lemma api_key_None env :
  api_key env = None ->
  forall prompt video_path,
    call_qwen_api env prompt video_path
    = raise (ValueError (py "OLLAMA_API_KEY is not configured")).
Proof.
  unfold api_key, call_qwen_api. intros H prompt video_path.
  destruct (OLLAMA_API_KEY env) as [[|c key]|]; [reflexivity|discriminate H|reflexivity].
Qed.

Lemma api_key_Some env key :
  api_key env = Some key ->
  forall prompt video_path,
    call_qwen_api env prompt video_path
    = (emit (EvRequest (advisor_request env prompt key)) ;;
       response ← await (advisor_request env prompt key);
       match response with
       | Content text => ret text
       | Failure e => raise e
       end).
Proof.
  unfold api_key, call_qwen_api, advisor_request. intros H prompt video_path.
  destruct (OLLAMA_API_KEY env) as [[|c key']|]; [discriminate H| |discriminate H].
  injection H as <-. reflexivity.
Qed.

Lemma process_video_no_key env job_id video_path prompt output_format w j :
  jobs w !! job_id = Some j ->
  api_key env = None ->
  process_video env job_id video_path prompt output_format w
  = after_advisor env job_id video_path output_format
      (record (EvPrint (py "AI API error: " ++ py "OLLAMA_API_KEY is not configured"))
         (started job_id j [] w)).
Proof.
  intros Hj Hkey. unfold process_video. rewrite (api_key_None _ Hkey).
  run_unfold.
  do 2 run_write.
  etrans; [exact (tail_block env job_id video_path output_format _)|].
  f_equal. apply world_ext; unfold started;
    cbn [jobs files log record set_jobs set_files str_of].
  - by rewrite insert_insert_eq.
  - done.
  - by rewrite <- !app_assoc.
Qed.

Lemma catch_update_Some w job_id f ev j (h : Exn -> option (M unit)) :
  jobs w !! job_id = Some j ->
  catch_run (jobs_update job_id f ev w) h = jobs_update job_id f ev w.
Proof. intros H. by rewrite (jobs_update_Some _ _ _ _ _ H). Qed.

Lemma catch_update_None w job_id f ev (h : Exn -> option (M unit)) :
  jobs w !! job_id = None ->
  catch_run (jobs_update job_id f ev w) h
  = match h (KeyError job_id) with Some m => m w | None => Raise (KeyError job_id) w end.
Proof. intros H. by rewrite (jobs_update_None _ _ _ _ H). Qed.

Lemma process_video_key env job_id video_path prompt output_format w j key :
  jobs w !! job_id = Some j ->
  api_key env = Some key ->
  exists k,
    process_video env job_id video_path prompt output_format w
    = Await (advisor_request env prompt key)
        (started job_id j [EvRequest (advisor_request env prompt key)] w) k
    /\ forall rep w', k rep w' = resumed env job_id video_path output_format rep w'.
Proof.
  intros Hj Hkey. unfold process_video. rewrite (api_key_Some _ _ Hkey).
  run_unfold.
  do 2 run_write. unfold await. run_simpl.
  eexists. split.
  - f_equal. apply world_ext; unfold started; cbn [jobs files log record set_jobs set_files].
    + by rewrite insert_insert_eq.
    + done.
    + by rewrite <- !app_assoc.
  - intros rep w'. cbn beta. unfold resumed. destruct rep as [text|e]; run_simpl.
    + destruct (jobs w' !! job_id) as [j'|] eqn:Hj'.
      * rewrite (catch_update_Some _ _ _ _ _ _ Hj').
        exact (tail_block env job_id video_path output_format _).
      * rewrite (catch_update_None _ _ _ _ _ Hj'). run_simpl.
        exact (tail_block env job_id video_path output_format _).
    + destruct (is_Exception e) eqn:He.
      * destruct e; try discriminate He; run_simpl;
          exact (tail_block env job_id video_path output_format _).
      * destruct e; try discriminate He. run_simpl.
        rewrite cleanup_block by reflexivity. reflexivity.
Qed.

(** ** Effects of the pipeline on the store and on the log *)

Lemma status_writes_app i l1 l2 :
  status_writes i (l1 ++ l2) = status_writes i l1 ++ status_writes i l2.
Proof. apply omap_app. Qed.

Lemma progress_writes_app i l1 l2 :
  progress_writes i (l1 ++ l2) = progress_writes i l1 ++ progress_writes i l2.
Proof. apply omap_app. Qed.

Ltac proj_simpl :=
  unfold status_writes, progress_writes;
  cbn [omap list_omap status_written progress_written app];
  rewrite ?bool_decide_eq_true_2 by reflexivity;
  rewrite ?bool_decide_eq_false_2 by congruence;
  cbn [omap list_omap status_written progress_written app].

Lemma about_nil i : about i [].
Proof. intros j _. split; reflexivity. Qed.

Lemma about_app i l1 l2 : about i l1 -> about i l2 -> about i (l1 ++ l2).
Proof.
  intros H1 H2 j Hj. destruct (H1 j Hj) as [a b], (H2 j Hj) as [c d].
  rewrite status_writes_app, progress_writes_app, a, b, c, d. split; reflexivity.
Qed.

Lemma about_cleanup i video_path w : about i (cleanup_events video_path w).
Proof.
  unfold cleanup_events. destruct (files w !! video_path); intros j Hj; split; reflexivity.
Qed.

Lemma jobs_cleanup env video_path w : jobs (cleanup_input env video_path w) = jobs w.
Proof.
  unfold cleanup_input. destruct (files w !! video_path); [|reflexivity].
  destruct (fs_error env _); reflexivity.
Qed.

Lemma log_cleanup env video_path w :
  log (cleanup_input env video_path w) = log w ++ cleanup_events video_path w.
Proof.
  unfold cleanup_input, cleanup_events. destruct (files w !! video_path).
  - destruct (fs_error env _); reflexivity.
  - symmetry. apply app_nil_r.
Qed.

Lemma Effect_refl i w : Effect i w w [] [] (jobs w !! i).
Proof.
  split; [reflexivity.. |]. exists []. rewrite app_nil_r.
  split; [reflexivity|]. split; [apply about_nil|]. split; reflexivity.
Qed.

Lemma Effect_trans i w1 w2 w3 sw1 sw2 pw1 pw2 r1 r2 :
  Effect i w1 w2 sw1 pw1 r1 -> Effect i w2 w3 sw2 pw2 r2 ->
  Effect i w1 w3 (sw1 ++ sw2) (pw1 ++ pw2) r2.
Proof.
  intros [o1 e1 (l1 & Hl1 & a1 & s1 & p1)] [o2 e2 (l2 & Hl2 & a2 & s2 & p2)].
  split.
  - intros j Hj. rewrite (o2 j Hj). apply o1, Hj.
  - exact e2.
  - exists (l1 ++ l2). rewrite Hl2, Hl1, <- app_assoc.
    split; [reflexivity|]. split; [by apply about_app|].
    rewrite status_writes_app, progress_writes_app, s1, s2, p1, p2. split; reflexivity.
Qed.

Lemma Effect_cleanup env i video_path w :
  Effect i w (cleanup_input env video_path w) [] [] (jobs w !! i).
Proof.
  split.
  - intros j _. by rewrite jobs_cleanup.
  - by rewrite jobs_cleanup.
  - exists (cleanup_events video_path w). split; [apply log_cleanup|].
    split; [apply about_cleanup|]. unfold cleanup_events.
    destruct (files w !! video_path); split; reflexivity.
Qed.

Lemma Effect_print i msg w : Effect i w (record (EvPrint msg) w) [] [] (jobs w !! i).
Proof.
  split; [reflexivity..|]. exists [EvPrint msg].
  split; [reflexivity|]. split; [|split; reflexivity].
  intros j _. split; reflexivity.
Qed.

Lemma Effect_started i j evs w :
  about i evs -> status_writes i evs = [] -> progress_writes i evs = [] ->
  Effect i w (started i j evs w) [processing] [10]
    (Some (with_progress 10 (with_status processing j))).
Proof.
  intros Ha Hs Hp. split.
  - intros k Hk. unfold started. cbn [jobs]. by rewrite lookup_insert_ne.
  - unfold started. cbn [jobs]. apply lookup_insert_eq.
  - eexists. split; [reflexivity|]. split; [|split].
    + intros k Hk. destruct (Ha k Hk) as [a b].
      rewrite status_writes_app, progress_writes_app, a, b.
      proj_simpl. split; reflexivity.
    + rewrite status_writes_app, Hs. proj_simpl. reflexivity.
    + rewrite progress_writes_app, Hp. proj_simpl. reflexivity.
Qed.

Lemma after_advisor_absent env i video_path output_format w :
  jobs w !! i = None ->
  exists w', after_advisor env i video_path output_format w = Raise (KeyError i) w'
             /\ Effect i w w' [] [] None.
Proof.
  intros H. unfold after_advisor. rewrite H. eexists. split; [reflexivity|].
  rewrite <- H. apply Effect_cleanup.
Qed.

Lemma after_advisor_present env i video_path output_format w j :
  jobs w !! i = Some j ->
  exists sw pw j' w',
    after_advisor env i video_path output_format w = Return tt w'
    /\ Ending j sw pw j' /\ Effect i w w' sw pw (Some j').
Proof.
  intros H. unfold after_advisor. rewrite H.
  set (cmd := transcode_cmd _ _ _).
  set (res := ffmpeg_run env cmd (files w)).
  set (fs := match ff_written res with Some data => _ | None => _ end).
  set (e := ending i (ff_exit res) fs j).
  set (w1 := mkWorld _ _ _).
  assert (He : exists sw pw, Ending j sw pw e.1
            /\ about i e.2
            /\ status_writes i ([EvProgress i 30; EvProgress i 50; EvFfmpeg cmd] ++ e.2) = sw
            /\ progress_writes i ([EvProgress i 30; EvProgress i 50; EvFfmpeg cmd] ++ e.2) = pw).
  { subst e. unfold ending. destruct (ff_exit res) as [|stderr|msg].
    - destruct (bool_decide _).
      + eexists _, _. split; [apply ending_completed|]. cbn [fst snd].
        split; [intros k Hk; proj_simpl; split; reflexivity|].
        proj_simpl. split; reflexivity.
      + eexists _, _. split; [apply ending_output_missing|]. cbn [fst snd].
        split; [intros k Hk; proj_simpl; split; reflexivity|].
        proj_simpl. split; reflexivity.
    - eexists _, _. split; [apply ending_transcode_failed|]. cbn [fst snd].
      split; [intros k Hk; proj_simpl; split; reflexivity|].
      proj_simpl. split; reflexivity.
    - eexists _, _. split; [apply ending_transcode_failed|]. cbn [fst snd].
      split; [intros k Hk; proj_simpl; split; reflexivity|].
      proj_simpl. split; reflexivity. }
  destruct He as (sw & pw & Hend & Hab & Hsw & Hpw).
  exists sw, pw, e.1, (cleanup_input env video_path w1).
  split; [reflexivity|]. split; [exact Hend|].
  replace sw with (sw ++ []) by apply app_nil_r.
  replace pw with (pw ++ []) by apply app_nil_r.
  apply (Effect_trans i w w1 _ _ _ _ _ (Some e.1)).
  - split.
    + intros k Hk. subst w1. cbn [jobs]. by rewrite lookup_insert_ne.
    + subst w1. cbn [jobs]. apply lookup_insert_eq.
    + eexists. split; [subst w1; cbn [log]; reflexivity|].
      split; [|split; assumption].
      apply (about_app i [_; _; _]); [|exact Hab].
      intros k Hk. proj_simpl. split; reflexivity.
  - assert (Hr : jobs w1 !! i = Some e.1) by (subst w1; cbn [jobs]; apply lookup_insert_eq).
    rewrite <- Hr. apply Effect_cleanup.
Qed.

Lemma continuation_spec env i video_path prompt output_format w0 req w1 k :
  process_video env i video_path prompt output_format w0 = Await req w1 k ->
  forall rep w, k rep w = resumed env i video_path output_format rep w.
Proof.
  intros H. destruct (jobs w0 !! i) as [j|] eqn:Hj.
  - destruct (api_key env) as [key|] eqn:Hkey.
    + destruct (process_video_key env i video_path prompt output_format w0 j key Hj Hkey)
        as (k' & Hk' & Hspec).
      rewrite Hk' in H. injection H as _ _ <-. exact Hspec.
    + rewrite (process_video_no_key env i video_path prompt output_format w0 j Hj Hkey) in H.
      destruct (after_advisor_present env i video_path output_format
                  (record (EvPrint (py "AI API error: " ++ py "OLLAMA_API_KEY is not configured"))
                     (started i j [] w0)) (with_progress 10 (with_status processing j)))
        as (sw & pw & j' & w' & Hr & _).
      { unfold started. cbn [record jobs]. apply lookup_insert_eq. }
      rewrite Hr in H. discriminate H.
  - rewrite (process_video_evicted _ _ _ _ _ _ Hj) in H. discriminate H.
Qed.

(** What starting the pipeline does. *)
Lemma start_cases env i video_path prompt output_format w :
  let r := process_video env i video_path prompt output_format w in
  match jobs w !! i with
  | None => exists w', r = Raise (KeyError i) w' /\ Effect i w w' [] [] None
  | Some j =>
      let j10 := with_progress 10 (with_status processing j) in
      (exists sw pw j' w',
          r = Return tt w' /\ Ending j10 sw pw j'
          /\ Effect i w w' (processing :: sw) (10 :: pw) (Some j'))
      \/ (exists req w' k, r = Await req w' k /\ Effect i w w' [processing] [10] (Some j10))
  end.
Proof.
  intros r. subst r. destruct (jobs w !! i) as [j|] eqn:Hj.
  - destruct (api_key env) as [key|] eqn:Hkey.
    + right.
      destruct (process_video_key env i video_path prompt output_format w j key Hj Hkey)
        as (k & Hk & _).
      eexists _, _, _. split; [exact Hk|].
      apply Effect_started.
      * intros n _. split; reflexivity.
      * reflexivity.
      * reflexivity.
    + left. rewrite (process_video_no_key env i video_path prompt output_format w j Hj Hkey).
      set (w1 := started i j [] w).
      set (w2 := record _ w1).
      assert (E1 : Effect i w w1 [processing] [10]
                     (Some (with_progress 10 (with_status processing j)))).
      { apply Effect_started; [apply about_nil|reflexivity..]. }
      assert (H2 : jobs w2 !! i = Some (with_progress 10 (with_status processing j))).
      { apply (eff_record _ _ _ _ _ _ E1). }
      destruct (after_advisor_present env i video_path output_format w2 _ H2)
        as (sw & pw & j' & w' & Hr & Hend & E3).
      exists sw, pw, j', w'. split; [exact Hr|]. split; [exact Hend|].
      apply (Effect_trans i w w1 w' [processing] sw [10] pw _ _ E1).
      replace sw with ([] ++ sw) by reflexivity.
      replace pw with ([] ++ pw) by reflexivity.
      apply (Effect_trans i w1 w2 w' [] sw [] pw (jobs w1 !! i) _); [|exact E3].
      apply Effect_print.
  - eexists. split; [apply process_video_evicted, Hj|].
    rewrite <- Hj. apply Effect_cleanup.
Qed.

(** What resuming the pipeline at its [await] does. *)
Lemma resume_cases env i video_path prompt output_format w0 req w1 k rep w :
  process_video env i video_path prompt output_format w0 = Await req w1 k ->
  match jobs w !! i with
  | None => exists e w', k rep w = Raise e w' /\ Effect i w w' [] [] None
  | Some j =>
      (exists sw pw j' w',
          k rep w = Return tt w' /\ Ending j sw pw j' /\ Effect i w w' sw pw (Some j'))
      \/ (exists e w', k rep w = Raise e w' /\ is_Exception e = false
                       /\ Effect i w w' [] [] (Some j))
  end.
Proof.
  intros H. rewrite (continuation_spec _ _ _ _ _ _ _ _ _ H).
  assert (Hprint : forall msg, Effect i w (record (EvPrint msg) w) [] [] (jobs w !! i))
    by (intros; apply Effect_print).
  unfold resumed. destruct (jobs w !! i) as [j|] eqn:Hj.
  - destruct rep as [text|e].
    + left. apply after_advisor_present, Hj.
    + destruct (is_Exception e) eqn:He.
      * left.
        destruct (after_advisor_present env i video_path output_format
                    (record (EvPrint (py "AI API error: " ++ str_of e)) w) j Hj)
          as (sw & pw & j' & w' & Hr & Hend & E).
        exists sw, pw, j', w'. split; [exact Hr|]. split; [exact Hend|].
        replace sw with ([] ++ sw) by reflexivity.
        replace pw with ([] ++ pw) by reflexivity.
        exact (Effect_trans i _ _ _ _ _ _ _ _ _ (Hprint _) E).
      * right. eexists _, _. split; [reflexivity|]. split; [exact He|].
        rewrite <- Hj. apply Effect_cleanup.
  - assert (Hany : forall msg, exists e w',
               after_advisor env i video_path output_format (record (EvPrint msg) w)
               = Raise e w' /\ Effect i w w' [] [] None).
    { intros msg.
      destruct (after_advisor_absent env i video_path output_format
                  (record (EvPrint msg) w) Hj) as (w' & Hr & E).
      exists (KeyError i), w'. split; [exact Hr|].
      pose proof (Hprint msg) as P.
      exact (Effect_trans i _ _ _ [] [] [] [] _ _ P E). }
    destruct rep as [text|e].
    + apply Hany.
    + destruct (is_Exception e); [apply Hany|].
      eexists _, _. split; [reflexivity|]. rewrite <- Hj. apply Effect_cleanup.
Qed.

(** ** The submission handler *)

Lemma Quiet_refl w : Quiet w w.
Proof.
  split; [reflexivity|]. exists []. split; [symmetry; apply app_nil_r|].
  intros i. split; reflexivity.
Qed.

Lemma Quiet_trans w1 w2 w3 : Quiet w1 w2 -> Quiet w2 w3 -> Quiet w1 w3.
Proof.
  intros [j1 (l1 & e1 & q1)] [j2 (l2 & e2 & q2)]. split; [congruence|].
  exists (l1 ++ l2). split; [rewrite e2, e1; symmetry; apply app_assoc|].
  intros i. destruct (q1 i) as [a b], (q2 i) as [c d].
  rewrite status_writes_app, progress_writes_app, a, b, c, d. split; reflexivity.
Qed.

Lemma Quiet_fs call w : Quiet w (record (EvFs call) w).
Proof.
  split; [reflexivity|]. exists [EvFs call]. split; [reflexivity|].
  intros i. split; reflexivity.
Qed.

Lemma Quiet_set_files f w : Quiet w (set_files f w).
Proof.
  split; [reflexivity|]. exists []. split; [symmetry; apply app_nil_r|].
  intros i. split; reflexivity.
Qed.

Lemma ends_quietly_bind {A B} w (r : Run A) (f : A -> M B) :
  ends_quietly w r ->
  (forall a w', Quiet w w' -> ends_quietly w (f a w')) ->
  ends_quietly w (bind_run r f).
Proof. intros Hr Hf. destruct r; cbn in *; [by apply Hf|exact Hr|exact Hr]. Qed.

Lemma ends_quietly_catch {A} w (r : Run A) (h : Exn -> option (M A)) :
  ends_quietly w r ->
  (forall e m w', h e = Some m -> Quiet w w' -> ends_quietly w (m w')) ->
  ends_quietly w (catch_run r h).
Proof.
  intros Hr Hh. destruct r as [a w'|e w'|]; cbn in *; [exact Hr| |exact Hr].
  destruct (h e) as [m|] eqn:He; [by eapply Hh|exact Hr].
Qed.

Lemma ends_quietly_mono {A} w w' (r : Run A) :
  Quiet w w' -> ends_quietly w' r -> ends_quietly w r.
Proof. intros Q. destruct r; cbn; [apply Quiet_trans, Q..|done]. Qed.

Lemma fs_delete_quiet env call path w : ends_quietly w (fs_delete env call path w).
Proof.
  unfold fs_delete. destruct (fs_error env call); cbn; [apply Quiet_fs|].
  destruct (files w !! path); cbn.
  - eapply Quiet_trans; [apply Quiet_fs|apply Quiet_set_files].
  - apply Quiet_fs.
Qed.

Lemma open_wb_quiet env path w : ends_quietly w (open_wb env path w).
Proof.
  unfold open_wb. destruct (fs_error env _); cbn; [apply Quiet_fs|].
  eapply Quiet_trans; [apply Quiet_fs|apply Quiet_set_files].
Qed.

Lemma f_write_quiet env path chunk w : ends_quietly w (f_write env path chunk w).
Proof.
  unfold f_write. destruct (fs_error env _); cbn; [apply Quiet_fs|].
  eapply Quiet_trans; [apply Quiet_fs|apply Quiet_set_files].
Qed.

Lemma save_chunks_quiet fuel env video_path rest total_size w :
  ends_quietly w (save_chunks fuel env video_path rest total_size w).
Proof.
  revert rest total_size w. induction fuel as [|fuel IH]; intros rest total_size w.
  - apply Quiet_refl.
  - cbn [save_chunks]. destruct (bool_decide (take CHUNK rest = [])); [apply Quiet_refl|].
    destruct (bool_decide _).
    + unfold mbind, M_bind, bind. apply ends_quietly_bind; [apply fs_delete_quiet|].
      intros _ w' Q. exact Q.
    + unfold mbind, M_bind, bind. apply ends_quietly_bind; [apply f_write_quiet|].
      intros _ w' Q. eapply ends_quietly_mono; [exact Q|apply IH].
Qed.

Lemma edit_video_cases env prompt format video w :
  (exists e w', edit_video env prompt format video w = Raise e w' /\ Quiet w w')
  \/ (exists fmt w1,
        Quiet w w1
        /\ edit_video env prompt format video w
           = Return (mkAccepted (uuid4 env) pending,
                     [TaskProcessVideo (uuid4 env) (TEMP_DIR (uuid4 env ++ py "_input.mp4"))
                        (sanitized_prompt_of prompt) fmt;
                      TaskCleanupOldJobs])
               (record (EvCreate (uuid4 env))
                  (set_jobs (insert (uuid4 env) (new_job env)) w1))).
Proof.
  unfold edit_video. destruct (bool_decide (2000 < len prompt)).
  { left. eexists _, _. split; [reflexivity|apply Quiet_refl]. }
  destruct video as [video|].
  2:{ left. eexists _, _. split; [reflexivity|apply Quiet_refl]. }
  unfold validate_video_file.
  match goal with |- context [if ?b then raise _ else ret tt] => destruct b end.
  { left. eexists _, _. split; [reflexivity|apply Quiet_refl]. }
  unfold mbind, M_bind, bind, try_except. cbn [bind_run ret].
  set (r0 := catch_run (bind_run (open_wb _ _ _) _) _).
  assert (Hq : ends_quietly w r0).
  { subst r0. apply ends_quietly_catch.
    - apply ends_quietly_bind; [apply open_wb_quiet|].
      intros _ w' Q. eapply ends_quietly_mono; [exact Q|apply save_chunks_quiet].
    - intros e m w' He Q.
      destruct e; cbn in He; try discriminate He; injection He as <-; exact Q. }
  destruct r0 as [[] w1|e w1|]; cbn [bind_run].
  - right. eexists _, w1. split; [exact Hq|]. reflexivity.
  - left. eexists _, _. split; [reflexivity|exact Hq].
  - destruct Hq.
Qed.

(** ** The retention sweep *)

(** One visit of the loop to a record that is in the store. *)
Lemma cleanup_job_expired env now i job w :
  expired now job = true -> is_Some (jobs w !! i) ->
  exists w',
    cleanup_job env now (i, job) w = Return tt w'
    /\ jobs w' = delete i (jobs w)
    /\ (files w' = files w \/ files w' = delete (output_path_of i) (files w))
    /\ (fs_error env (FsUnlink (output_path_of i)) = None ->
        files w' = delete (output_path_of i) (files w))
    /\ exists evs, log w' = log w ++ evs
         /\ forall k, status_writes k evs = [] /\ progress_writes k evs = [].
Proof.
  intros Hexp [j Hj]. unfold cleanup_job. rewrite Hexp.
  unfold mbind, M_bind, bind, path_exists, try_except, unlink, fs_delete, jobs_delitem.
  cbn [bind_run]. fold (output_path_of i).
  destruct (files w !! output_path_of i) as [data|] eqn:Hf.
  - rewrite bool_decide_eq_true_2 by eauto.
    destruct (fs_error env (FsUnlink (output_path_of i))) as [msg|] eqn:Herr;
      cbn [catch_run bind_run except_Exception is_Exception ret record set_files jobs files log].
    + rewrite Hj. eexists. split; [reflexivity|]. cbn [jobs files log set_jobs record].
      split; [reflexivity|]. split; [by left|]. split; [discriminate|].
      eexists [_; _]. rewrite <- app_assoc. split; [reflexivity|].
      intros k. split; reflexivity.
    + rewrite Hf. cbn [catch_run bind_run set_files record jobs files log]. rewrite Hj.
      eexists. split; [reflexivity|]. cbn [jobs files log set_jobs record set_files].
      split; [reflexivity|]. split; [by right|]. split; [reflexivity|].
      eexists [_; _]. rewrite <- app_assoc. split; [reflexivity|].
      intros k. split; reflexivity.
  - rewrite bool_decide_eq_false_2 by (intros [? ?]; discriminate).
    cbn [bind_run ret]. rewrite Hj.
    eexists. split; [reflexivity|]. cbn [jobs files log set_jobs record].
    split; [reflexivity|]. split; [by left|].
    split; [intros _; symmetry; by apply delete_id|].
    eexists [_]. split; [reflexivity|]. intros k. split; reflexivity.
Qed.

Lemma cleanup_loop env now l w :
  NoDup l.*1 ->
  (forall i job, (i, job) ∈ l -> is_Some (jobs w !! i)) ->
  exists w',
    for_each l (cleanup_job env now) w = Return tt w'
    /\ (forall i job, (i, job) ∈ l -> expired now job = true -> jobs w' !! i = None)
    /\ (forall i, (forall job, (i, job) ∈ l -> expired now job = false) ->
                  jobs w' !! i = jobs w !! i)
    /\ (forall i, jobs w' !! i = None \/ jobs w' !! i = jobs w !! i)
    /\ (forall p, files w' !! p = None \/ files w' !! p = files w !! p)
    /\ (forall i job, (i, job) ∈ l -> expired now job = true ->
                      fs_error env (FsUnlink (output_path_of i)) = None ->
                      files w' !! output_path_of i = None)
    /\ exists evs, log w' = log w ++ evs
         /\ forall k, status_writes k evs = [] /\ progress_writes k evs = [].
Proof.
  revert w. induction l as [|[i0 job0] l IH]; intros w Hnd Hin.
  - exists w. split; [reflexivity|].
    split; [intros i job H; by apply elem_of_nil in H|].
    split; [reflexivity|]. split; [by right|]. split; [by right|].
    split; [intros i job H; by apply elem_of_nil in H|].
    exists []. split; [symmetry; apply app_nil_r|]. intros k. split; reflexivity.
  - cbn [fmap list_fmap fst] in Hnd. apply NoDup_cons in Hnd as [Hni Hnd].
    cbn [for_each]. unfold mbind, M_bind, bind.
    destruct (expired now job0) eqn:Hexp.
    + destruct (cleanup_job_expired env now i0 job0 w Hexp (Hin i0 job0 (list_elem_of_here _ _)))
        as (w1 & Hr & Hj1 & Hf1 & Hu1 & evs1 & Hl1 & Hq1).
      rewrite Hr. cbn [bind_run].
      destruct (IH w1 Hnd) as (w' & Hr' & A & B & C & D & E & evs2 & Hl2 & Hq2).
      { intros i job Hel. rewrite Hj1.
        assert (i <> i0).
        { intros ->. apply Hni. apply list_elem_of_fmap. by exists (i0, job). }
        rewrite lookup_delete_ne by done. apply (Hin i job). by right. }
      exists w'. split; [exact Hr'|].
      assert (C' : forall i, jobs w' !! i = None \/ jobs w' !! i = jobs w !! i).
      { intros i. destruct (C i) as [-> | ->]; [by left|]. rewrite Hj1.
        destruct (decide (i0 = i)) as [->|Hne].
        - left. apply lookup_delete_eq.
        - right. by apply lookup_delete_ne. }
      assert (D' : forall p, files w' !! p = None \/ files w' !! p = files w !! p).
      { intros p. destruct (D p) as [-> | ->]; [by left|].
        destruct Hf1 as [-> | ->]; [by right|].
        destruct (decide (output_path_of i0 = p)) as [->|Hne].
        - left. apply lookup_delete_eq.
        - right. by apply lookup_delete_ne. }
      split; [|split; [|split; [exact C'|split; [exact D'|split]]]].
      * intros i job Hel He. apply elem_of_cons in Hel as [[= -> ->]|Hel]; [|by eapply A].
        destruct (C i0) as [-> | ->]; [done|]. rewrite Hj1. apply lookup_delete_eq.
      * intros i Hall. rewrite B by (intros job Hel; apply Hall; by right).
        rewrite Hj1. apply lookup_delete_ne. intros ->.
        specialize (Hall job0 (list_elem_of_here _ _)). congruence.
      * intros i job Hel He Hu. apply elem_of_cons in Hel as [[= -> ->]|Hel]; [|by eapply E].
        destruct (D (output_path_of i0)) as [-> | ->]; [done|].
        rewrite (Hu1 Hu). apply lookup_delete_eq.
      * exists (evs1 ++ evs2). rewrite Hl2, Hl1, <- app_assoc. split; [reflexivity|].
        intros k. destruct (Hq1 k) as [a b], (Hq2 k) as [c d].
        rewrite status_writes_app, progress_writes_app, a, b, c, d. split; reflexivity.
    + assert (Hr : cleanup_job env now (i0, job0) w = Return tt w).
      { unfold cleanup_job. by rewrite Hexp. }
      rewrite Hr. cbn [bind_run].
      destruct (IH w Hnd) as (w' & Hr' & A & B & C & D & E & Q).
      { intros i job Hel. apply (Hin i job). by right. }
      exists w'. split; [exact Hr'|].
      split; [|split; [|split; [exact C|split; [exact D|split; [|exact Q]]]]].
      * intros i job Hel He. apply elem_of_cons in Hel as [[= -> ->]|Hel]; [congruence|].
        by eapply A.
      * intros i Hall. apply B. intros job Hel. apply Hall. by right.
      * intros i job Hel He Hu. apply elem_of_cons in Hel as [[= -> ->]|Hel]; [congruence|].
        by eapply E.
Qed.

(** What one sweep does to the store and to the files. *)
Lemma cleanup_old_jobs_spec env w :
  exists w',
    cleanup_old_jobs env w = Return tt w'
    /\ (forall i job, jobs w !! i = Some job ->
          jobs w' !! i = if expired (time_time env) job then None else Some job)
    /\ (forall i, jobs w !! i = None -> jobs w' !! i = None)
    /\ (forall p, files w' !! p = None \/ files w' !! p = files w !! p)
    /\ (forall i job, jobs w !! i = Some job -> expired (time_time env) job = true ->
                      fs_error env (FsUnlink (output_path_of i)) = None ->
                      files w' !! output_path_of i = None)
    /\ exists evs, log w' = log w ++ evs
         /\ forall k, status_writes k evs = [] /\ progress_writes k evs = [].
Proof.
  unfold cleanup_old_jobs, mbind, M_bind, bind, get_world. cbn [bind_run].
  destruct (cleanup_loop env (time_time env) (map_to_list (jobs w)) w)
    as (w' & Hr & A & B & C & D & E & Q).
  { apply NoDup_fst_map_to_list. }
  { intros i job Hel. apply elem_of_map_to_list in Hel. eauto. }
  exists w'. split; [exact Hr|].
  split; [|split; [|split; [exact D|split; [|exact Q]]]].
  - intros i job Hj. destruct (expired (time_time env) job) eqn:He.
    + eapply A; [|exact He]. by apply elem_of_map_to_list.
    + rewrite B; [exact Hj|]. intros job' Hel. apply elem_of_map_to_list in Hel.
      congruence.
  - intros i Hn. destruct (C i) as [-> | ->]; done.
  - intros i job Hj He Hu. eapply E; [|exact He|exact Hu]. by apply elem_of_map_to_list.
Qed.

(** ** The invariant of the event loop *)

Lemma job_inv_transfer s s' i :
  job_inv s i ->
  status_writes i (log (world s')) = status_writes i (log (world s)) ->
  progress_writes i (log (world s')) = progress_writes i (log (world s)) ->
  (jobs (world s') !! i = None \/ jobs (world s') !! i = jobs (world s) !! i) ->
  tasks s' !! i = tasks s !! i ->
  issued s ⊆ issued s' ->
  job_inv s' i.
Proof.
  intros [F R P] Hs Hp Hj Ht Hi. split.
  - intros Hn. destruct F as (a & b & c & d); [set_solver|].
    rewrite Hs, Hp, Ht. destruct Hj as [-> | ->]; done.
  - intros j Hjj. rewrite Hs, Hp. apply R. destruct Hj as [H1|H1]; congruence.
  - rewrite Ht, Hs, Hp. exact P.
Qed.

(** A stretch of the pipeline of [i0] keeps the invariant of the others. *)
Lemma job_inv_other s s' i0 i sw pw r :
  i <> i0 ->
  job_inv s i ->
  Effect i0 (world s) (world s') sw pw r ->
  tasks s' !! i = tasks s !! i ->
  issued s' = issued s ->
  job_inv s' i.
Proof.
  intros Hne Hinv [Ho _ (evs & Hl & Ha & _)] Ht Hi.
  destruct (Ha i Hne) as [a b].
  apply (job_inv_transfer s s' i Hinv).
  - by rewrite Hl, status_writes_app, a, app_nil_r.
  - by rewrite Hl, progress_writes_app, b, app_nil_r.
  - right. by apply Ho.
  - exact Ht.
  - by rewrite Hi.
Qed.

Lemma ending_final j sw pw j' :
  Ending j sw pw j' ->
  status j = processing -> output_url j = None -> error j = None ->
  final_history ([pending; processing] ++ sw) ([0; 10] ++ pw)
  /\ good_record ([pending; processing] ++ sw) ([0; 10] ++ pw) j'.
Proof.
  intros [url|msg|msg] Hst Ho He; (split; [constructor|]).
  - split; [reflexivity|]. split; [reflexivity|]. unfold record_ok. cbn. by eauto.
  - split; [reflexivity|]. split; [reflexivity|]. unfold record_ok. cbn.
    split; [exact Ho|]. eexists. split; [reflexivity|]. rewrite length_take. lia.
  - split; [reflexivity|]. split; [reflexivity|]. unfold record_ok. cbn.
    split; [exact Ho|]. eexists. split; [reflexivity|]. rewrite length_take. lia.
Qed.

Lemma job_inv_submit s env env_bg prompt format video :
  uuid4 env ∉ issued s ->
  (forall i, job_inv s i) ->
  forall i, job_inv (submit env env_bg prompt format video s) i.
Proof.
  intros Hfresh Hinv i. unfold submit.
  destruct (edit_video_cases env prompt format video (world s))
    as [(e & w' & Hr & Q)|(fmt & w1 & Q & Hr)]; rewrite Hr.
  - destruct Q as [Hj (evs & Hl & Hq)]. destruct (Hq i) as [a b].
    apply (job_inv_transfer s _ i (Hinv i)); cbn [world tasks issued world_of].
    + by rewrite Hl, status_writes_app, a, app_nil_r.
    + by rewrite Hl, progress_writes_app, b, app_nil_r.
    + right. by rewrite Hj.
    + reflexivity.
    + set_solver.
  - destruct Q as [Hj (evs & Hl & Hq)]. destruct (Hq i) as [a b].
    cbn [spawn foldr].
    destruct (decide (i = uuid4 env)) as [->|Hne].
    + destruct (inv_fresh _ _ (Hinv (uuid4 env)) Hfresh) as (Hs & Hp & Ht & Hjn).
      split; cbn [world tasks issued record set_jobs jobs log].
      * intros Hn. exfalso. apply Hn. set_solver.
      * intros j. rewrite lookup_insert_eq. intros [= <-].
        rewrite Hl, !status_writes_app, !progress_writes_app, Hs, Hp, a, b.
        proj_simpl. split; [reflexivity|]. split; [reflexivity|]. by split.
      * rewrite lookup_insert_eq.
        rewrite Hl, !status_writes_app, !progress_writes_app, Hs, Hp, a, b.
        proj_simpl. split; [by eexists _, _, _, _|]. by split.
    + apply (job_inv_transfer s _ i (Hinv i));
        cbn [world tasks issued record set_jobs jobs log].
      * rewrite Hl, !status_writes_app, a. proj_simpl. by rewrite !app_nil_r.
      * rewrite Hl, !progress_writes_app, b. proj_simpl. by rewrite !app_nil_r.
      * right. rewrite lookup_insert_ne by done. by rewrite Hj.
      * by rewrite lookup_insert_ne.
      * set_solver.
Qed.

Lemma job_inv_sweep s env :
  (forall i, job_inv s i) -> forall i, job_inv (sweep env s) i.
Proof.
  intros Hinv i. unfold sweep.
  destruct (cleanup_old_jobs_spec env (world s)) as (w' & Hr & A & B & _ & _ & evs & Hl & Hq).
  rewrite Hr. destruct (Hq i) as [a b].
  apply (job_inv_transfer s _ i (Hinv i)); cbn [world tasks issued world_of].
  - by rewrite Hl, status_writes_app, a, app_nil_r.
  - by rewrite Hl, progress_writes_app, b, app_nil_r.
  - destruct (jobs (world s) !! i) as [job|] eqn:Hj.
    + rewrite (A i job Hj). destruct (expired _ _); [by left|by right].
    + left. by apply B.
  - reflexivity.
  - reflexivity.
Qed.

(** The invariant of the job whose pipeline ran up to [r]: its history
    grew by [sw] and [pw] and its record is [rec]. *)
Lemma job_inv_own s i r sw pw rec :
  job_inv s i -> is_Some (tasks s !! i) ->
  Effect i (world s) (world_of r) sw pw rec ->
  (forall j, rec = Some j ->
     good_record (status_writes i (log (world s)) ++ sw)
                 (progress_writes i (log (world s)) ++ pw) j) ->
  match settle r with
  | Some (Queued m) => False
  | Some (Suspended req k) =>
      (exists env video_path prompt output_format w0 w1,
          process_video env i video_path prompt output_format w0 = Await req w1 k)
      /\ status_writes i (log (world s)) ++ sw = [pending; processing]
      /\ progress_writes i (log (world s)) ++ pw = [0; 10]
  | None => final_history (status_writes i (log (world s)) ++ sw)
              (progress_writes i (log (world s)) ++ pw)
  end ->
  job_inv (advance i r s) i.
Proof.
  intros Hinv Htask [_ Hrec (evs & Hl & _ & Hs & Hp)] Hgood Hphase.
  assert (Hsw : status_writes i (log (world_of r)) = status_writes i (log (world s)) ++ sw)
    by (by rewrite Hl, status_writes_app, Hs).
  assert (Hpw : progress_writes i (log (world_of r)) = progress_writes i (log (world s)) ++ pw)
    by (by rewrite Hl, progress_writes_app, Hp).
  split; unfold advance; cbn [world tasks issued].
  - intros Hn. destruct (inv_fresh _ _ Hinv Hn) as (_ & _ & Ht & _).
    rewrite Ht in Htask. by destruct Htask.
  - intros j Hj. rewrite Hsw, Hpw. apply Hgood. by rewrite <- Hrec.
  - rewrite Hsw, Hpw. destruct (settle r) as [[m|req k]|].
    + destruct Hphase.
    + rewrite lookup_insert_eq. exact Hphase.
    + rewrite lookup_delete_eq. exact Hphase.
Qed.

Lemma job_inv_advance_other s i0 i r sw pw rec :
  i <> i0 -> job_inv s i ->
  Effect i0 (world s) (world_of r) sw pw rec ->
  job_inv (advance i0 r s) i.
Proof.
  intros Hne Hinv E. apply (job_inv_other s (advance i0 r s) i0 i sw pw rec Hne Hinv E).
  - unfold advance. cbn [tasks]. destruct (settle r).
    + by rewrite lookup_insert_ne.
    + by rewrite lookup_delete_ne.
  - reflexivity.
Qed.

Ltac other_job :=
  match goal with
  | Hne : ?i <> ?i0, Hinv : forall i, job_inv ?s i, E : Effect ?i0 _ _ _ _ _
    |- job_inv (advance ?i0 ?r ?s) ?i =>
      exact (job_inv_advance_other s i0 i r _ _ _ Hne (Hinv i) E)
  end.

Ltac own_job :=
  match goal with
  | Hinv : forall i, job_inv ?s i |- job_inv (advance ?i0 ?r ?s) ?i0 =>
      eapply (job_inv_own s i0 r _ _ _ (Hinv i0))
  end.

Lemma job_inv_start s i0 m :
  tasks s !! i0 = Some (Queued m) ->
  (forall i, job_inv s i) ->
  forall i, job_inv (advance i0 (m (world s)) s) i.
Proof.
  intros Ht Hinv i.
  pose proof (inv_phase _ _ (Hinv i0)) as P. rewrite Ht in P.
  destruct P as ((env & vp & prompt & fmt & ->) & Hs & Hp).
  pose proof (start_cases env i0 vp prompt fmt (world s)) as C. cbn zeta in C.
  destruct (jobs (world s) !! i0) as [j|] eqn:Hj.
  - destruct (inv_record _ _ (Hinv i0) j Hj) as (Hst & Hpr & Hok).
    rewrite Hs in Hst. injection Hst as Hst.
    unfold record_ok in Hok. rewrite <- Hst in Hok. destruct Hok as [Ho He].
    destruct C as [(sw & pw & j' & w' & Hr & Hend & E)|(req & w' & k & Hr & E)]; rewrite Hr in *.
    + destruct (ending_final _ _ _ _ Hend) as [Hf Hg]; [reflexivity|exact Ho|exact He|].
      destruct (decide (i = i0)) as [->|Hne];
        [|by other_job].
      own_job; [by rewrite Ht|exact E| |].
      * intros j0 [= <-]. rewrite Hs, Hp. exact Hg.
      * cbn [settle]. rewrite Hs, Hp. exact Hf.
    + destruct (decide (i = i0)) as [->|Hne];
        [|by other_job].
      own_job; [by rewrite Ht|exact E| |].
      * intros j0 [= <-]. rewrite Hs, Hp.
        split; [reflexivity|]. split; [reflexivity|]. by split.
      * cbn [settle]. rewrite Hs, Hp. split; [|by split].
        by eexists _, _, _, _, _, _.
  - destruct C as (w' & Hr & E). rewrite Hr in *.
    destruct (decide (i = i0)) as [->|Hne];
      [|by other_job].
    own_job; [by rewrite Ht|exact E| |].
    + intros j0 [=].
    + cbn [settle]. rewrite Hs, Hp. constructor.
Qed.

Lemma job_inv_resume s i0 req k rep :
  tasks s !! i0 = Some (Suspended req k) ->
  (forall i, job_inv s i) ->
  forall i, job_inv (advance i0 (k rep (world s)) s) i.
Proof.
  intros Ht Hinv i.
  pose proof (inv_phase _ _ (Hinv i0)) as P. rewrite Ht in P.
  destruct P as ((env & vp & prompt & fmt & w0 & w1 & Hk) & Hs & Hp).
  pose proof (resume_cases env i0 vp prompt fmt w0 req w1 k rep (world s) Hk) as C.
  destruct (jobs (world s) !! i0) as [j|] eqn:Hj.
  - destruct (inv_record _ _ (Hinv i0) j Hj) as (Hst & Hpr & Hok).
    rewrite Hs in Hst. injection Hst as Hst.
    assert (Hok' := Hok). unfold record_ok in Hok. rewrite <- Hst in Hok.
    destruct Hok as [Ho He].
    destruct C as [(sw & pw & j' & w' & Hr & Hend & E)|(e & w' & Hr & Hb & E)]; rewrite Hr in *.
    + destruct (ending_final _ _ _ _ Hend) as [Hf Hg]; [done|exact Ho|exact He|].
      destruct (decide (i = i0)) as [->|Hne];
        [|by other_job].
      own_job; [by rewrite Ht|exact E| |].
      * intros j0 [= <-]. rewrite Hs, Hp. exact Hg.
      * cbn [settle]. rewrite Hs, Hp. exact Hf.
    + destruct (decide (i = i0)) as [->|Hne];
        [|by other_job].
      own_job; [by rewrite Ht|exact E| |].
      * intros j0 [= <-]. rewrite Hs, Hp, !app_nil_r.
        split; [by rewrite <- Hst|]. split; [|exact Hok'].
        rewrite Hp in Hpr. exact Hpr.
      * cbn [settle]. rewrite Hs, Hp. constructor.
  - destruct C as (e & w' & Hr & E). rewrite Hr in *.
    destruct (decide (i = i0)) as [->|Hne];
      [|by other_job].
    own_job; [by rewrite Ht|exact E| |].
    + intros j0 [=].
    + cbn [settle]. rewrite Hs, Hp. constructor.
Qed.

(** Every state of the process satisfies the invariant. *)
Lemma reachable_inv s : reachable s -> forall i, job_inv s i.
Proof.
  induction 1 as [fs|s s' _ IH Hstep].
  - intros i. split; cbn [world tasks issued jobs log].
    + intros _. by rewrite !lookup_empty.
    + intros j. by rewrite lookup_empty.
    + rewrite lookup_empty. constructor.
  - destruct Hstep.
    + by apply job_inv_submit.
    + by eapply job_inv_start.
    + by eapply job_inv_resume.
    + by apply job_inv_sweep.
Qed.

(** Every step appends to the log. *)
Lemma step_log s s' :
  (forall i, job_inv s i) -> step s s' ->
  exists evs, log (world s') = log (world s) ++ evs.
Proof.
  intros Hinv Hstep. destruct Hstep as [s env env_bg prompt format video _|s i0 m Ht|s i0 req k rep Ht|s env].
  - unfold submit.
    destruct (edit_video_cases env prompt format video (world s))
      as [(e & w' & Hr & Q)|(fmt & w1 & Q & Hr)]; rewrite Hr;
      destruct Q as [_ (evs & Hl & _)]; cbn [world world_of record set_jobs log].
    + by exists evs.
    + exists (evs ++ [EvCreate (uuid4 env)]). by rewrite Hl, app_assoc.
  - pose proof (inv_phase _ _ (Hinv i0)) as P. rewrite Ht in P.
    destruct P as ((env & vp & prompt & fmt & ->) & _).
    pose proof (start_cases env i0 vp prompt fmt (world s)) as C. cbn zeta in C.
    unfold advance. cbn [world].
    destruct (jobs (world s) !! i0).
    + destruct C as [(sw & pw & j' & w' & Hr & _ & E)|(req & w' & k & Hr & E)];
        rewrite Hr; destruct E as [_ _ (evs & Hl & _)]; by exists evs.
    + destruct C as (w' & Hr & E). rewrite Hr.
      destruct E as [_ _ (evs & Hl & _)]. by exists evs.
  - pose proof (inv_phase _ _ (Hinv i0)) as P. rewrite Ht in P.
    destruct P as ((env & vp & prompt & fmt & w0 & w1 & Hk) & _).
    pose proof (resume_cases env i0 vp prompt fmt w0 req w1 k rep (world s) Hk) as C.
    unfold advance. cbn [world].
    destruct (jobs (world s) !! i0).
    + destruct C as [(sw & pw & j' & w' & Hr & _ & E)|(e & w' & Hr & _ & E)];
        rewrite Hr; destruct E as [_ _ (evs & Hl & _)]; by exists evs.
    + destruct C as (e & w' & Hr & E). rewrite Hr.
      destruct E as [_ _ (evs & Hl & _)]. by exists evs.
  - unfold sweep.
    destruct (cleanup_old_jobs_spec env (world s)) as (w' & Hr & _ & _ & _ & _ & evs & Hl & _).
    rewrite Hr. by exists evs.
Qed.

Lemma final_history_chain sw pw :
  final_history sw pw ->
  status_chain sw /\ pw `prefix_of` [0; 10; 30; 50; 90; 100].
Proof.
  intros []; (split; [unfold status_chain|]).
  all: try (by eexists).
  all: try (left; by eexists).
  all: right; by eexists.
Qed.

Lemma job_inv_history s i :
  job_inv s i ->
  status_chain (status_writes i (log (world s)))
  /\ progress_writes i (log (world s)) `prefix_of` [0; 10; 30; 50; 90; 100].
Proof.
  intros Hinv. pose proof (inv_phase _ _ Hinv) as P.
  destruct (tasks s !! i) as [[m|req k]|].
  - destruct P as (_ & -> & ->). split; [left|]; by eexists.
  - destruct P as (_ & -> & ->). split; [left|]; by eexists.
  - by apply final_history_chain.
Qed.

(** A completed record has gone through every checkpoint. *)
Lemma job_inv_completed s i j :
  job_inv s i -> jobs (world s) !! i = Some j -> status j = completed ->
  progress_writes i (log (world s)) = [0; 10; 30; 50; 90; 100].
Proof.
  intros Hinv Hj Hst. destruct (inv_record _ _ Hinv j Hj) as (Hl & _ & _).
  rewrite Hst in Hl. pose proof (inv_phase _ _ Hinv) as P.
  destruct (tasks s !! i) as [[m|req k]|].
  - destruct P as (_ & Hs & _). rewrite Hs in Hl. discriminate Hl.
  - destruct P as (_ & Hs & _). rewrite Hs in Hl. discriminate Hl.
  - destruct P; try discriminate Hl. reflexivity.
Qed.

(** ** The sample execution *)

Lemma demo_submitted_tasks :
  tasks demo_submitted !! py "job-1" = Some (Queued demo_pipeline).
Proof.
  unfold demo_submitted, submit.
  destruct (edit_video_cases demo_env (py "make it square") (py "square")
              (Some demo_upload) (mkWorld ∅ ∅ []))
    as [(e & w' & Hr & _)|(fmt & w1 & _ & Hr)].
  - exfalso. revert Hr. vm_compute. discriminate.
  - assert (Hfmt : fmt = py "square").
    { revert Hr. vm_compute. congruence. }
    subst fmt. cbn [world]. rewrite Hr. cbn [tasks spawn foldr].
    apply lookup_insert_eq.
Qed.

Lemma demo_submitted_reachable : reachable demo_submitted.
Proof.
  apply (reach_step (mkSystem (mkWorld ∅ ∅ []) ∅ ∅)); [apply reach_init|].
  apply step_submit. cbn [issued]. apply not_elem_of_empty.
Qed.

Lemma demo_pipeline_awaits :
  exists req w1 k, demo_pipeline (world demo_submitted) = Await req w1 k.
Proof.
  assert (Hj : exists j, jobs (world demo_submitted) !! py "job-1" = Some j).
  { unfold demo_submitted, submit.
    destruct (edit_video_cases demo_env (py "make it square") (py "square")
                (Some demo_upload) (mkWorld ∅ ∅ []))
      as [(e & w' & Hr & _)|(fmt & w1 & _ & Hr)].
    - exfalso. revert Hr. vm_compute. discriminate.
    - cbn [world]. rewrite Hr. cbn [world record set_jobs jobs].
      eexists. apply lookup_insert_eq. }
  destruct Hj as [j Hj].
  destruct (process_video_key demo_env (py "job-1") demo_input
              (sanitized_prompt_of (py "make it square")) (py "square")
              (world demo_submitted) j (py "key") Hj eq_refl) as (k & Hk & _).
  by eexists _, _, k.
Qed.

Lemma demo_reachable : reachable demo_done.
Proof.
  destruct demo_pipeline_awaits as (req & w1 & k & Hk).
  assert (R2 : reachable demo_started).
  { apply (reach_step demo_submitted); [apply demo_submitted_reachable|].
    apply step_start, demo_submitted_tasks. }
  apply (reach_step demo_started); [exact R2|].
  unfold demo_done. rewrite Hk. cbn [run_to_end].
  replace w1 with (world demo_started) by (unfold demo_started; by rewrite Hk).
  apply (step_resume demo_started (py "job-1") req k).
  unfold demo_started. rewrite Hk. cbn [advance settle tasks].
  apply lookup_insert_eq.
Qed.

(** ** One run of the pipeline *)

Lemma after_advisor_is_done env i video_path output_format w :
  is_Await (after_advisor env i video_path output_format w) = false.
Proof. unfold after_advisor. by destruct (jobs w !! i). Qed.

(** The whole run of the pipeline of a record that is in the store. *)
Lemma run_spec env i video_path prompt output_format w rep others j :
  jobs w !! i = Some j ->
  let w1 := resumed_world env i prompt j w others in
  run_to_end (process_video env i video_path prompt output_format w) rep others
  = match advisor_report env i (bool_decide (is_Some (jobs w1 !! i))) rep with
    | Some report =>
        after_advisor env i video_path output_format
          (mkWorld (jobs w1) (files w1) (log w1 ++ report))
    | None =>
        Raise (match rep with Failure e => e | Content _ => CancelledError end)
              (cleanup_input env video_path w1)
    end.
Proof.
  intros Hj w1. subst w1. unfold resumed_world, advisor_report.
  destruct (api_key env) as [key|] eqn:Hkey.
  - destruct (process_video_key env i video_path prompt output_format w j key Hj Hkey)
      as (k & Hk & Hspec).
    rewrite Hk. cbn [run_to_end]. rewrite Hspec. unfold resumed.
    set (w1 := others _).
    destruct rep as [text|e].
    + destruct (jobs w1 !! i) as [j1|] eqn:Hj1.
      * rewrite bool_decide_eq_true_2 by eauto. rewrite app_nil_r. by destruct w1.
      * rewrite bool_decide_eq_false_2 by (intros [? ?]; discriminate). reflexivity.
    + destruct (is_Exception e); reflexivity.
  - rewrite (process_video_no_key env i video_path prompt output_format w j Hj Hkey).
    assert (Hnot : forall r : Run unit, is_Await r = false -> run_to_end r rep others = r)
      by (intros [] H; done).
    rewrite Hnot.
    + reflexivity.
    + apply after_advisor_is_done.
Qed.

Lemma run_evicted env i video_path prompt output_format w rep others :
  jobs w !! i = None ->
  run_to_end (process_video env i video_path prompt output_format w) rep others
  = Raise (KeyError i) (cleanup_input env video_path w).
Proof. intros Hj. by rewrite (process_video_evicted _ _ _ _ _ _ Hj). Qed.

(** The pipeline has at most one [await]. *)
Lemma run_to_end_is_done env i video_path prompt output_format w rep others :
  is_Await (run_to_end (process_video env i video_path prompt output_format w) rep others)
  = false.
Proof.
  destruct (jobs w !! i) as [j|] eqn:Hj.
  - rewrite (run_spec _ _ _ _ _ _ _ _ _ Hj). cbn zeta.
    destruct (advisor_report _ _ _ _); [apply after_advisor_is_done|reflexivity].
  - by rewrite (run_evicted _ _ _ _ _ _ _ _ Hj).
Qed.

Lemma appended_app w w' evs : log w' = log w ++ evs -> appended w w' = evs.
Proof. intros H. unfold appended. rewrite H. apply drop_app_length. Qed.

(** The actions of a run of the pipeline: lines 148-149, the request
    of the advisor when there is a key, and what follows the [await]. *)
Lemma trace_of_run env i video_path prompt output_format w rep others j evs :
  jobs w !! i = Some j ->
  log (world_of (run_to_end (process_video env i video_path prompt output_format w)
                   rep others))
  = log (resumed_world env i prompt j w others) ++ evs ->
  trace_of w (process_video env i video_path prompt output_format w) rep others
  = [EvStatus i processing; EvProgress i 10]
    ++ match api_key env with
       | Some key => [EvRequest (advisor_request env prompt key)]
       | None => []
       end
    ++ evs.
Proof.
  intros Hj. unfold resumed_world. destruct (api_key env) as [key|] eqn:Hkey.
  - destruct (process_video_key env i video_path prompt output_format w j key Hj Hkey)
      as (k & Hk & _).
    rewrite Hk. cbn [run_to_end trace_of]. intros Hl.
    rewrite (appended_app _ _ _ Hl).
    rewrite (appended_app w _ [EvStatus i processing; EvProgress i 10;
                               EvRequest (advisor_request env prompt key)]) by reflexivity.
    reflexivity.
  - rewrite (process_video_no_key env i video_path prompt output_format w j Hj Hkey).
    set (r := after_advisor _ _ _ _ _).
    assert (Hd : is_Await r = false) by apply after_advisor_is_done.
    destruct r as [a w'|e w'|]; try discriminate Hd; cbn [run_to_end trace_of world_of];
      intros Hl; apply appended_app; rewrite Hl; unfold started; cbn [log];
      by rewrite <- !app_assoc.
Qed.

(** The end of a run whose record is in the store when line 154 (or
    158) is reached: [fs] are the files the transcoder leaves. *)
Lemma after_advisor_run env i video_path output_format w j :
  jobs w !! i = Some j ->
  let cmd := transcode_cmd video_path (output_path_of i)
               (dict_get FORMAT_CONFIGS output_format FORMAT_tiktok) in
  let res := ffmpeg_run env cmd (files w) in
  let fs := match ff_written res with
            | Some data => <[output_path_of i := data]> (files w)
            | None => files w
            end in
  let e := ending i (ff_exit res) fs j in
  exists w' cl,
    after_advisor env i video_path output_format w = Return tt w'
    /\ jobs w' = <[i := e.1]> (jobs w)
    /\ (files w' = fs \/ files w' = delete video_path fs)
    /\ (cl = [] \/ cl = [EvFs (FsRemove video_path)])
    /\ log w' = log w ++ [EvProgress i 30; EvProgress i 50; EvFfmpeg cmd] ++ e.2 ++ cl.
Proof.
  intros Hj cmd res fs e. unfold after_advisor. rewrite Hj. fold cmd res fs e.
  eexists _, (cleanup_events video_path (mkWorld (<[i := e.1]> (jobs w)) fs [])).
  split; [reflexivity|]. rewrite jobs_cleanup, log_cleanup. cbn [jobs log].
  split; [reflexivity|]. split; [|split].
  - unfold cleanup_input. cbn [files]. destruct (fs !! video_path); [|by left].
    destruct (fs_error env _); cbn [files record set_files]; [by left|by right].
  - unfold cleanup_events. cbn [files]. destruct (fs !! video_path); [by right|by left].
  - unfold cleanup_events. cbn [files]. by rewrite <- !app_assoc.
Qed.

Lemma ending_completed_inv i exit fs j :
  status (ending i exit fs j).1 = completed -> status j <> completed ->
  exit = FfOk /\ is_Some (fs !! output_path_of i)
  /\ ending i exit fs j
     = (with_output_url (py "/api/download/" ++ i)
          (with_progress 100 (with_status completed j)),
        [EvProgress i 90; EvStatus i completed; EvProgress i 100;
         EvOutputUrl i (py "/api/download/" ++ i)]).
Proof.
  unfold ending. destruct exit as [|stderr|msg]; cbn; try discriminate.
  destruct (bool_decide (is_Some (fs !! output_path_of i))) eqn:Hb; cbn; try discriminate.
  intros _ _. apply bool_decide_eq_true in Hb. done.
Qed.

(** * The claims *)

Example demo_history :
  status_writes (py "job-1") (log (world demo_done)) = [pending; processing; completed]
  /\ progress_writes (py "job-1") (log (world demo_done)) = [0; 10; 30; 50; 90; 100].
Proof. vm_compute. split; reflexivity. Qed.

(** C1. The status of a job only moves forward along pending ->
    processing -> (completed or failed).  In every state of the
    process and for every job identifier, the values written to the
    status field so far, oldest first and starting with the [pending]
    of the creation, are an initial part of [pending; processing;
    completed] or of [pending; processing; failed]: no write goes
    back, repeats a value or leaves the chain.  The record in the
    store holds the value written last, and a step of the process only
    appends to the history. *)
Theorem status_only_moves_forward (s : System) (job_id : str) :
  reachable s ->
  status_chain (status_writes job_id (log (world s)))
  /\ (forall j, jobs (world s) !! job_id = Some j ->
        last (status_writes job_id (log (world s))) = Some (status j))
  /\ (forall s', step s s' ->
        status_writes job_id (log (world s))
          `prefix_of` status_writes job_id (log (world s'))).
Proof.
  intros Hr. pose proof (reachable_inv s Hr) as Hinv.
  split; [apply (job_inv_history s job_id (Hinv job_id))|]. split.
  - intros j Hj. apply (inv_record _ _ (Hinv job_id) j Hj).
  - intros s' Hstep. destruct (step_log s s' Hinv Hstep) as [evs Hl].
    rewrite Hl, status_writes_app. by eexists.
Qed.

Lemma status_only_moves_forward_witness :
  status_chain (status_writes (py "job-1") (log (world demo_done)))
  /\ (forall j, jobs (world demo_done) !! py "job-1" = Some j ->
        last (status_writes (py "job-1") (log (world demo_done))) = Some (status j))
  /\ (forall s', step demo_done s' ->
        status_writes (py "job-1") (log (world demo_done))
          `prefix_of` status_writes (py "job-1") (log (world s'))).
Proof. exact (status_only_moves_forward demo_done (py "job-1") demo_reachable). Defined.

(** C3. In every state of the process, every record of the store
    holds what its status allows: a completed record has an output
    handle and no error text, a failed record has an error text of at
    most 500 characters and no output handle, and a pending or
    processing record has neither.  The pipeline writes the status one
    or two statements before the output handle (lines 202-204) or the
    error text (lines 207-208); no [await] separates these writes, so
    they belong to one step and no reader sees the store in between. *)
Theorem record_fields_follow_status (s : System) (job_id : str) (j : Job) :
  reachable s ->
  jobs (world s) !! job_id = Some j ->
  match status j with
  | completed => is_Some (output_url j) /\ error j = None
  | failed =>
      output_url j = None
      /\ exists msg, error j = Some msg /\ (length msg <= 500)%nat
  | pending | processing => output_url j = None /\ error j = None
  end.
Proof.
  intros Hr Hj. destruct (inv_record _ _ (reachable_inv s Hr job_id) j Hj) as (_ & _ & Hok).
  unfold record_ok in Hok. by destruct (status j).
Qed.

Lemma demo_record :
  exists url,
    jobs (world demo_done) !! py "job-1"
    = Some (mkJob (py "job-1") completed 100 (Some url) None 5000%float).
Proof. eexists. vm_compute. reflexivity. Qed.

Lemma record_fields_follow_status_witness :
  is_Some (output_url (mkJob (py "job-1") completed 100
                         (Some (py "/api/download/" ++ py "job-1")) None 5000%float))
  /\ error (mkJob (py "job-1") completed 100
              (Some (py "/api/download/" ++ py "job-1")) None 5000%float) = None.
Proof.
  apply (record_fields_follow_status demo_done (py "job-1")
           (mkJob (py "job-1") completed 100
              (Some (py "/api/download/" ++ py "job-1")) None 5000%float)
           demo_reachable).
  vm_compute. reflexivity.
Defined.

(** The order of the checkpoints in a run that completes its job. *)
Lemma completed_run_trace env i video_path prompt output_format w rep others j j' :
  jobs w !! i = Some j -> status j = pending ->
  (forall w1, jobs (others w1) !! i = jobs w1 !! i) ->
  let r0 := process_video env i video_path prompt output_format w in
  jobs (world_of (run_to_end r0 rep others)) !! i = Some j' ->
  status j' = completed ->
  exists lookup cl,
    trace_of w r0 rep others
    = [EvStatus i processing; EvProgress i 10]
      ++ lookup
      ++ [EvProgress i 30; EvProgress i 50;
          EvFfmpeg (transcode_cmd video_path (output_path_of i)
                      (dict_get FORMAT_CONFIGS output_format FORMAT_tiktok));
          EvProgress i 90; EvStatus i completed; EvProgress i 100;
          EvOutputUrl i (py "/api/download/" ++ i)]
      ++ cl
    /\ Forall (fun ev => (exists req, ev = EvRequest req) \/ (exists msg, ev = EvPrint msg))
         lookup
    /\ (cl = [] \/ cl = [EvFs (FsRemove video_path)]).
Proof.
  intros Hj Hst Hothers r0 Hj' Hst'. subst r0.
  assert (Hj1 : jobs (resumed_world env i prompt j w others) !! i
                = Some (with_progress 10 (with_status processing j))).
  { unfold resumed_world. destruct (api_key env); [rewrite Hothers|];
      unfold started; cbn [jobs]; apply lookup_insert_eq. }
  pose proof (run_spec env i video_path prompt output_format w rep others j Hj) as Hrun.
  cbn zeta in Hrun. rewrite Hj1 in Hrun.
  rewrite bool_decide_eq_true_2 in Hrun by eauto.
  destruct (advisor_report env i true rep) as [report|] eqn:Hrep.
  - set (w2 := mkWorld _ _ _) in Hrun.
    pose proof (after_advisor_run env i video_path output_format w2 _ Hj1) as Hrun2.
    cbn zeta in Hrun2. set (en := ending _ _ _ _) in Hrun2.
    destruct Hrun2 as (w' & cl & Hr & Hjobs & _ & Hcl & Hlog).
    rewrite Hr in Hrun. rewrite Hrun in Hj'. cbn [world_of] in Hj'.
    rewrite Hjobs, lookup_insert_eq in Hj'.
    assert (j' = en.1) by congruence. subst j'.
    destruct (ending_completed_inv _ _ _ _ Hst') as (_ & _ & He); [discriminate|].
    unfold en in Hlog. rewrite He in Hlog. cbn [snd] in Hlog.
    exists (match api_key env with
            | Some key => [EvRequest (advisor_request env prompt key)]
            | None => []
            end ++ report), cl.
    split; [|split; [|exact Hcl]].
    + erewrite trace_of_run; [|exact Hj|].
      2:{ rewrite Hrun. cbn [world_of]. rewrite Hlog. subst w2. cbn [log].
          rewrite <- app_assoc. reflexivity. }
      by rewrite <- !app_assoc.
    + apply Forall_app. split.
      * destruct (api_key env); [|constructor]. constructor; [|constructor]. left. by eexists.
      * unfold advisor_report in Hrep. destruct (api_key env).
        -- destruct rep as [text|e]; [injection Hrep as <-; constructor|].
           destruct (is_Exception e); [|discriminate Hrep]. injection Hrep as <-.
           constructor; [|constructor]. right. by eexists.
        -- injection Hrep as <-. constructor; [|constructor]. right. by eexists.
  - rewrite Hrun in Hj'. cbn [world_of] in Hj'. rewrite jobs_cleanup, Hj1 in Hj'.
    injection Hj' as <-. discriminate Hst'.
Qed.

(** C2. The progress of a job never decreases.  In every state of the
    process and for every job identifier, the values written to the
    progress field so far, oldest first and starting with the 0 of the
    creation, are an initial part of [0; 10; 30; 50; 90; 100]; the
    record holds the value written last, a completed record has gone
    through all the checkpoints, and a step of the process only appends
    to the history.  A run of the pipeline that completes its job does,
    in this order: status processing, progress 10, the attempt to
    consult the advisor (a request, or a printed failure, or both),
    progress 30, progress 50, the transcode, progress 90, status
    completed, progress 100, the output handle. *)
Theorem progress_checkpoints (s : System) (job_id : str) :
  reachable s ->
  progress_writes job_id (log (world s)) `prefix_of` [0; 10; 30; 50; 90; 100]
  /\ (forall j, jobs (world s) !! job_id = Some j ->
        last (progress_writes job_id (log (world s))) = Some (progress j)
        /\ (status j = completed ->
            progress_writes job_id (log (world s)) = [0; 10; 30; 50; 90; 100]))
  /\ (forall s', step s s' ->
        progress_writes job_id (log (world s))
          `prefix_of` progress_writes job_id (log (world s')))
  /\ (forall env video_path prompt output_format rep others j j',
        jobs (world s) !! job_id = Some j -> status j = pending ->
        (forall w1, jobs (others w1) !! job_id = jobs w1 !! job_id) ->
        let r0 := process_video env job_id video_path prompt output_format (world s) in
        jobs (world_of (run_to_end r0 rep others)) !! job_id = Some j' ->
        status j' = completed ->
        exists lookup cl,
          trace_of (world s) r0 rep others
          = [EvStatus job_id processing; EvProgress job_id 10]
            ++ lookup
            ++ [EvProgress job_id 30; EvProgress job_id 50;
                EvFfmpeg (transcode_cmd video_path (output_path_of job_id)
                            (dict_get FORMAT_CONFIGS output_format FORMAT_tiktok));
                EvProgress job_id 90; EvStatus job_id completed; EvProgress job_id 100;
                EvOutputUrl job_id (py "/api/download/" ++ job_id)]
            ++ cl
          /\ Forall (fun ev => (exists req, ev = EvRequest req)
                               \/ (exists msg, ev = EvPrint msg)) lookup
          /\ (cl = [] \/ cl = [EvFs (FsRemove video_path)])).
Proof.
  intros Hr. pose proof (reachable_inv s Hr) as Hinv.
  split; [apply (job_inv_history s job_id (Hinv job_id))|]. split; [|split].
  - intros j Hj. split; [apply (inv_record _ _ (Hinv job_id) j Hj)|].
    by apply job_inv_completed.
  - intros s' Hstep. destruct (step_log s s' Hinv Hstep) as [evs Hl].
    rewrite Hl, progress_writes_app. by eexists.
  - intros env video_path prompt output_format rep others j j' Hj Hst Ho r0 Hj' Hst'.
    exact (completed_run_trace env job_id video_path prompt output_format (world s)
             rep others j j' Hj Hst Ho Hj' Hst').
Qed.

Lemma progress_checkpoints_witness :
  progress_writes (py "job-1") (log (world demo_submitted))
    `prefix_of` [0; 10; 30; 50; 90; 100]
  /\ exists lookup cl,
       trace_of (world demo_submitted) (demo_pipeline (world demo_submitted))
         (Content (py "{}")) (fun w => w)
       = [EvStatus (py "job-1") processing; EvProgress (py "job-1") 10]
         ++ lookup
         ++ [EvProgress (py "job-1") 30; EvProgress (py "job-1") 50;
             EvFfmpeg (transcode_cmd demo_input (output_path_of (py "job-1"))
                         (dict_get FORMAT_CONFIGS (py "square") FORMAT_tiktok));
             EvProgress (py "job-1") 90; EvStatus (py "job-1") completed;
             EvProgress (py "job-1") 100;
             EvOutputUrl (py "job-1") (py "/api/download/" ++ py "job-1")]
         ++ cl
       /\ Forall (fun ev => (exists req, ev = EvRequest req)
                            \/ (exists msg, ev = EvPrint msg)) lookup
       /\ (cl = [] \/ cl = [EvFs (FsRemove demo_input)]).
Proof.
  destruct (progress_checkpoints demo_submitted (py "job-1") demo_submitted_reachable)
    as (H1 & _ & _ & H4).
  split; [exact H1|].
  apply (H4 demo_env demo_input (sanitized_prompt_of (py "make it square")) (py "square")
            (Content (py "{}")) (fun w => w)
            (mkJob (py "job-1") pending 0 None None 5000%float)
            (mkJob (py "job-1") completed 100
               (Some (py "/api/download/" ++ py "job-1")) None 5000%float)).
  - vm_compute. reflexivity.
  - reflexivity.
  - reflexivity.
  - vm_compute. reflexivity.
  - reflexivity.
Defined.

(** C10. The text the advisor answers with is discarded: two runs of
    the pipeline from the same world, with the same environment and
    the same interleaving of the other coroutines, in which the advisor
    succeeds with different texts, end in the same way and in the same
    world (the same store, the same files, the same actions, among
    them the same transcode command). *)
Theorem advisor_text_is_discarded (env : Env)
    (job_id video_path prompt output_format : str) (w : World)
    (others : World -> World) (text1 text2 : str) :
  run_to_end (process_video env job_id video_path prompt output_format w)
    (Content text1) others
  = run_to_end (process_video env job_id video_path prompt output_format w)
      (Content text2) others.
Proof.
  destruct (jobs w !! job_id) as [j|] eqn:Hj.
  - rewrite !(run_spec _ _ _ _ _ _ _ _ _ Hj). cbn zeta.
    unfold advisor_report. destruct (api_key env); reflexivity.
  - by rewrite !(run_evicted _ _ _ _ _ _ _ _ Hj).
Qed.

Lemma files_cleanup_ok env video_path w :
  fs_error env (FsRemove video_path) = None ->
  files (cleanup_input env video_path w) !! video_path = None.
Proof.
  intros H. unfold cleanup_input. destruct (files w !! video_path) eqn:Hf; [|exact Hf].
  rewrite H. cbn [files set_files record]. apply lookup_delete_eq.
Qed.

Lemma cleanup_attempted env video_path w :
  files (cleanup_input env video_path w) !! video_path = None
  \/ last (log (cleanup_input env video_path w)) = Some (EvFs (FsRemove video_path)).
Proof.
  unfold cleanup_input. destruct (files w !! video_path) eqn:Hf; [|by left].
  right. destruct (fs_error env _); cbn [log record set_files]; apply last_snoc.
Qed.

(** Every run of the pipeline ends in the world the [finally] block leaves. *)
Lemma run_ends_with_cleanup env i video_path prompt output_format w rep others :
  exists w0,
    world_of (run_to_end (process_video env i video_path prompt output_format w) rep others)
    = cleanup_input env video_path w0.
Proof.
  destruct (jobs w !! i) as [j|] eqn:Hj.
  - rewrite (run_spec _ _ _ _ _ _ _ _ _ Hj). cbn zeta.
    destruct (advisor_report _ _ _ _); [|by eexists].
    unfold after_advisor.
    match goal with |- context [match ?x with Some _ => _ | None => _ end] => destruct x end;
      by eexists.
  - rewrite (run_evicted _ _ _ _ _ _ _ _ Hj). by eexists.
Qed.

(** The outcome of [os.remove] on the input changes nothing but the files. *)
Lemma run_indifferent_to_remove env i video_path prompt output_format w rep others outcome :
  let run env :=
    run_to_end (process_video env i video_path prompt output_format w) rep others in
  let env' := with_fs_error (FsRemove video_path) outcome env in
  raised (run env') = raised (run env)
  /\ jobs (world_of (run env')) = jobs (world_of (run env))
  /\ log (world_of (run env')) = log (world_of (run env)).
Proof.
  intros run env'. subst run. cbn beta.
  destruct (jobs w !! i) as [j|] eqn:Hj.
  - rewrite !(run_spec _ _ _ _ _ _ _ _ _ Hj). cbn zeta.
    change (resumed_world env' i prompt j w others)
      with (resumed_world env i prompt j w others).
    change (advisor_report env' i) with (advisor_report env i).
    destruct (advisor_report env i _ rep) as [report|].
    + unfold after_advisor.
      match goal with |- context [match ?x with Some _ => _ | None => _ end] => destruct x end;
        cbn [raised world_of]; rewrite !jobs_cleanup, !log_cleanup; done.
    + cbn [raised world_of]. rewrite !jobs_cleanup, !log_cleanup. done.
  - rewrite !(run_evicted _ _ _ _ _ _ _ _ Hj). cbn [raised world_of].
    rewrite !jobs_cleanup, !log_cleanup. done.
Qed.

(** C9. On every exit path of the pipeline the deletion of the input
    file is attempted, and a failure of the deletion changes nothing of
    what the job records.  Whatever the advisor replies (a text, an
    error, a cancellation) and whatever the other coroutines do at the
    [await] (evicting the record included), the run ends; when it ends
    the input file is gone or the last action of the run is the
    [os.remove] of it; the file is gone whenever that call does not
    fail; and replacing the outcome of that call (failing or not)
    changes neither the exception the run ends with, nor the store, nor
    the actions performed. *)
Theorem input_cleanup_on_every_exit (env : Env)
    (job_id video_path prompt output_format : str) (w : World)
    (rep : Reply) (others : World -> World) :
  let run env :=
    run_to_end (process_video env job_id video_path prompt output_format w) rep others in
  is_Await (run env) = false
  /\ (files (world_of (run env)) !! video_path = None
      \/ last (log (world_of (run env))) = Some (EvFs (FsRemove video_path)))
  /\ (fs_error env (FsRemove video_path) = None ->
      files (world_of (run env)) !! video_path = None)
  /\ forall outcome,
       let env' := with_fs_error (FsRemove video_path) outcome env in
       raised (run env') = raised (run env)
       /\ jobs (world_of (run env')) = jobs (world_of (run env))
       /\ log (world_of (run env')) = log (world_of (run env)).
Proof.
  intros run. subst run. cbn beta.
  split; [apply run_to_end_is_done|].
  destruct (run_ends_with_cleanup env job_id video_path prompt output_format w rep others)
    as [w0 Hw0].
  split; [rewrite Hw0; apply cleanup_attempted|].
  split; [intros H; rewrite Hw0; by apply files_cleanup_ok|].
  intros outcome. apply run_indifferent_to_remove.
Qed.

(** ** The advisor stage and the transcode stage *)

(** Lines 160-208 do not read the log. *)
Lemma after_advisor_same env i video_path output_format (w w' : World) :
  jobs w = jobs w' -> files w = files w' ->
  exists evs,
    raised (after_advisor env i video_path output_format w)
    = raised (after_advisor env i video_path output_format w')
    /\ jobs (world_of (after_advisor env i video_path output_format w))
       = jobs (world_of (after_advisor env i video_path output_format w'))
    /\ files (world_of (after_advisor env i video_path output_format w))
       = files (world_of (after_advisor env i video_path output_format w'))
    /\ log (world_of (after_advisor env i video_path output_format w)) = log w ++ evs
    /\ log (world_of (after_advisor env i video_path output_format w')) = log w' ++ evs.
Proof.
  destruct w as [js fs l], w' as [js' fs' l']. cbn [jobs files]. intros <- <-.
  unfold after_advisor. cbn [jobs files log]. destruct (js !! i) as [j|].
  - set (cmd := transcode_cmd _ _ _). set (res := ffmpeg_run env cmd fs).
    set (fs2 := match ff_written res with Some _ => _ | None => _ end).
    set (e := ending i (ff_exit res) fs2 j).
    exists ([EvProgress i 30; EvProgress i 50; EvFfmpeg cmd] ++ e.2
            ++ cleanup_events video_path (mkWorld ∅ fs2 [])).
    cbn [raised world_of]. rewrite !jobs_cleanup, !log_cleanup. cbn [jobs log].
    split; [done|]. split; [done|]. split.
    { unfold cleanup_input. cbn [files]. destruct (fs2 !! video_path); [|done].
      by destruct (fs_error env _). }
    unfold cleanup_events. cbn [files]. rewrite <- !app_assoc.
    split; done.
  - exists (cleanup_events video_path (mkWorld ∅ fs [])).
    cbn [raised world_of]. rewrite !jobs_cleanup, !log_cleanup. cbn [jobs log].
    split; [done|]. split; [done|]. split.
    { unfold cleanup_input. cbn [files]. destruct (fs !! video_path); [|done].
      by destruct (fs_error env _). }
    unfold cleanup_events. cbn [files].
    split; done.
Qed.

Lemma advisor_report_silent env i present rep report k :
  advisor_report env i present rep = Some report ->
  status_writes k report = [] /\ progress_writes k report = [].
Proof.
  unfold advisor_report. destruct (api_key env).
  - destruct rep as [text|e].
    + intros [= <-]. by destruct present.
    + destruct (is_Exception e); [|discriminate]. by intros [= <-].
  - by intros [= <-].
Qed.

Lemma advisor_report_Exception env i present e :
  is_Exception e = true -> is_Some (advisor_report env i present (Failure e)).
Proof. intros He. unfold advisor_report. rewrite He. destruct (api_key env); eauto. Qed.

Lemma advisor_report_Content env i present text :
  is_Some (advisor_report env i present (Content text)).
Proof. unfold advisor_report. destruct (api_key env); eauto. Qed.

(** A run whose record is in the store at the start, up to what
    follows the advisor stage. *)
Lemma run_after_report env i video_path prompt output_format w rep others j report :
  jobs w !! i = Some j ->
  let w1 := resumed_world env i prompt j w others in
  advisor_report env i (bool_decide (is_Some (jobs w1 !! i))) rep = Some report ->
  let r0 := process_video env i video_path prompt output_format w in
  let w2 := mkWorld (jobs w1) (files w1) (log w1 ++ report) in
  run_to_end r0 rep others = after_advisor env i video_path output_format w2
  /\ forall evs,
       log (world_of (after_advisor env i video_path output_format w2)) = log w2 ++ evs ->
       trace_of w r0 rep others
       = [EvStatus i processing; EvProgress i 10]
         ++ match api_key env with
            | Some key => [EvRequest (advisor_request env prompt key)]
            | None => []
            end
         ++ report ++ evs.
Proof.
  intros Hj w1 Hrep r0 w2.
  pose proof (run_spec env i video_path prompt output_format w rep others j Hj) as Hrun.
  cbn zeta in Hrun. fold w1 in Hrun. rewrite Hrep in Hrun. fold w2 r0 in Hrun.
  split; [exact Hrun|]. intros evs Hl.
  apply (trace_of_run env i video_path prompt output_format w rep others j (report ++ evs) Hj).
  fold r0 w1. rewrite Hrun, Hl. subst w2. cbn [log]. by rewrite <- app_assoc.
Qed.

(** A failure of the advisor leaves the run where a success leaves it. *)
Lemma advisor_failure_same_outcome env i video_path prompt output_format w others e text :
  is_Exception e = true ->
  let r0 := process_video env i video_path prompt output_format w in
  let rF := run_to_end r0 (Failure e) others in
  let rC := run_to_end r0 (Content text) others in
  raised rF = raised rC
  /\ jobs (world_of rF) = jobs (world_of rC)
  /\ files (world_of rF) = files (world_of rC)
  /\ status_writes i (trace_of w r0 (Failure e) others)
     = status_writes i (trace_of w r0 (Content text) others)
  /\ progress_writes i (trace_of w r0 (Failure e) others)
     = progress_writes i (trace_of w r0 (Content text) others).
Proof.
  intros He r0 rF rC. subst rF rC r0.
  destruct (jobs w !! i) as [j|] eqn:Hj.
  - set (w1 := resumed_world env i prompt j w others).
    destruct (advisor_report_Exception env i (bool_decide (is_Some (jobs w1 !! i))) e He)
      as [repF HF].
    destruct (advisor_report_Content env i (bool_decide (is_Some (jobs w1 !! i))) text)
      as [repC HC].
    destruct (run_after_report env i video_path prompt output_format w (Failure e) others
                j repF Hj HF) as [HrunF HtrF].
    destruct (run_after_report env i video_path prompt output_format w (Content text) others
                j repC Hj HC) as [HrunC HtrC].
    fold w1 in HrunF, HtrF, HrunC, HtrC.
    destruct (after_advisor_same env i video_path output_format
                (mkWorld (jobs w1) (files w1) (log w1 ++ repF))
                (mkWorld (jobs w1) (files w1) (log w1 ++ repC)) eq_refl eq_refl)
      as (evs & Hr & Hjs & Hfs & HlF & HlC).
    rewrite HrunF, HrunC, (HtrF evs HlF), (HtrC evs HlC).
    split; [exact Hr|]. split; [exact Hjs|]. split; [exact Hfs|].
    destruct (advisor_report_silent _ _ _ _ _ i HF) as [a b].
    destruct (advisor_report_silent _ _ _ _ _ i HC) as [c d].
    rewrite !status_writes_app, !progress_writes_app, a, b, c, d. done.
  - rewrite !(run_evicted _ _ _ _ _ _ _ _ Hj).
    rewrite (process_video_evicted _ _ _ _ _ _ Hj). done.
Qed.

(** C4. A failure of the instruction lookup is absorbed.  When the
    advisor raises an error (any [Exception]: a network error, a
    timeout, a malformed answer, a missing key), the record of the job
    is still in the store when the pipeline goes on, and the transcoder
    then succeeds and writes its output, the run returns normally with
    the job completed at progress 100; the run writes the progress
    values 10, 30, 50, 90, 100 in this order and the statuses
    processing, completed, and it invokes the transcoder.  Moreover the
    run ends exactly as it would have with a successful answer of the
    advisor: the same exception or none, the same store, the same
    files. *)
Theorem advisor_failure_is_absorbed (env : Env)
    (job_id video_path prompt output_format : str) (w : World)
    (others : World -> World) (e : Exn) (j : Job) (data : bytes) :
  is_Exception e = true ->
  jobs w !! job_id = Some j ->
  let w1 := resumed_world env job_id prompt j w others in
  let cmd := transcode_cmd video_path (output_path_of job_id)
               (dict_get FORMAT_CONFIGS output_format FORMAT_tiktok) in
  is_Some (jobs w1 !! job_id) ->
  ffmpeg_run env cmd (files w1) = mkFfmpegResult FfOk (Some data) ->
  let r0 := process_video env job_id video_path prompt output_format w in
  let r := run_to_end r0 (Failure e) others in
  raised r = None
  /\ (exists j', jobs (world_of r) !! job_id = Some j'
                 /\ status j' = completed /\ progress j' = 100)
  /\ status_writes job_id (trace_of w r0 (Failure e) others) = [processing; completed]
  /\ progress_writes job_id (trace_of w r0 (Failure e) others) = [10; 30; 50; 90; 100]
  /\ EvFfmpeg cmd ∈ trace_of w r0 (Failure e) others
  /\ forall text,
       raised (run_to_end r0 (Content text) others) = raised r
       /\ jobs (world_of (run_to_end r0 (Content text) others)) = jobs (world_of r)
       /\ files (world_of (run_to_end r0 (Content text) others)) = files (world_of r).
Proof.
  intros He Hj w1 cmd [j1 Hj1] Hff r0 r. subst r r0.
  destruct (advisor_report_Exception env job_id (bool_decide (is_Some (jobs w1 !! job_id))) e He)
    as [report Hrep].
  destruct (run_after_report env job_id video_path prompt output_format w (Failure e) others
              j report Hj Hrep) as [Hrun Htr].
  fold w1 in Hrun, Htr. set (w2 := mkWorld _ _ _) in Hrun, Htr.
  pose proof (after_advisor_run env job_id video_path output_format w2 j1 Hj1) as Hend.
  cbn zeta in Hend. change (files w2) with (files w1) in Hend. fold cmd in Hend.
  rewrite Hff in Hend. cbn [ff_exit ff_written] in Hend.
  unfold ending in Hend.
  rewrite bool_decide_eq_true_2 in Hend by (rewrite lookup_insert_eq; eauto).
  cbn [fst snd] in Hend.
  destruct Hend as (w' & cl & Hr & Hjobs & _ & Hcl & Hlog).
  rewrite Hr in Htr. cbn [world_of] in Htr. specialize (Htr _ Hlog).
  destruct (advisor_report_silent _ _ _ _ _ job_id Hrep) as [a b].
  assert (Hclw : status_writes job_id cl = [] /\ progress_writes job_id cl = [])
    by (destruct Hcl as [-> | ->]; done).
  destruct Hclw as [c d].
  rewrite Hrun, Hr, Htr. cbn [raised world_of].
  split; [done|]. split; [|split; [|split; [|split]]].
  - eexists. split; [rewrite Hjobs; apply lookup_insert_eq|]. done.
  - rewrite !status_writes_app, a, c.
    destruct (api_key env); proj_simpl; reflexivity.
  - rewrite !progress_writes_app, b, d.
    destruct (api_key env); proj_simpl; reflexivity.
  - rewrite !elem_of_app. right. right. right. left. set_solver.
  - intros text.
    destruct (advisor_failure_same_outcome env job_id video_path prompt output_format
                w others e text He) as (H1 & H2 & H3 & _).
    cbn zeta in H1, H2, H3. rewrite Hrun, Hr in H1, H2, H3. done.
Qed.

Lemma advisor_failure_is_absorbed_witness :
  let r0 := demo_pipeline (world demo_submitted) in
  let timeout := Failure (OtherException (py "timed out")) in
  is_Exception (OtherException (py "timed out")) = true
  /\ raised (run_to_end r0 timeout (fun w => w)) = None
  /\ status_writes (py "job-1") (trace_of (world demo_submitted) r0 timeout (fun w => w))
     = [processing; completed]
  /\ progress_writes (py "job-1") (trace_of (world demo_submitted) r0 timeout (fun w => w))
     = [10; 30; 50; 90; 100].
Proof.
  cbn zeta. split; [reflexivity|].
  destruct (advisor_failure_is_absorbed demo_env (py "job-1") demo_input
              (sanitized_prompt_of (py "make it square")) (py "square")
              (world demo_submitted) (fun w => w) (OtherException (py "timed out"))
              (mkJob (py "job-1") pending 0 None None 5000%float) [x2a])
    as (H1 & _ & H3 & H4 & _).
  - reflexivity.
  - vm_compute. reflexivity.
  - eexists. vm_compute. reflexivity.
  - reflexivity.
  - split; [exact H1|]. split; [exact H3|exact H4].
Defined.

Lemma ending_failed i exit fs j :
  exit <> FfOk \/ fs !! output_path_of i = None ->
  let text := match exit with
              | FfOk => py "Output file was not created"
              | FfFails stderr => py "FFmpeg processing failed: " ++ stderr
              | FfCannotRun msg => msg
              end in
  status (ending i exit fs j).1 = failed
  /\ error (ending i exit fs j).1 = Some (take 500 text)
  /\ status_writes i (ending i exit fs j).2 = [failed].
Proof.
  intros H text. subst text. unfold ending. destruct exit as [|stderr|msg].
  - destruct H as [H|H]; [done|]. rewrite H.
    rewrite bool_decide_eq_false_2 by (intros [? ?]; discriminate).
    cbn [fst snd]. proj_simpl. done.
  - cbn [fst snd]. proj_simpl. done.
  - cbn [fst snd]. proj_simpl. done.
Qed.

(** C5. A failure of the transcode stage fails the job.  When the
    record of the job is in the store as the pipeline goes on after the
    advisor stage, and the transcoder exits with an error, cannot be
    run, or reports success while no file exists at the output path,
    the run returns normally with the job failed; the error summary is
    the text of the caught error cut to 500 characters; and the only
    statuses the run writes are processing and failed. *)
Theorem transcode_failure_fails_job (env : Env)
    (job_id video_path prompt output_format : str) (w : World)
    (rep : Reply) (others : World -> World) (j : Job) :
  jobs w !! job_id = Some j ->
  (forall e, rep = Failure e -> is_Exception e = true) ->
  let w1 := resumed_world env job_id prompt j w others in
  let cmd := transcode_cmd video_path (output_path_of job_id)
               (dict_get FORMAT_CONFIGS output_format FORMAT_tiktok) in
  let res := ffmpeg_run env cmd (files w1) in
  is_Some (jobs w1 !! job_id) ->
  (ff_exit res <> FfOk
   \/ (ff_written res = None /\ files w1 !! output_path_of job_id = None)) ->
  let r0 := process_video env job_id video_path prompt output_format w in
  let r := run_to_end r0 rep others in
  let text := match ff_exit res with
              | FfOk => py "Output file was not created"
              | FfFails stderr => py "FFmpeg processing failed: " ++ stderr
              | FfCannotRun msg => msg
              end in
  raised r = None
  /\ (exists j', jobs (world_of r) !! job_id = Some j'
                 /\ status j' = failed
                 /\ error j' = Some (take 500 text)
                 /\ (length (take 500 text) <= 500)%nat)
  /\ status_writes job_id (trace_of w r0 rep others) = [processing; failed].
Proof.
  intros Hj Hrep0 w1 cmd res [j1 Hj1] Hfail r0 r text. subst r r0.
  assert (Hrep : is_Some (advisor_report env job_id
                            (bool_decide (is_Some (jobs w1 !! job_id))) rep)).
  { destruct rep as [t|e]; [apply advisor_report_Content|].
    apply advisor_report_Exception. by apply Hrep0. }
  destruct Hrep as [report Hrep].
  destruct (run_after_report env job_id video_path prompt output_format w rep others
              j report Hj Hrep) as [Hrun Htr].
  fold w1 in Hrun, Htr. set (w2 := mkWorld _ _ _) in Hrun, Htr.
  pose proof (after_advisor_run env job_id video_path output_format w2 j1 Hj1) as Hend.
  cbn zeta in Hend. change (files w2) with (files w1) in Hend. fold cmd res in Hend.
  set (fs := match ff_written res with Some _ => _ | None => _ end) in Hend.
  assert (Hf : ff_exit res <> FfOk \/ fs !! output_path_of job_id = None).
  { destruct Hfail as [H|[H1 H2]]; [by left|]. right. subst fs. by rewrite H1. }
  destruct (ending_failed job_id (ff_exit res) fs j1 Hf) as (Hst & Herr & Hsw).
  fold text in Herr.
  destruct Hend as (w' & cl & Hr & Hjobs & _ & Hcl & Hlog).
  rewrite Hr in Htr. cbn [world_of] in Htr. specialize (Htr _ Hlog).
  destruct (advisor_report_silent _ _ _ _ _ job_id Hrep) as [a _].
  assert (c : status_writes job_id cl = []) by (destruct Hcl as [-> | ->]; done).
  rewrite Hrun, Hr, Htr. cbn [raised world_of].
  split; [done|]. split.
  - eexists. split; [rewrite Hjobs; apply lookup_insert_eq|].
    split; [exact Hst|]. split; [exact Herr|]. rewrite length_take. lia.
  - rewrite !status_writes_app, a, c, Hsw.
    destruct (api_key env); proj_simpl; reflexivity.
Qed.

Lemma transcode_failure_fails_job_witness :
  let r0 := process_video failing_env (py "job-1") demo_input (py "p") (py "square")
              (world demo_submitted) in
  let r := run_to_end r0 (Content (py "{}")) (fun w => w) in
  raised r = None
  /\ (exists j', jobs (world_of r) !! py "job-1" = Some j'
                 /\ status j' = failed
                 /\ error j' = Some (take 500 (py "FFmpeg processing failed: "
                                               ++ py "b'Invalid data'"))
                 /\ (length (take 500 (py "FFmpeg processing failed: "
                                       ++ py "b'Invalid data'")) <= 500)%nat)
  /\ status_writes (py "job-1")
       (trace_of (world demo_submitted) r0 (Content (py "{}")) (fun w => w))
     = [processing; failed].
Proof.
  apply (transcode_failure_fails_job failing_env (py "job-1") demo_input (py "p")
           (py "square") (world demo_submitted) (Content (py "{}")) (fun w => w)
           (mkJob (py "job-1") pending 0 None None 5000%float)).
  - vm_compute. reflexivity.
  - intros e H. discriminate H.
  - eexists. vm_compute. reflexivity.
  - left. cbn. discriminate.
Defined.

(** ** The retention sweep *)

(** The sweep removes the record of an expired job although the
    deletion of its output has failed: after it the record is gone and
    the file is still on disk. *)
Lemma sweep_drops_record_when_unlink_fails :
  let w' := world_of (cleanup_old_jobs locked_env stale_world) in
  jobs stale_world !! py "job-0" = Some stale_job
  /\ expired (time_time locked_env) stale_job = true
  /\ is_Some (files stale_world !! output_path_of (py "job-0"))
  /\ is_Some (fs_error locked_env (FsUnlink (output_path_of (py "job-0"))))
  /\ jobs w' !! py "job-0" = None
  /\ files w' !! output_path_of (py "job-0") = Some [x2a].
Proof.
  cbn zeta. split; [vm_compute; reflexivity|]. split; [vm_compute; reflexivity|].
  split; [eexists; vm_compute; reflexivity|]. split; [eexists; reflexivity|].
  split; vm_compute; reflexivity.
Qed.

(** C6, as the code has it.  A sweep removes the record of every job
    whose age exceeds the retention window, whether or not the
    deletion of its output succeeds: the deletion is attempted only
    when the file exists, its failure is swallowed, and the record is
    deleted either way.  After a sweep in which the deletion does not
    fail the record is absent from the store and no file exists at the
    output path of the job.  The records of the other jobs stay as they
    are, and the sweep itself never raises. *)
Theorem retention_sweep_evicts (env : Env) (w : World) (job_id : str) (j : Job) :
  jobs w !! job_id = Some j ->
  expired (time_time env) j = true ->
  let r := cleanup_old_jobs env w in
  raised r = None /\ is_Await r = false
  /\ jobs (world_of r) !! job_id = None
  /\ (fs_error env (FsUnlink (output_path_of job_id)) = None ->
      files (world_of r) !! output_path_of job_id = None)
  /\ (forall i j', jobs w !! i = Some j' -> expired (time_time env) j' = false ->
                   jobs (world_of r) !! i = Some j').
Proof.
  intros Hj He r. subst r.
  destruct (cleanup_old_jobs_spec env w) as (w' & Hr & A & _ & _ & E & _).
  rewrite Hr. cbn [raised is_Await world_of].
  split; [done|]. split; [done|]. split; [|split].
  - rewrite (A job_id j Hj), He. done.
  - intros Hu. by apply (E job_id j).
  - intros i j' Hi Hn. rewrite (A i j' Hi), Hn. done.
Qed.

Lemma retention_sweep_evicts_witness :
  let r := cleanup_old_jobs demo_env (mkWorld {[ py "job-0" := stale_job ]}
                                        {[ output_path_of (py "job-0") := [x2a] ]} []) in
  jobs (world_of r) !! py "job-0" = None
  /\ files (world_of r) !! output_path_of (py "job-0") = None.
Proof.
  destruct (retention_sweep_evicts demo_env stale_world (py "job-0") stale_job)
    as (_ & _ & H1 & H2 & _).
  - vm_compute. reflexivity.
  - vm_compute. reflexivity.
  - split; [exact H1|]. apply H2. reflexivity.
Defined.

(** ** Oversized uploads *)

Lemma CHUNK_pos : (0 < CHUNK)%nat.
Proof. unfold CHUNK. lia. Qed.

Lemma take_CHUNK_nil (rest : list byte) : take CHUNK rest = [] -> rest = [].
Proof.
  destruct rest as [|b rest]; [done|]. pose proof CHUNK_pos.
  destruct CHUNK; [lia|]. discriminate.
Qed.

(** Reads beyond the end of the upload change nothing: any fuel above
    the length of what is left gives the same run. *)
Lemma save_chunks_fuel fuel1 fuel2 env video_path rest total_size w :
  (length rest < fuel1)%nat -> (length rest < fuel2)%nat ->
  save_chunks fuel1 env video_path rest total_size w
  = save_chunks fuel2 env video_path rest total_size w.
Proof.
  revert fuel2 rest total_size w.
  induction fuel1 as [|fuel1 IH]; intros fuel2 rest total_size w H1 H2; [lia|].
  destruct fuel2 as [|fuel2]; [lia|]. cbn [save_chunks].
  destruct (decide (take CHUNK rest = [])) as [Hnil|Hnil];
    [by rewrite !(bool_decide_eq_true_2 _ Hnil)|].
  rewrite !(bool_decide_eq_false_2 _ Hnil).
  destruct (bool_decide (MAX_FILE_SIZE < _)); [done|].
  unfold mbind, M_bind, bind, f_write.
  destruct (fs_error env (FsWrite video_path)); cbn [bind_run]; [done|].
  pose proof CHUNK_pos.
  assert ((length (drop CHUNK rest) < length rest)%nat).
  { rewrite length_drop. destruct rest; [by destruct CHUNK|]. cbn [length]. lia. }
  apply IH; lia.
Qed.

Example too_large_detail_text :
  too_large_detail = py "File too large. Maximum size is 500MB".
Proof. vm_compute. reflexivity. Qed.

Lemma allowed_type_nonempty ct : ct ∈ ALLOWED_VIDEO_TYPES -> ct <> [].
Proof. intros H ->. revert H. unfold ALLOWED_VIDEO_TYPES. rewrite !elem_of_cons, elem_of_nil.
  intros [H|[H|[H|[H|[H|[]]]]]]; revert H; vm_compute; discriminate. Qed.

Lemma accepted_type video ct :
  content_type video = Some ct -> ct ∈ ALLOWED_VIDEO_TYPES ->
  validate_video_file video = ret tt.
Proof.
  intros Hct Hin. unfold validate_video_file. rewrite Hct.
  rewrite (bool_decide_eq_false_2 _ (allowed_type_nonempty ct Hin)).
  by rewrite (bool_decide_eq_true_2 _ Hin).
Qed.

(** The loop of lines 266-274 on an upload over the cap, when the
    writes succeed: the chunk that crosses the cap is not written, the
    removal of the file is attempted, and the loop is left with the
    rejection of line 270, or with the error of the removal. *)
Lemma save_chunks_over_cap fuel env video_path rest total_size w acc :
  fs_error env (FsWrite video_path) = None ->
  files w !! video_path = Some acc ->
  MAX_FILE_SIZE < total_size + len rest -> total_size <= MAX_FILE_SIZE ->
  (length rest < fuel)%nat ->
  exists w',
    save_chunks fuel env video_path rest total_size w
    = Raise (match fs_error env (FsRemove video_path) with
             | Some msg => OSError msg
             | None => HTTPException 400 too_large_detail
             end) w'
    /\ match fs_error env (FsRemove video_path) with
       | Some _ => is_Some (files w' !! video_path)
       | None => files w' !! video_path = None
       end.
Proof.
  intros Hwrite. revert rest total_size w acc.
  induction fuel as [|fuel IH]; intros rest total_size w acc Hf Hover Hle Hfuel; [lia|].
  cbn [save_chunks].
  destruct (decide (take CHUNK rest = [])) as [Hnil|Hne].
  { apply take_CHUNK_nil in Hnil. subst rest. unfold len in Hover. cbn in Hover. lia. }
  rewrite (bool_decide_eq_false_2 _ Hne).
  assert (Hlen : len rest = len (take CHUNK rest) + len (drop CHUNK rest)).
  { unfold len. rewrite <- Nat2Z.inj_add, <- length_app, take_drop. done. }
  destruct (decide (MAX_FILE_SIZE < total_size + len (take CHUNK rest))) as [Hbig|Hsmall].
  - rewrite (bool_decide_eq_true_2 _ Hbig).
    unfold mbind, M_bind, bind, os_remove, fs_delete.
    destruct (fs_error env (FsRemove video_path)) as [msg|] eqn:Herr.
    + eexists. split; [reflexivity|]. cbn [record files]. by eexists.
    + cbn [record files]. rewrite Hf. cbn [bind_run raise].
      eexists. split; [reflexivity|]. cbn [set_files files]. apply lookup_delete_eq.
  - rewrite (bool_decide_eq_false_2 _ Hsmall).
    unfold mbind, M_bind, bind, f_write. rewrite Hwrite. cbn [bind_run].
    set (w1 := set_files _ _).
    apply (IH (drop CHUNK rest) (total_size + len (take CHUNK rest)) w1
              (acc ++ take CHUNK rest)).
    + subst w1. cbn [set_files files record]. by rewrite lookup_alter_eq, Hf.
    + lia.
    + lia.
    + pose proof CHUNK_pos. rewrite length_drop.
      destruct rest; [by destruct CHUNK|]. cbn [length] in *. lia.
Qed.

(** How the handler ends on an upload over the cap that gets as far
    as the loop. *)
Lemma oversized_upload_outcome env prompt format video w ct :
  MAX_FILE_SIZE < len (body video) -> len prompt <= 2000 ->
  content_type video = Some ct -> ct ∈ ALLOWED_VIDEO_TYPES ->
  let video_path := TEMP_DIR (uuid4 env ++ py "_input.mp4") in
  exists w',
    edit_video env prompt format (Some video) w
    = Raise (match fs_error env (FsOpen video_path), fs_error env (FsWrite video_path),
                   fs_error env (FsRemove video_path) with
             | None, None, None => HTTPException 400 too_large_detail
             | _, _, _ => HTTPException 500 (py "Failed to save video file")
             end) w'
    /\ match fs_error env (FsOpen video_path), fs_error env (FsWrite video_path),
             fs_error env (FsRemove video_path) with
       | None, None, None => files w' !! video_path = None
       | None, _, _ => is_Some (files w' !! video_path)
       | Some _, _, _ => files w' = files w
       end.
Proof.
  intros Hover Hlen Hct Hin video_path. unfold edit_video.
  rewrite bool_decide_eq_false_2 by lia.
  rewrite (accepted_type _ _ Hct Hin).
  unfold mbind, M_bind, bind, try_except. cbn [bind_run ret]. fold video_path.
  unfold open_wb.
  destruct (fs_error env (FsOpen video_path)) as [msg|] eqn:Hopen.
  { cbn [bind_run catch_run is_Exception raise]. by eexists. }
  cbn [bind_run]. set (w1 := set_files _ _).
  assert (Hf1 : files w1 !! video_path = Some []).
  { subst w1. cbn [set_files files record]. apply lookup_insert_eq. }
  destruct (fs_error env (FsWrite video_path)) as [msg|] eqn:Hwrite.
  - cbn [save_chunks].
    rewrite bool_decide_eq_false_2.
    2:{ intros Hnil. apply take_CHUNK_nil in Hnil. rewrite Hnil in Hover.
        unfold len, MAX_FILE_SIZE in Hover. cbn in Hover. lia. }
    rewrite bool_decide_eq_false_2.
    2:{ unfold len. rewrite length_take. unfold CHUNK, MAX_FILE_SIZE. lia. }
    unfold mbind, M_bind, bind, f_write. rewrite Hwrite.
    cbn [bind_run catch_run is_Exception raise].
    eexists. split; [reflexivity|]. cbn [record files]. rewrite Hf1. by eexists.
  - destruct (save_chunks_over_cap (S (length (body video))) env video_path (body video) 0
                w1 [] Hwrite Hf1) as (w' & Hr & Hfile).
    { lia. }
    { unfold MAX_FILE_SIZE. lia. }
    { lia. }
    rewrite Hr.
    destruct (fs_error env (FsRemove video_path)) as [msg|];
      cbn [catch_run bind_run is_Exception raise]; by eexists.
Qed.

(** C8, as the code has it.  An upload larger than the cap never
    leads to a record: the handler ends with an exception, the store
    is exactly as it was, and no action of the handler writes a record.
    When the submission passes the validation of its prompt and of its
    content type, so that the upload is streamed to disk, the handler
    raises the client error 400 "File too large" and has deleted the
    partial input file provided the file system performs the three
    calls of the handler on that file (open, write, remove).  When one
    of them fails, the [except Exception] clause of line 277 turns the
    failure into the server error 500 "Failed to save video file", and
    unless it was the open that failed the partial file is left on
    disk. *)
Theorem oversized_upload_is_rejected (env : Env) (prompt format : str)
    (video : UploadFile) (w : World) :
  MAX_FILE_SIZE < len (body video) ->
  let r := edit_video env prompt format (Some video) w in
  let video_path := TEMP_DIR (uuid4 env ++ py "_input.mp4") in
  is_Some (raised r)
  /\ jobs (world_of r) = jobs w
  /\ (forall i, status_writes i (appended w (world_of r)) = []
                /\ progress_writes i (appended w (world_of r)) = [])
  /\ (len prompt <= 2000 ->
      (exists ct, content_type video = Some ct /\ ct ∈ ALLOWED_VIDEO_TYPES) ->
      (fs_error env (FsOpen video_path) = None ->
       fs_error env (FsWrite video_path) = None ->
       fs_error env (FsRemove video_path) = None ->
       raised r = Some (HTTPException 400 (py "File too large. Maximum size is 500MB"))
       /\ files (world_of r) !! video_path = None)
      /\ (is_Some (fs_error env (FsOpen video_path))
          \/ is_Some (fs_error env (FsWrite video_path))
          \/ is_Some (fs_error env (FsRemove video_path)) ->
          raised r = Some (HTTPException 500 (py "Failed to save video file")))
      /\ (fs_error env (FsOpen video_path) = None ->
          is_Some (fs_error env (FsWrite video_path))
          \/ is_Some (fs_error env (FsRemove video_path)) ->
          is_Some (files (world_of r) !! video_path))).
Proof.
  intros Hover r video_path. subst r.
  assert (Hraise : exists e w', edit_video env prompt format (Some video) w = Raise e w'
                                /\ Quiet w w').
  { destruct (edit_video_cases env prompt format (Some video) w)
      as [H|(fmt & w1 & _ & Hr)]; [exact H|]. exfalso.
    destruct (decide (2000 < len prompt)) as [Hlong|Hlen].
    { unfold edit_video in Hr. rewrite (bool_decide_eq_true_2 _ Hlong) in Hr.
      discriminate Hr. }
    destruct (content_type video) as [ct|] eqn:Hct.
    2:{ unfold edit_video, validate_video_file in Hr.
        rewrite bool_decide_eq_false_2, Hct in Hr by done. discriminate Hr. }
    destruct (decide (ct ∈ ALLOWED_VIDEO_TYPES)) as [Hin|Hin].
    2:{ unfold edit_video, validate_video_file in Hr.
        rewrite bool_decide_eq_false_2, Hct in Hr by done.
        rewrite (bool_decide_eq_false_2 _ Hin), orb_true_r in Hr. discriminate Hr. }
    destruct (oversized_upload_outcome env prompt format video w ct) as (w' & Hr' & _);
      [done|lia|done|done|].
    rewrite Hr' in Hr. discriminate Hr. }
  destruct Hraise as (e & w' & Hr & [Hj (evs & Hl & Hq)]).
  split; [rewrite Hr; by eexists|].
  split; [by rewrite Hr|].
  split; [intros i; rewrite Hr; cbn [world_of]; rewrite (appended_app _ _ _ Hl); apply Hq|].
  intros Hlen (ct & Hct & Hin).
  destruct (oversized_upload_outcome env prompt format video w ct Hover Hlen Hct Hin)
    as (w2 & Hr2 & Hfile).
  fold video_path in Hr2, Hfile. rewrite Hr2. cbn [raised world_of].
  rewrite <- too_large_detail_text.
  destruct (fs_error env (FsOpen video_path)) as [m1|];
    destruct (fs_error env (FsWrite video_path)) as [m2|];
    destruct (fs_error env (FsRemove video_path)) as [m3|];
    (split; [intros H1 H2 H3; try discriminate; by split|]);
    (split; [intros [[? H]|[[? H]|[? H]]]; try discriminate H; reflexivity|]);
    intros H1 [[? H]|[? H]]; try discriminate H1; try discriminate H; exact Hfile.
Qed.

Lemma oversized_upload_is_rejected_witness :
  MAX_FILE_SIZE < len (body oversized_upload)
  /\ raised (edit_video demo_env (py "make it square") (py "square")
               (Some oversized_upload) (mkWorld ∅ ∅ []))
     = Some (HTTPException 400 (py "File too large. Maximum size is 500MB"))
  /\ files (world_of (edit_video demo_env (py "make it square") (py "square")
                        (Some oversized_upload) (mkWorld ∅ ∅ [])))
       !! TEMP_DIR (py "job-1" ++ py "_input.mp4") = None
  /\ jobs (world_of (edit_video demo_env (py "make it square") (py "square")
                       (Some oversized_upload) (mkWorld ∅ ∅ []))) = ∅.
Proof.
  assert (H : MAX_FILE_SIZE < len (body oversized_upload)).
  { unfold oversized_upload, len, body. rewrite length_replicate. unfold MAX_FILE_SIZE. lia. }
  split; [exact H|].
  destruct (oversized_upload_is_rejected demo_env (py "make it square") (py "square")
              oversized_upload (mkWorld ∅ ∅ []) H) as (_ & Hjobs & _ & Hfs).
  destruct Hfs as ((H400 & Hgone) & _).
  - vm_compute. discriminate.
  - exists (py "video/mp4"). split; [reflexivity|left].
  - reflexivity.
  - reflexivity.
  - reflexivity.
  - split; [exact H400|]. split; [exact Hgone|exact Hjobs].
Defined.

(** An oversized upload whose partial file cannot be removed: in an
    environment in which [os.remove] of the input file is refused, the
    submission is answered with the server error 500, not with a
    client error, and the partial file stays on disk. *)
Lemma oversized_upload_kept_when_remove_fails :
  raised (edit_video undeletable_env (py "make it square") (py "square")
            (Some oversized_upload) (mkWorld ∅ ∅ []))
  = Some (HTTPException 500 (py "Failed to save video file"))
  /\ is_Some (files (world_of (edit_video undeletable_env (py "make it square") (py "square")
                                 (Some oversized_upload) (mkWorld ∅ ∅ [])))
                !! TEMP_DIR (py "job-1" ++ py "_input.mp4")).
Proof.
  assert (H : MAX_FILE_SIZE < len (body oversized_upload)).
  { unfold oversized_upload, len, body. rewrite length_replicate. unfold MAX_FILE_SIZE. lia. }
  destruct (oversized_upload_outcome undeletable_env (py "make it square") (py "square")
              oversized_upload (mkWorld ∅ ∅ []) (py "video/mp4") H)
    as (w' & Hr & Hfile).
  - vm_compute. discriminate.
  - reflexivity.
  - left.
  - rewrite Hr. cbn [raised world_of]. split; [reflexivity|exact Hfile].
Qed.

(** ** The prompt handed to the pipeline *)

Lemma lstrip_suffix v : exists k, v = k ++ lstrip v.
Proof.
  induction v as [|c v [k IH]]; [by exists []|]. cbn [lstrip].
  destruct (is_space c); [|by exists []]. exists (c :: k). cbn. by rewrite <- IH.
Qed.

Lemma strip_sub v : (length (strip v) <= length v)%nat /\ forall c, c ∈ strip v -> c ∈ v.
Proof.
  unfold strip.
  destruct (lstrip_suffix v) as [k1 H1].
  destruct (lstrip_suffix (reverse (lstrip v))) as [k2 H2].
  assert (Hl : lstrip v = reverse (lstrip (reverse (lstrip v))) ++ reverse k2).
  { rewrite <- reverse_app, <- H2. by rewrite reverse_involutive. }
  split.
  - rewrite H1 at 2. rewrite Hl at 2. rewrite !length_app. lia.
  - intros c Hc. rewrite H1, Hl. set_solver.
Qed.

(** What the handler does guarantee about the prompt it hands on. *)
Lemma sanitized_prompt_of_bounds prompt :
  (60%N ∉ sanitized_prompt_of prompt) /\ (62%N ∉ sanitized_prompt_of prompt)
  /\ (length (sanitized_prompt_of prompt) <= 2000)%nat.
Proof.
  unfold sanitized_prompt_of.
  destruct (strip_sub (take 2000 (re_sub_angle prompt))) as [Hlen Hsub].
  assert (Hno : forall c, c ∈ take 2000 (re_sub_angle prompt) -> c <> 60%N /\ c <> 62%N).
  { intros c Hc. apply elem_of_take in Hc as (n & Hc & _).
    apply list_elem_of_lookup_2 in Hc. unfold re_sub_angle in Hc.
    by apply list_elem_of_filter in Hc as [Hc _]. }
  split; [|split].
  - intros H. apply Hsub, Hno in H. by destruct H.
  - intros H. apply Hsub, Hno in H. by destruct H.
  - rewrite length_take in Hlen. lia.
Qed.

(** The prompt of the queued pipeline is the one line 281 computes. *)
Lemma edit_video_prompt env prompt format video w acc bg w' :
  edit_video env prompt format video w = Return (acc, bg) w' ->
  exists job_id video_path fmt,
    bg = [TaskProcessVideo job_id video_path (sanitized_prompt_of prompt) fmt;
          TaskCleanupOldJobs].
Proof.
  intros H. destruct (edit_video_cases env prompt format video w)
    as [(e & w1 & Hr & _)|(fmt & w1 & _ & Hr)]; rewrite Hr in H; [discriminate H|].
  injection H as _ <- _. by eexists _, _, _.
Qed.

(** C7 on the code.  For the prompt "javascript:alert(1)" the handler
    queues the pipeline with the prompt unchanged, scheme included,
    whereas the validator [sanitize_prompt] of the request model
    removes the scheme; angle brackets are removed and the length is
    bounded by 2000 for every prompt. *)
Theorem handler_keeps_javascript_scheme :
  (exists acc w',
      edit_video demo_env (py "javascript:alert(1)") (py "square") (Some demo_upload)
        (mkWorld ∅ ∅ [])
      = Return (acc, [TaskProcessVideo (py "job-1") demo_input
                        (py "javascript:alert(1)") (py "square");
                      TaskCleanupOldJobs]) w')
  /\ sanitized_prompt_of (py "javascript:alert(1)") = py "javascript:alert(1)"
  /\ sanitize_prompt (py "javascript:alert(1)") = py "alert(1)"
  /\ forall prompt,
       (60%N ∉ sanitized_prompt_of prompt) /\ (62%N ∉ sanitized_prompt_of prompt)
       /\ (length (sanitized_prompt_of prompt) <= 2000)%nat.
Proof.
  split; [|split; [|split]].
  - eexists _, _. vm_compute. reflexivity.
  - vm_compute. reflexivity.
  - vm_compute. reflexivity.
  - apply sanitized_prompt_of_bounds.
Qed.

(** * Further properties of the code *)

(** ** File names *)

Lemma rfind_range c p : -1 <= rfind c p < len p.
Proof.
  unfold len. induction p as [|x p IH]; cbn [rfind length]; [lia|].
  repeat case_bool_decide; lia.
Qed.

Lemma rfind_notin c p : c ∉ p -> rfind c p = -1.
Proof.
  induction p as [|x p IH]; [done|]. intros H. apply not_elem_of_cons in H as [Hx Hp].
  cbn [rfind]. rewrite (IH Hp). rewrite bool_decide_eq_false_2 by lia.
  by rewrite bool_decide_eq_false_2.
Qed.

Lemma rfind_neg c p : rfind c p < 0 -> c ∉ p.
Proof.
  induction p as [|x p IH]; [intros _; apply not_elem_of_nil|].
  cbn [rfind]. pose proof (rfind_range c p).
  repeat case_bool_decide; try lia. intros _. apply not_elem_of_cons. split; [done|].
  apply IH. lia.
Qed.

(** After the last slash there is none. *)
Lemma basename_suffix p : exists d, p = d ++ basename p /\ 47%N ∉ basename p.
Proof.
  unfold basename. induction p as [|x p (d & Hd & Hn)].
  - exists []. split; [done|]. cbn. apply not_elem_of_nil.
  - cbn [rfind]. pose proof (rfind_range 47%N p) as Hr.
    case_bool_decide as H0.
    + exists (x :: d). replace (Z.to_nat (rfind 47%N p + 1 + 1)) with (S (Z.to_nat (rfind 47%N p + 1))) by lia.
      cbn [drop]. split; [by rewrite <- app_comm_cons, <- Hd|exact Hn].
    + assert (Hp : 47%N ∉ p) by (apply rfind_neg; lia).
      case_bool_decide as Hx.
      * exists [x]. cbn. done.
      * exists []. cbn. split; [done|]. by apply not_elem_of_cons.
Qed.

Lemma basename_id p : 47%N ∉ p -> basename p = p.
Proof. intros H. unfold basename. by rewrite (rfind_notin _ _ H). Qed.

Lemma rfind_app c d n : c ∉ n -> rfind c (d ++ c :: n) = len d.
Proof.
  intros Hn. unfold len. induction d as [|x d IH].
  - cbn [app rfind length]. rewrite (rfind_notin _ _ Hn).
    rewrite bool_decide_eq_false_2 by lia. by rewrite bool_decide_eq_true_2.
  - cbn [app rfind length]. rewrite IH. rewrite bool_decide_eq_true_2 by lia. lia.
Qed.

Lemma basename_app d n : 47%N ∉ n -> basename (d ++ 47%N :: n) = n.
Proof.
  intros Hn. unfold basename. rewrite (rfind_app _ _ _ Hn). unfold len.
  replace (Z.to_nat (Z.of_nat (length d) + 1)) with (length (d ++ [47%N])).
  - rewrite (cons_middle 47%N d n), app_assoc. apply drop_app_length.
  - rewrite length_app. cbn. lia.
Qed.

Lemma re_sub_unsafe_safe v c : c ∈ re_sub_unsafe v -> is_safe_char c = true.
Proof.
  unfold re_sub_unsafe. intros (x & -> & _)%list_elem_of_fmap.
  by destruct (is_safe_char x) eqn:E.
Qed.

Lemma re_sub_unsafe_id v :
  (forall c, c ∈ v -> is_safe_char c = true) -> re_sub_unsafe v = v.
Proof.
  intros H. unfold re_sub_unsafe. induction v as [|x v IH]; [done|].
  cbn [fmap list_fmap]. rewrite (H x) by left. f_equal. apply IH.
  intros c Hc. apply H. by right.
Qed.

Lemma sanitize_filename_chars filename c :
  c ∈ sanitize_filename filename -> is_safe_char c = true.
Proof.
  intros Hc. unfold sanitize_filename in Hc.
  apply elem_of_take in Hc as (i & Hc & _). apply list_elem_of_lookup_2 in Hc.
  by apply re_sub_unsafe_safe in Hc.
Qed.

Lemma sanitize_filename_length filename :
  length (sanitize_filename filename) = min 255 (length (basename filename)).
Proof. unfold sanitize_filename, re_sub_unsafe. by rewrite length_take, length_fmap. Qed.

(** X1. Whatever the name submitted, the sanitized file name consists
    of letters, digits, dots, underscores and hyphens only (so it holds
    no slash, no NUL and no white space), and it has the length of the
    last path component, cut at 255. *)
Theorem sanitize_filename_safe (filename : str) :
  (forall c, c ∈ sanitize_filename filename -> is_safe_char c = true)
  /\ (47%N ∉ sanitize_filename filename)
  /\ length (sanitize_filename filename) = min 255 (length (basename filename)).
Proof.
  pose proof (sanitize_filename_chars filename) as H.
  split; [exact H|]. split.
  - intros Hc. apply H in Hc. discriminate Hc.
  - apply sanitize_filename_length.
Qed.

(** X2. Directory components are dropped: only what follows the last
    slash of the name submitted is kept. *)
Theorem sanitize_filename_drops_directory (directory name : str) :
  47%N ∉ name ->
  sanitize_filename (directory ++ py "/" ++ name) = sanitize_filename name.
Proof.
  intros Hn. unfold sanitize_filename. change (py "/") with [47%N].
  cbn [app]. by rewrite (basename_app _ _ Hn), (basename_id _ Hn).
Qed.

Lemma sanitize_filename_drops_directory_witness :
  sanitize_filename (py "../../etc" ++ py "/" ++ py "passwd") = sanitize_filename (py "passwd").
Proof.
  apply (sanitize_filename_drops_directory (py "../../etc") (py "passwd")).
  vm_compute. intros H. repeat (apply elem_of_cons in H as [H|H]; [discriminate H|]).
  by apply elem_of_nil in H.
Defined.

(** X3. A name of at most 255 safe characters passes unchanged, the
    names "." and ".." among them; hence sanitizing twice is the same
    as sanitizing once. *)
Theorem sanitize_filename_fixed_point (filename : str) :
  ((forall c, c ∈ filename -> is_safe_char c = true) ->
   (length filename <= 255)%nat ->
   sanitize_filename filename = filename)
  /\ sanitize_filename (sanitize_filename filename) = sanitize_filename filename.
Proof.
  assert (Hfix : forall f, (forall c, c ∈ f -> is_safe_char c = true) ->
                           (length f <= 255)%nat -> sanitize_filename f = f).
  { intros f Hs Hl. unfold sanitize_filename.
    rewrite basename_id.
    - rewrite (re_sub_unsafe_id _ Hs). by apply take_ge.
    - intros Hc. apply Hs in Hc. discriminate Hc. }
  split; [apply Hfix|].
  apply Hfix; [apply sanitize_filename_chars|].
  rewrite sanitize_filename_length. lia.
Qed.

Lemma sanitize_filename_fixed_point_witness :
  sanitize_filename (py "..") = py "..".
Proof.
  apply (proj1 (sanitize_filename_fixed_point (py ".."))).
  - vm_compute. intros c H. 
    repeat (apply elem_of_cons in H as [->|H]; [reflexivity|]).
    by apply elem_of_nil in H.
  - vm_compute. lia.
Defined.

(** ** Formats and prompts of the request model *)

(** X4. The format validator answers with a key of the format catalog
    whatever it is given, keeps a key as it is, and decides as the
    submission handler does (lines 248-249): a format that is not in
    the catalog becomes "tiktok". *)
Theorem validate_format_in_catalog (v : str) :
  dict_mem FORMAT_CONFIGS (validate_format v) = true
  /\ validate_format (validate_format v) = validate_format v
  /\ validate_format v = (if dict_mem FORMAT_CONFIGS v then v else py "tiktok").
Proof.
  assert (H3 : validate_format v = (if dict_mem FORMAT_CONFIGS v then v else py "tiktok"))
    by reflexivity.
  assert (H1 : dict_mem FORMAT_CONFIGS (validate_format v) = true).
  { rewrite H3. destruct (dict_mem FORMAT_CONFIGS v) eqn:E; [exact E|]. vm_compute. reflexivity. }
  split; [exact H1|]. split; [|exact H3].
  change (validate_format (validate_format v))
    with (if dict_mem FORMAT_CONFIGS (validate_format v) then validate_format v else py "tiktok").
  by rewrite H1.
Qed.

Lemma re_sub_literal_sub pat skip v c :
  c ∈ re_sub_literal_ignorecase pat skip v -> c ∈ v.
Proof.
  revert skip. induction v as [|x v IH]; intros skip; [done|].
  cbn [re_sub_literal_ignorecase]. destruct skip as [|n].
  - destruct (match_here pat (x :: v)).
    + intros H. right. by eapply IH.
    + intros [->|H]%elem_of_cons; [by left|]. right. by eapply IH.
  - intros H. right. by eapply IH.
Qed.

Lemma re_sub_literal_length pat skip v :
  (length (re_sub_literal_ignorecase pat skip v) <= length v)%nat.
Proof.
  revert skip. induction v as [|x v IH]; intros skip; [done|].
  cbn [re_sub_literal_ignorecase]. destruct skip as [|n].
  - destruct (match_here pat (x :: v)); cbn [length].
    + specialize (IH (pred (length pat))). lia.
    + specialize (IH O). lia.
  - specialize (IH n). cbn [length]. lia.
Qed.

Lemma re_sub_literal_id pat v :
  search_ignorecase pat v = false -> re_sub_literal_ignorecase pat O v = v.
Proof.
  induction v as [|x v IH]; [done|]. cbn [search_ignorecase re_sub_literal_ignorecase].
  intros [H1 H2]%orb_false_elim. rewrite H1. f_equal. by apply IH.
Qed.

Lemma lstrip_head v c : head (lstrip v) = Some c -> is_space c = false.
Proof.
  induction v as [|x v IH]; [done|]. cbn [lstrip].
  destruct (is_space x) eqn:E; [exact IH|]. cbn. by intros [= <-].
Qed.

Lemma lstrip_last v : lstrip v <> [] -> last (lstrip v) = last v.
Proof.
  intros Hne. destruct (lstrip_suffix v) as [k Hk]. rewrite Hk at 2.
  destruct (lstrip v) as [|y l] eqn:E; [done|]. by rewrite last_app_cons.
Qed.

Lemma strip_edges v c :
  (head (strip v) = Some c -> is_space c = false)
  /\ (last (strip v) = Some c -> is_space c = false).
Proof.
  unfold strip. rewrite head_reverse, last_reverse. split.
  - intros H. destruct (decide (lstrip (reverse (lstrip v)) = [])) as [E|E];
      [rewrite E in H; discriminate H|].
    rewrite (lstrip_last _ E), last_reverse in H. by eapply lstrip_head.
  - apply lstrip_head.
Qed.

(** X5. The prompt validator of the request model answers, for every
    prompt, with a text that holds no angle bracket, has at most 2000
    characters, and neither starts nor ends with white space. *)
Theorem sanitize_prompt_bounds (v : str) :
  (60%N ∉ sanitize_prompt v) /\ (62%N ∉ sanitize_prompt v)
  /\ (length (sanitize_prompt v) <= 2000)%nat
  /\ (forall c, head (sanitize_prompt v) = Some c -> is_space c = false)
  /\ (forall c, last (sanitize_prompt v) = Some c -> is_space c = false).
Proof.
  unfold sanitize_prompt.
  set (u := re_sub_literal_ignorecase _ _ _).
  destruct (strip_sub (take 2000 u)) as [Hlen Hsub].
  assert (Hno : forall c, c ∈ strip (take 2000 u) -> c <> 60%N /\ c <> 62%N).
  { intros c Hc. apply Hsub in Hc. apply elem_of_take in Hc as (n & Hc & _).
    apply list_elem_of_lookup_2 in Hc. subst u. apply re_sub_literal_sub in Hc.
    unfold re_sub_angle in Hc. by apply list_elem_of_filter in Hc as [Hc _]. }
  split; [intros H; apply Hno in H; by destruct H|].
  split; [intros H; apply Hno in H; by destruct H|].
  split; [rewrite length_take in Hlen; lia|].
  split; intros c; apply strip_edges.
Qed.

(** X6. On a prompt in which, once the angle brackets are removed, the
    scheme "javascript:" does not occur in any spelling, the validator
    of the request model and the sanitation of the submission handler
    (line 281) give the same text. *)
Theorem sanitizers_agree_without_scheme (prompt : str) :
  search_ignorecase (py "javascript:") (re_sub_angle prompt) = false ->
  sanitize_prompt prompt = sanitized_prompt_of prompt.
Proof.
  intros H. unfold sanitize_prompt, sanitized_prompt_of.
  by rewrite (re_sub_literal_id _ _ H).
Qed.

Lemma sanitizers_agree_without_scheme_witness :
  sanitize_prompt (py "make <b>it</b> square ") = sanitized_prompt_of (py "make <b>it</b> square ").
Proof.
  apply (sanitizers_agree_without_scheme (py "make <b>it</b> square ")).
  vm_compute. reflexivity.
Defined.

(** ** The allowed origins *)

(** X7. The list of allowed origins holds the two built-in origins
    first, and besides them the value of FRONTEND_URL exactly when it
    is set to a non-empty string; no origin is listed twice. *)
Theorem allowed_origins_spec (FRONTEND_URL : option str) :
  NoDup (ALLOWED_ORIGINS FRONTEND_URL)
  /\ [py "http://localhost:3000"; py "https://ai-video-editor-virid.vercel.app"]
       `prefix_of` ALLOWED_ORIGINS FRONTEND_URL
  /\ forall origin,
       origin ∈ ALLOWED_ORIGINS FRONTEND_URL
       <-> origin = py "http://localhost:3000"
           \/ origin = py "https://ai-video-editor-virid.vercel.app"
           \/ (origin <> [] /\ FRONTEND_URL = Some origin).
Proof.
  unfold ALLOWED_ORIGINS.
  set (allowed := [_; _]).
  assert (Hnd : NoDup allowed).
  { subst allowed. apply NoDup_cons. split.
    - rewrite elem_of_cons, elem_of_nil. intros [H|[]]. revert H. vm_compute. discriminate.
    - apply NoDup_singleton. }
  assert (Hne : forall o, o ∈ allowed -> o <> []).
  { intros o. subst allowed. rewrite !elem_of_cons, elem_of_nil.
    intros [->|[->|[]]]; vm_compute; discriminate. }
  destruct FRONTEND_URL as [u|]; cbn [getenv].
  - destruct (decide (u = [])) as [->|Hu].
    + rewrite bool_decide_eq_true_2 by done. cbn [negb andb].
      split; [exact Hnd|]. split; [done|]. intros o. subst allowed.
      rewrite !elem_of_cons, elem_of_nil. split; [tauto|].
      intros [H|[H|[H1 [= H2]]]]; [tauto..|]. by subst o.
    + rewrite (bool_decide_eq_false_2 _ Hu). cbn [negb andb].
      destruct (decide (u ∈ allowed)) as [Hin|Hin].
      * rewrite (bool_decide_eq_true_2 _ Hin). cbn [negb].
        split; [exact Hnd|]. split; [done|]. intros o. split.
        -- subst allowed. rewrite !elem_of_cons, elem_of_nil. tauto.
        -- intros [H|[H|[H1 [= H2]]]]; subst allowed; rewrite ?elem_of_cons; [tauto..|].
           subst o. by rewrite !elem_of_cons in Hin.
      * rewrite (bool_decide_eq_false_2 _ Hin). cbn [negb].
        split; [|split].
        -- apply NoDup_app. split; [exact Hnd|]. split; [|apply NoDup_singleton].
           intros o Ho. rewrite elem_of_cons, elem_of_nil. intros [->|[]]. done.
        -- by eexists.
        -- intros o. rewrite elem_of_app, elem_of_cons, elem_of_nil. subst allowed.
           rewrite !elem_of_cons, elem_of_nil. split.
           ++ intros [[H|[H|[]]]|[->|[]]]; [tauto..|]. right. right. done.
           ++ intros [H|[H|[H1 [= H2]]]]; [tauto..|]. subst o. tauto.
  - rewrite bool_decide_eq_true_2 by done. cbn [negb andb].
    split; [exact Hnd|]. split; [done|]. intros o. subst allowed.
    rewrite !elem_of_cons, elem_of_nil. split; [tauto|].
    intros [H|[H|[H1 H2]]]; [tauto..|discriminate H2].
Qed.

(** ** The submission handler *)

(** The loop of lines 266-274 on an upload within the cap, when the
    writes succeed: what was read is appended to the file. *)
Lemma save_chunks_saves fuel env video_path rest total_size w acc :
  fs_error env (FsWrite video_path) = None ->
  files w !! video_path = Some acc ->
  total_size + len rest <= MAX_FILE_SIZE ->
  (length rest < fuel)%nat ->
  exists w',
    save_chunks fuel env video_path rest total_size w = Return tt w'
    /\ jobs w' = jobs w
    /\ files w' = <[video_path := acc ++ rest]> (files w)
    /\ exists evs, log w' = log w ++ evs
         /\ Forall (fun ev => ev = EvFs (FsWrite video_path)) evs.
Proof.
  intros Hok. revert rest total_size w acc.
  induction fuel as [|fuel IH]; intros rest total_size w acc Hf Hcap Hfuel; [lia|].
  cbn [save_chunks].
  destruct (decide (take CHUNK rest = [])) as [Hnil|Hne].
  { rewrite (bool_decide_eq_true_2 _ Hnil). apply take_CHUNK_nil in Hnil. subst rest.
    exists w. split; [done|]. split; [done|]. split.
    - rewrite app_nil_r. by rewrite insert_id.
    - exists []. by rewrite app_nil_r. }
  rewrite (bool_decide_eq_false_2 _ Hne).
  assert (Hlen : len rest = len (take CHUNK rest) + len (drop CHUNK rest)).
  { unfold len. rewrite <- Nat2Z.inj_add, <- length_app, take_drop. done. }
  assert (Hd : 0 <= len (drop CHUNK rest)) by (unfold len; lia).
  rewrite bool_decide_eq_false_2 by lia.
  unfold mbind, M_bind, bind, f_write. rewrite Hok. cbn [bind_run].
  set (w1 := set_files _ _).
  destruct (IH (drop CHUNK rest) (total_size + len (take CHUNK rest)) w1
              (acc ++ take CHUNK rest))
    as (w' & Hr & Hj & Hfs & evs & Hl & Hevs).
  - subst w1. cbn [set_files files record]. by rewrite lookup_alter_eq, Hf.
  - lia.
  - pose proof CHUNK_pos. rewrite length_drop.
    destruct rest; [by destruct CHUNK|]. cbn [length] in *. lia.
  - exists w'. split; [exact Hr|]. split; [by rewrite Hj|]. split.
    + rewrite Hfs. subst w1. cbn [set_files files record].
      rewrite <- app_assoc, take_drop. apply map_eq. intros q.
      destruct (decide (q = video_path)) as [->|Hq].
      * by rewrite !lookup_insert_eq.
      * by rewrite !lookup_insert_ne, lookup_alter_ne.
    + exists (EvFs (FsWrite video_path) :: evs). split.
      * rewrite Hl. subst w1. cbn [set_files log record]. by rewrite <- app_assoc.
      * by constructor.
Qed.

(** X8. A submission with a prompt of at most 2000 characters, an
    allowed content type and an upload within the cap, on a file system
    that performs the open and the writes, is accepted: the answer
    carries the fresh identifier and "pending",
    the upload is stored byte for byte under the input path of the job,
    the store gets a pending record with progress 0 and neither output
    handle nor error, and the pipeline is queued, before the sweep,
    with the sanitized prompt and a format of the catalog. *)
Theorem edit_video_accepts (env : Env) (prompt format : str) (video : UploadFile)
    (w : World) (ct : str) :
  len prompt <= 2000 ->
  content_type video = Some ct -> ct ∈ ALLOWED_VIDEO_TYPES ->
  len (body video) <= MAX_FILE_SIZE ->
  fs_error env (FsOpen (input_path_of (uuid4 env))) = None ->
  fs_error env (FsWrite (input_path_of (uuid4 env))) = None ->
  exists w',
    edit_video env prompt format (Some video) w
    = Return (mkAccepted (uuid4 env) pending,
              [TaskProcessVideo (uuid4 env) (input_path_of (uuid4 env))
                 (sanitized_prompt_of prompt) (validate_format format);
               TaskCleanupOldJobs]) w'
    /\ jobs w' = <[uuid4 env := mkJob (uuid4 env) pending 0 None None (time_time env)]> (jobs w)
    /\ files w' = <[input_path_of (uuid4 env) := body video]> (files w).
Proof.
  intros Hlen Hct Hin Hcap Hopen Hwrite. unfold edit_video.
  rewrite bool_decide_eq_false_2 by lia.
  rewrite (accepted_type _ _ Hct Hin).
  unfold mbind, M_bind, bind, try_except. cbn [bind_run ret].
  fold (input_path_of (uuid4 env)). unfold open_wb. rewrite Hopen. cbn [bind_run].
  set (w1 := set_files _ _).
  destruct (save_chunks_saves (S (length (body video))) env (input_path_of (uuid4 env))
              (body video) 0 w1 [])
    as (w2 & Hr & Hj & Hfs & _).
  - exact Hwrite.
  - subst w1. cbn [set_files files record]. apply lookup_insert_eq.
  - lia.
  - lia.
  - rewrite Hr. cbn [catch_run bind_run]. unfold jobs_setitem. eexists. split; [reflexivity|].
    cbn [jobs files record set_jobs]. split; [by rewrite Hj|].
    rewrite Hfs. subst w1. cbn [set_files files record]. cbn [app].
    apply insert_insert_eq.
Qed.

Lemma edit_video_accepts_witness :
  exists w',
    edit_video demo_env (py "make it square") (py "cinema") (Some demo_upload)
      (mkWorld ∅ ∅ [])
    = Return (mkAccepted (py "job-1") pending,
              [TaskProcessVideo (py "job-1") (input_path_of (py "job-1"))
                 (sanitized_prompt_of (py "make it square")) (validate_format (py "cinema"));
               TaskCleanupOldJobs]) w'
    /\ jobs w' = <[py "job-1" := mkJob (py "job-1") pending 0 None None 5000%float]> ∅
    /\ files w' = <[input_path_of (py "job-1") := [x00]]> ∅.
Proof.
  apply (edit_video_accepts demo_env (py "make it square") (py "cinema") demo_upload
           (mkWorld ∅ ∅ []) (py "video/mp4")).
  - vm_compute. discriminate.
  - reflexivity.
  - left.
  - vm_compute. discriminate.
  - reflexivity.
  - reflexivity.
Defined.

(** X9. Two kinds of submissions are refused before anything is done.
    A prompt of more than 2000 characters fails the validation of the
    signature: the framework raises its validation error (answered
    with status 422) and the body of the handler does not run.  A
    submission with a valid prompt but without a video, or with a video
    whose content type is missing or not an allowed one, is answered
    with the client error 400.  In both cases no file is opened, no
    identifier is used, and the world is exactly as it was. *)
Theorem edit_video_rejects_unsaved (env : Env) (prompt format : str)
    (video : option UploadFile) (w : World) :
  (2000 < len prompt ->
   exists errors,
     edit_video env prompt format video w = Raise (RequestValidationError errors) w)
  /\ (len prompt <= 2000 ->
      (forall v ct, video = Some v -> content_type v = Some ct ->
                    ct ∉ ALLOWED_VIDEO_TYPES) ->
      exists detail,
        edit_video env prompt format video w = Raise (HTTPException 400 detail) w).
Proof.
  split.
  - intros Hlong. unfold edit_video. rewrite (bool_decide_eq_true_2 _ Hlong). by eexists.
  - intros Hlen H. unfold edit_video. rewrite bool_decide_eq_false_2 by lia.
    destruct video as [v|]; [|by eexists].
    unfold validate_video_file. destruct (content_type v) as [ct|] eqn:Hct; [|by eexists].
    rewrite (bool_decide_eq_false_2 _ (H v ct eq_refl Hct)).
    rewrite orb_true_r. by eexists.
Qed.

Lemma edit_video_rejects_unsaved_witness :
  exists detail,
    edit_video demo_env (py "make it square") (py "square")
      (Some (mkUpload (Some (py "image/png")) [x00])) (mkWorld ∅ ∅ [])
    = Raise (HTTPException 400 detail) (mkWorld ∅ ∅ []).
Proof.
  apply (proj2 (edit_video_rejects_unsaved demo_env (py "make it square") (py "square")
                  (Some (mkUpload (Some (py "image/png")) [x00])) (mkWorld ∅ ∅ []))).
  - vm_compute. discriminate.
  - intros v ct [= <-] [= <-]. unfold ALLOWED_VIDEO_TYPES.
    rewrite !elem_of_cons, elem_of_nil.
    intros [H|[H|[H|[H|[H|[]]]]]]; revert H; vm_compute; discriminate.
Defined.

(** X10. When the prompt and the content type are valid but the input
    file cannot be opened, or the first write to it fails, the
    submission is answered with the server error 500
    "Failed to save video file" and no record is created.  The handler
    does not remove what it has created: after a failed write the
    (empty) input file is left on disk. *)
Theorem edit_video_save_failure (env : Env) (prompt format : str) (video : UploadFile)
    (w : World) (ct : str) :
  len prompt <= 2000 ->
  content_type video = Some ct -> ct ∈ ALLOWED_VIDEO_TYPES ->
  is_Some (fs_error env (FsOpen (input_path_of (uuid4 env))))
  \/ (body video <> [] /\ is_Some (fs_error env (FsWrite (input_path_of (uuid4 env))))) ->
  exists w',
    edit_video env prompt format (Some video) w
    = Raise (HTTPException 500 (py "Failed to save video file")) w'
    /\ jobs w' = jobs w
    /\ files w' = match fs_error env (FsOpen (input_path_of (uuid4 env))) with
                  | Some _ => files w
                  | None => <[input_path_of (uuid4 env) := []]> (files w)
                  end.
Proof.
  intros Hlen Hct Hin Hfail. unfold edit_video.
  rewrite bool_decide_eq_false_2 by lia.
  rewrite (accepted_type _ _ Hct Hin).
  unfold mbind, M_bind, bind, try_except. cbn [bind_run ret].
  fold (input_path_of (uuid4 env)). unfold open_wb.
  destruct (fs_error env (FsOpen (input_path_of (uuid4 env)))) as [msg|] eqn:Hopen.
  { cbn [bind_run catch_run is_Exception raise]. by eexists. }
  destruct Hfail as [[? [=]]|[Hne [msg Hw]]].
  cbn [bind_run save_chunks].
  rewrite bool_decide_eq_false_2.
  2:{ intros Hnil. by apply take_CHUNK_nil in Hnil. }
  rewrite bool_decide_eq_false_2.
  2:{ unfold len. rewrite length_take. pose proof CHUNK_pos. unfold CHUNK, MAX_FILE_SIZE in *. lia. }
  unfold mbind, M_bind, bind, f_write. rewrite Hw.
  cbn [bind_run catch_run is_Exception raise]. by eexists.
Qed.

Lemma edit_video_save_failure_witness :
  exists w',
    edit_video (with_fs_error (FsWrite (input_path_of (py "job-1"))) (Some (py "No space left on device")) demo_env)
      (py "make it square") (py "square") (Some demo_upload) (mkWorld ∅ ∅ [])
    = Raise (HTTPException 500 (py "Failed to save video file")) w'
    /\ jobs w' = ∅
    /\ files w' = <[input_path_of (py "job-1") := []]> ∅.
Proof.
  apply (edit_video_save_failure
           (with_fs_error (FsWrite (input_path_of (py "job-1"))) (Some (py "No space left on device")) demo_env)
           (py "make it square") (py "square") demo_upload (mkWorld ∅ ∅ []) (py "video/mp4")).
  - vm_compute. discriminate.
  - reflexivity.
  - left.
  - right. split; [discriminate|]. vm_compute. by eexists.
Defined.

(** ** Paths *)

Lemma output_path_of_inj i i' : output_path_of i = output_path_of i' -> i = i'.
Proof.
  unfold output_path_of, TEMP_DIR. intros H. apply app_inv_head in H.
  by apply app_inv_tail in H.
Qed.

Lemma input_path_of_inj i i' : input_path_of i = input_path_of i' -> i = i'.
Proof.
  unfold input_path_of, TEMP_DIR. intros H. apply app_inv_head in H.
  by apply app_inv_tail in H.
Qed.

Lemma input_not_output i i' : input_path_of i <> output_path_of i'.
Proof.
  unfold input_path_of, output_path_of, TEMP_DIR. intros H. apply app_inv_head in H.
  apply (f_equal reverse) in H. rewrite !reverse_app in H.
  change (reverse (py "_input.mp4")) with (reverse (py "_input.mp4") ++ []) in H.
  revert H. generalize (reverse i) (reverse i'). intros a b.
  vm_compute. intros H. discriminate H.
Qed.

(** ** The files a run touches *)

Lemma Touches_refl p w : Touches p w w.
Proof. by intros q _. Qed.

Lemma Touches_trans p w1 w2 w3 : Touches p w1 w2 -> Touches p w2 w3 -> Touches p w1 w3.
Proof. intros H1 H2 q Hq. by rewrite (H2 q Hq), (H1 q Hq). Qed.

Lemma ends_touching_bind {A B} p w (r : Run A) (f : A -> M B) :
  ends_touching p w r ->
  (forall a w', Touches p w w' -> ends_touching p w (f a w')) ->
  ends_touching p w (bind_run r f).
Proof. intros Hr Hf. destruct r; cbn in *; [by apply Hf|exact Hr|exact Hr]. Qed.

Lemma ends_touching_catch {A} p w (r : Run A) (h : Exn -> option (M A)) :
  ends_touching p w r ->
  (forall e m w', h e = Some m -> Touches p w w' -> ends_touching p w (m w')) ->
  ends_touching p w (catch_run r h).
Proof.
  intros Hr Hh. destruct r as [a w'|e w'|]; cbn in *; [exact Hr| |exact Hr].
  destruct (h e) as [m|] eqn:He; [by eapply Hh|exact Hr].
Qed.

Lemma ends_touching_mono {A} p w w' (r : Run A) :
  Touches p w w' -> ends_touching p w' r -> ends_touching p w r.
Proof. intros Q. destruct r; cbn; [apply Touches_trans, Q..|done]. Qed.

Lemma fs_delete_touches env call path w : ends_touching path w (fs_delete env call path w).
Proof.
  unfold fs_delete. destruct (fs_error env call); cbn; [by intros q Hq|].
  destruct (files w !! path); cbn; [|by intros q Hq].
  intros q Hq. cbn. by apply lookup_delete_ne.
Qed.

Lemma open_wb_touches env path w : ends_touching path w (open_wb env path w).
Proof.
  unfold open_wb. destruct (fs_error env _); cbn; [by intros q Hq|].
  intros q Hq. cbn. by apply lookup_insert_ne.
Qed.

Lemma f_write_touches env path chunk w : ends_touching path w (f_write env path chunk w).
Proof.
  unfold f_write. destruct (fs_error env _); cbn; [by intros q Hq|].
  intros q Hq. cbn. by apply lookup_alter_ne.
Qed.

Lemma save_chunks_touches fuel env video_path rest total_size w :
  ends_touching video_path w (save_chunks fuel env video_path rest total_size w).
Proof.
  revert rest total_size w. induction fuel as [|fuel IH]; intros rest total_size w.
  - apply Touches_refl.
  - cbn [save_chunks]. destruct (bool_decide (take CHUNK rest = [])); [apply Touches_refl|].
    destruct (bool_decide _).
    + unfold mbind, M_bind, bind. apply ends_touching_bind; [apply fs_delete_touches|].
      intros _ w' Q. exact Q.
    + unfold mbind, M_bind, bind. apply ends_touching_bind; [apply f_write_touches|].
      intros _ w' Q. eapply ends_touching_mono; [exact Q|apply IH].
Qed.

(** The handler touches no file but the input file of the job it creates. *)
Lemma edit_video_touches env prompt format video w :
  ends_touching (input_path_of (uuid4 env)) w (edit_video env prompt format video w).
Proof.
  unfold edit_video. destruct (bool_decide (2000 < len prompt)); [apply Touches_refl|].
  destruct video as [video|]; [|apply Touches_refl].
  unfold validate_video_file.
  match goal with |- context [if ?b then raise _ else ret tt] => destruct b end;
    [apply Touches_refl|].
  unfold mbind, M_bind, bind. cbn [bind_run ret].
  fold (input_path_of (uuid4 env)).
  apply ends_touching_bind.
  - unfold try_except. apply ends_touching_catch.
    + apply ends_touching_bind; [apply open_wb_touches|].
      intros _ w' Q. eapply ends_touching_mono; [exact Q|apply save_chunks_touches].
    + intros e m w' He Q.
      destruct e; cbn in He; try discriminate He; injection He as <-; exact Q.
  - intros _ w' Q. cbn. exact Q.
Qed.

Lemma cleanup_input_touches env video_path w :
  Touches video_path w (cleanup_input env video_path w).
Proof.
  unfold cleanup_input. destruct (files w !! video_path); [|apply Touches_refl].
  destruct (fs_error env _); [by intros q Hq|].
  intros q Hq. cbn. by apply lookup_delete_ne.
Qed.

(** Lines 160-208 and the [finally] block touch the input file and
    the output file of the job, and no other. *)
Lemma after_advisor_files env i video_path output_format w q :
  q <> video_path -> q <> output_path_of i ->
  files (world_of (after_advisor env i video_path output_format w)) !! q = files w !! q.
Proof.
  intros Hq1 Hq2. unfold after_advisor. destruct (jobs w !! i) as [j|]; cbn [world_of].
  - rewrite (cleanup_input_touches _ _ _ q Hq1). cbn [files].
    destruct (ff_written _); [by apply lookup_insert_ne|done].
  - by rewrite (cleanup_input_touches _ _ _ q Hq1).
Qed.

Lemma resumed_files env i video_path output_format rep w q :
  q <> video_path -> q <> output_path_of i ->
  files (world_of (resumed env i video_path output_format rep w)) !! q = files w !! q.
Proof.
  intros Hq1 Hq2. unfold resumed. destruct rep as [text|e].
  - destruct (jobs w !! i); by rewrite after_advisor_files.
  - destruct (is_Exception e); [by rewrite after_advisor_files|].
    cbn [world_of]. by rewrite (cleanup_input_touches _ _ _ q Hq1).
Qed.

Lemma process_video_files env i video_path prompt output_format w q :
  q <> video_path -> q <> output_path_of i ->
  files (world_of (process_video env i video_path prompt output_format w)) !! q
  = files w !! q.
Proof.
  intros Hq1 Hq2. destruct (jobs w !! i) as [j|] eqn:Hj.
  - destruct (api_key env) as [key|] eqn:Hk.
    + destruct (process_video_key env i video_path prompt output_format w j key Hj Hk)
        as (k & -> & _). reflexivity.
    + rewrite (process_video_no_key _ _ _ _ _ _ _ Hj Hk). by rewrite after_advisor_files.
  - rewrite (process_video_evicted _ _ _ _ _ _ Hj). cbn [world_of].
    by rewrite (cleanup_input_touches _ _ _ q Hq1).
Qed.

(** ** What the records hold, and the files behind them *)

Lemma record_sound_files fs fs' i j :
  record_sound fs i j ->
  (is_Some (fs !! output_path_of i) -> is_Some (fs' !! output_path_of i)) ->
  record_sound fs' i j.
Proof. intros [Hid Hc] Hf. split; [exact Hid|]. intros Hs. destruct (Hc Hs). auto. Qed.

Lemma ending_sound i exit fs j :
  j_id j = i -> record_sound fs i (ending i exit fs j).1.
Proof.
  intros Hid. unfold ending. destruct exit as [|stderr|msg].
  - destruct (bool_decide (is_Some (fs !! output_path_of i))) eqn:E.
    + apply bool_decide_eq_true_1 in E. split; [exact Hid|]. intros _. by split.
    + split; [exact Hid|]. intros H. discriminate H.
  - split; [exact Hid|]. intros H. discriminate H.
  - split; [exact Hid|]. intros H. discriminate H.
Qed.

Lemma store_sound_cleanup env i w :
  store_sound w -> store_sound (cleanup_input env (input_path_of i) w).
Proof.
  intros H i' j'. rewrite jobs_cleanup. intros Hj'.
  eapply record_sound_files; [by apply H|].
  rewrite (cleanup_input_touches env (input_path_of i) w); [done|].
  intros E. by apply (input_not_output i i').
Qed.

Lemma store_sound_log w l :
  store_sound w -> store_sound (mkWorld (jobs w) (files w) l).
Proof. intros H i j. apply H. Qed.

Lemma after_advisor_sound env i output_format w :
  store_sound w ->
  store_sound (world_of (after_advisor env i (input_path_of i) output_format w)).
Proof.
  intros H. unfold after_advisor. destruct (jobs w !! i) as [j|] eqn:Hj; cbn [world_of].
  - cbn zeta. set (res := ffmpeg_run _ _ _).
    set (fs := match ff_written res with Some _ => _ | None => _ end).
    assert (Hfs : forall i', is_Some (files w !! output_path_of i') ->
                             is_Some (fs !! output_path_of i')).
    { intros i' Hs. subst fs. destruct (ff_written res); [|exact Hs].
      destruct (decide (output_path_of i = output_path_of i')) as [->|Hne].
      - rewrite lookup_insert_eq. by eexists.
      - by rewrite lookup_insert_ne. }
    apply store_sound_cleanup. intros i' j'. cbn [jobs files].
    destruct (decide (i' = i)) as [->|Hne].
    + rewrite lookup_insert_eq. intros [= <-]. apply ending_sound. by apply (H i j).
    + rewrite lookup_insert_ne by done. intros Hj'.
      eapply record_sound_files; [by apply H|apply Hfs].
  - by apply store_sound_cleanup.
Qed.

Lemma store_sound_print msg w : store_sound w -> store_sound (record (EvPrint msg) w).
Proof. intros H i j. apply H. Qed.

Lemma resumed_sound env i output_format rep w :
  store_sound w ->
  store_sound (world_of (resumed env i (input_path_of i) output_format rep w)).
Proof.
  intros H. unfold resumed. destruct rep as [text|e].
  - destruct (jobs w !! i); apply after_advisor_sound; [exact H|by apply store_sound_print].
  - destruct (is_Exception e).
    + apply after_advisor_sound. by apply store_sound_print.
    + cbn [world_of]. by apply store_sound_cleanup.
Qed.

Lemma store_sound_started i j evs w :
  jobs w !! i = Some j -> store_sound w -> store_sound (started i j evs w).
Proof.
  intros Hj H i' j'. unfold started. cbn [jobs files].
  destruct (decide (i' = i)) as [->|Hne].
  - rewrite lookup_insert_eq. intros [= <-]. split; [by apply (H i j)|].
    intros Hs. discriminate Hs.
  - rewrite lookup_insert_ne by done. apply H.
Qed.

Lemma process_video_sound env i prompt output_format w :
  store_sound w ->
  store_sound (world_of (process_video env i (input_path_of i) prompt output_format w)).
Proof.
  intros H. destruct (jobs w !! i) as [j|] eqn:Hj.
  - destruct (api_key env) as [key|] eqn:Hk.
    + destruct (process_video_key env i (input_path_of i) prompt output_format w j key Hj Hk)
        as (k & -> & _). cbn [world_of]. by apply store_sound_started.
    + rewrite (process_video_no_key _ _ _ _ _ _ _ Hj Hk).
      apply after_advisor_sound, store_sound_print. by apply store_sound_started.
  - rewrite (process_video_evicted _ _ _ _ _ _ Hj). cbn [world_of].
    by apply store_sound_cleanup.
Qed.

Lemma edit_video_sound env prompt format video w :
  store_sound w -> store_sound (world_of (edit_video env prompt format video w)).
Proof.
  intros H. pose proof (edit_video_touches env prompt format video w) as Ht.
  destruct (edit_video_cases env prompt format video w)
    as [(e & w' & Hr & [Hj _])|(fmt & w1 & [Hj _] & Hr)]; rewrite Hr in Ht |- *;
    cbn [world_of ends_touching] in *.
  - intros i j. rewrite Hj. intros Hij.
    eapply record_sound_files; [by apply H|].
    rewrite Ht; [done|]. intros E. by apply (input_not_output (uuid4 env) i).
  - intros i j. cbn [jobs files record set_jobs].
    destruct (decide (i = uuid4 env)) as [->|Hne].
    + rewrite lookup_insert_eq. intros [= <-]. split; [reflexivity|].
      intros Hs. discriminate Hs.
    + rewrite lookup_insert_ne by done. rewrite Hj. intros Hij.
      eapply record_sound_files; [by apply H|].
      specialize (Ht (output_path_of i)). cbn [files record set_jobs] in Ht.
      rewrite Ht; [done|]. intros E. by apply (input_not_output (uuid4 env) i).
Qed.

(** The sweep removes no file but the output of a record it evicts. *)
Lemma cleanup_loop_files env now l w w' :
  NoDup l.*1 ->
  (forall i job, (i, job) ∈ l -> is_Some (jobs w !! i)) ->
  for_each l (cleanup_job env now) w = Return tt w' ->
  forall p, files w' !! p = files w !! p
            \/ exists i job, (i, job) ∈ l /\ expired now job = true /\ p = output_path_of i.
Proof.
  revert w. induction l as [|[i0 job0] l IH]; intros w Hnd Hin Hr p.
  - cbn in Hr. injection Hr as <-. by left.
  - cbn [fmap list_fmap fst] in Hnd. apply NoDup_cons in Hnd as [Hni Hnd].
    cbn [for_each] in Hr. unfold mbind, M_bind, bind in Hr.
    destruct (expired now job0) eqn:Hexp.
    + destruct (cleanup_job_expired env now i0 job0 w Hexp (Hin i0 job0 (list_elem_of_here _ _)))
        as (w1 & Hr1 & Hj1 & Hf1 & _).
      rewrite Hr1 in Hr. cbn [bind_run] in Hr.
      destruct (IH w1 Hnd) with (p := p) as [Hp|(i & job & Hel & He & ->)]; [|exact Hr| |].
      * intros i job Hel. rewrite Hj1.
        assert (i <> i0).
        { intros ->. apply Hni. apply list_elem_of_fmap. by exists (i0, job). }
        rewrite lookup_delete_ne by done. apply (Hin i job). by right.
      * rewrite Hp. destruct Hf1 as [-> | ->]; [by left|].
        destruct (decide (output_path_of i0 = p)) as [<-|Hne].
        -- right. exists i0, job0. split; [by left|]. done.
        -- left. by apply lookup_delete_ne.
      * right. exists i, job. split; [by right|]. done.
    + assert (Hr1 : cleanup_job env now (i0, job0) w = Return tt w).
      { unfold cleanup_job. by rewrite Hexp. }
      rewrite Hr1 in Hr. cbn [bind_run] in Hr.
      destruct (IH w Hnd) with (p := p) as [Hp|(i & job & Hel & He & ->)]; [|exact Hr| |].
      * intros i job Hel. apply (Hin i job). by right.
      * by left.
      * right. exists i, job. split; [by right|]. done.
Qed.

Lemma cleanup_old_jobs_files env w p :
  files (world_of (cleanup_old_jobs env w)) !! p = files w !! p
  \/ exists i job, jobs w !! i = Some job /\ expired (time_time env) job = true
                   /\ p = output_path_of i.
Proof.
  destruct (cleanup_old_jobs_spec env w) as (w' & Hr & _). rewrite Hr. cbn [world_of].
  unfold cleanup_old_jobs, mbind, M_bind, bind, get_world in Hr. cbn [bind_run] in Hr.
  destruct (cleanup_loop_files env (time_time env) (map_to_list (jobs w)) w w') with (p := p)
    as [Hp|(i & job & Hel & He & ->)].
  - apply NoDup_fst_map_to_list.
  - intros i job Hel. apply elem_of_map_to_list in Hel. eauto.
  - exact Hr.
  - by left.
  - right. exists i, job. by apply elem_of_map_to_list in Hel.
Qed.

Lemma cleanup_old_jobs_sound env w :
  store_sound w -> store_sound (world_of (cleanup_old_jobs env w)).
Proof.
  intros H. destruct (cleanup_old_jobs_spec env w) as (w' & Hr & Hj & Hn & _).
  pose proof (cleanup_old_jobs_files env w) as Hf. rewrite Hr in Hf |- *.
  cbn [world_of] in *. intros i j Hij.
  destruct (jobs w !! i) as [j0|] eqn:Hj0; [|rewrite (Hn i Hj0) in Hij; discriminate Hij].
  rewrite (Hj i j0 Hj0) in Hij.
  destruct (expired (time_time env) j0) eqn:He; [discriminate Hij|]. injection Hij as <-.
  eapply record_sound_files; [by apply H|].
  destruct (Hf (output_path_of i)) as [-> |(i' & job' & Hj' & He' & Heq)]; [done|].
  apply output_path_of_inj in Heq. subst i'. congruence.
Qed.

Lemma task_of_spawn env_bg u prompt fmt ts :
  (forall i t, ts !! i = Some t -> task_of i t) ->
  forall i t,
    spawn env_bg [TaskProcessVideo u (TEMP_DIR (u ++ py "_input.mp4")) prompt fmt;
                  TaskCleanupOldJobs] ts !! i = Some t ->
    task_of i t.
Proof.
  intros H i t. cbn [spawn foldr]. destruct (decide (i = u)) as [->|Hne].
  - rewrite lookup_insert_eq. intros [= <-]. cbn. by eexists _, _, _.
  - rewrite lookup_insert_ne by done. apply H.
Qed.

Lemma task_of_advance s i0 r :
  (forall i t, tasks s !! i = Some t -> task_of i t) ->
  (forall req w k, r = Await req w k -> task_of i0 (Suspended req k)) ->
  forall i t, tasks (advance i0 r s) !! i = Some t -> task_of i t.
Proof.
  intros H Hr i t. unfold advance. cbn [tasks].
  destruct r as [a w|e w|req w k]; cbn [settle].
  - destruct (decide (i = i0)) as [->|Hne];
      [by rewrite lookup_delete_eq|rewrite lookup_delete_ne by done; apply H].
  - destruct (decide (i = i0)) as [->|Hne];
      [by rewrite lookup_delete_eq|rewrite lookup_delete_ne by done; apply H].
  - destruct (decide (i = i0)) as [->|Hne].
    + rewrite lookup_insert_eq. intros [= <-]. by eapply Hr.
    + rewrite lookup_insert_ne by done. apply H.
Qed.

(** The records and the tasks are sound in every state of the process. *)
Lemma reachable_sound s : reachable s -> system_sound s.
Proof.
  induction 1 as [fs|s s' _ [Hw Ht] Hstep].
  - split; [intros i j; cbn; by rewrite lookup_empty|].
    intros i t. cbn. by rewrite lookup_empty.
  - destruct Hstep as [s env env_bg prompt format video Hfresh|s i0 m Hq|s i0 req k rep Hq|s env].
    + pose proof (edit_video_sound env prompt format video (world s) Hw) as Hs.
      unfold submit.
      destruct (edit_video_cases env prompt format video (world s))
        as [(e & w' & Hr & _)|(fmt & w1 & _ & Hr)]; rewrite Hr in Hs |- *.
      * split; [exact Hs|exact Ht].
      * split; [exact Hs|]. cbn [tasks]. by apply task_of_spawn.
    + destruct (Ht i0 _ Hq) as (env & prompt & fmt & ->).
      split; [apply process_video_sound, Hw|].
      apply task_of_advance; [exact Ht|]. intros req w k Hr. cbn. by eexists _, _, _, _, _.
    + destruct (Ht i0 _ Hq) as (env & prompt & fmt & w0 & w1 & Hk).
      cbn [world advance].
      rewrite (continuation_spec _ _ _ _ _ _ _ _ _ Hk).
      split; [apply resumed_sound, Hw|].
      intros i t. unfold advance. cbn [tasks].
      rewrite <- (continuation_spec _ _ _ _ _ _ _ _ _ Hk rep (world s)).
      pose proof (resume_cases env i0 (input_path_of i0) prompt fmt w0 req w1 k rep (world s) Hk)
        as Hc.
      assert (Hs : settle (k rep (world s)) = None).
      { destruct (jobs (world s) !! i0).
        - destruct Hc as [(? & ? & ? & ? & -> & _)|(? & ? & -> & _)]; reflexivity.
        - destruct Hc as (? & ? & -> & _). reflexivity. }
      rewrite Hs. destruct (decide (i = i0)) as [->|Hne];
        [by rewrite lookup_delete_eq|rewrite lookup_delete_ne by done; apply Ht].
    + split; [apply cleanup_old_jobs_sound, Hw|exact Ht].
Qed.

(** ** The status and download endpoints *)

Lemma get_job_status_eq uuid_UUID job_id w :
  get_job_status uuid_UUID job_id w
  = match uuid_UUID job_id with
    | Some _ => Raise (HTTPException 400 (py "Invalid job ID format")) w
    | None =>
        match jobs w !! job_id with
        | Some j =>
            Return (mkStatusReport (j_id j) (status j) (progress j) (output_url j) (error j)) w
        | None => Raise (HTTPException 404 (py "Job not found")) w
        end
    end.
Proof.
  unfold get_job_status, parse_uuid, mbind, M_bind, bind, try_except, jobs_contains,
    jobs_getitem.
  destruct (uuid_UUID job_id) as [msg|]; [reflexivity|]. cbn [catch_run bind_run ret].
  destruct (jobs w !! job_id) as [j|] eqn:Hj.
  - rewrite bool_decide_eq_true_2 by eauto. cbn [negb bind_run ret]. by rewrite Hj.
  - rewrite bool_decide_eq_false_2 by (intros [? ?]; discriminate). reflexivity.
Qed.

Lemma download_video_eq uuid_UUID job_id w :
  download_video uuid_UUID job_id w
  = match uuid_UUID job_id with
    | Some _ => Raise (HTTPException 400 (py "Invalid job ID format")) w
    | None =>
        match jobs w !! job_id with
        | Some j =>
            if bool_decide (status j = completed) then
              if bool_decide (is_Some (files w !! output_path_of job_id)) then
                Return (mkFileResponse (output_path_of job_id) (py "video/mp4")
                          (py "edited_video_" ++ take 8 job_id ++ py ".mp4")) w
              else Raise (HTTPException 404 (py "Output file not found")) w
            else Raise (HTTPException 400 (py "Video processing not complete")) w
        | None => Raise (HTTPException 404 (py "Job not found")) w
        end
    end.
Proof.
  unfold download_video, parse_uuid, mbind, M_bind, bind, try_except, jobs_contains,
    jobs_getitem, path_exists.
  destruct (uuid_UUID job_id) as [msg|]; [reflexivity|]. cbn [catch_run bind_run ret].
  destruct (jobs w !! job_id) as [j|] eqn:Hj.
  - rewrite bool_decide_eq_true_2 by eauto. cbn [negb bind_run ret]. rewrite Hj.
    cbn [bind_run]. destruct (bool_decide (status j = completed)); [|reflexivity].
    cbn [negb bind_run ret]. fold (output_path_of job_id).
    destruct (bool_decide (is_Some (files w !! output_path_of job_id))); reflexivity.
  - rewrite bool_decide_eq_false_2 by (intros [? ?]; discriminate). reflexivity.
Qed.

(** X11. In every state of the process a status query with a
    well-formed identifier is answered from the record stored under
    that identifier: the identifier reported is the one asked for, the
    other four fields are those of the record, and the answer is 404
    "Job not found" exactly when no record is stored.  The query
    changes nothing. *)
Theorem status_query_reports_record (s : System) (uuid_UUID : str -> option str)
    (job_id : str) :
  reachable s -> uuid_UUID job_id = None ->
  get_job_status uuid_UUID job_id (world s)
  = match jobs (world s) !! job_id with
    | Some j =>
        Return (mkStatusReport job_id (status j) (progress j) (output_url j) (error j))
               (world s)
    | None => Raise (HTTPException 404 (py "Job not found")) (world s)
    end.
Proof.
  intros Hr Hu. rewrite get_job_status_eq, Hu.
  destruct (jobs (world s) !! job_id) as [j|] eqn:Hj; [|reflexivity].
  destruct (reachable_sound s Hr) as [Hs _]. destruct (Hs job_id j Hj) as [-> _].
  reflexivity.
Qed.

Lemma status_query_reports_record_witness :
  get_job_status (fun _ => None) (py "job-1") (world demo_done)
  = match jobs (world demo_done) !! py "job-1" with
    | Some j =>
        Return (mkStatusReport (py "job-1") (status j) (progress j) (output_url j) (error j))
               (world demo_done)
    | None => Raise (HTTPException 404 (py "Job not found")) (world demo_done)
    end.
Proof.
  apply (status_query_reports_record demo_done (fun _ => None) (py "job-1") demo_reachable).
  reflexivity.
Defined.

(** X12. The download endpoint never changes the world, and it serves
    a file only for a well-formed identifier under which a completed
    record is stored and whose output file is on disk; what it serves
    then is that output file, as video/mp4, under a name made of the
    first eight characters of the identifier.  In every other case it
    raises an HTTP error 400 or 404. *)
Theorem download_serves_completed_only (uuid_UUID : str -> option str) (job_id : str)
    (w : World) :
  let r := download_video uuid_UUID job_id w in
  world_of r = w
  /\ (forall resp w', r = Return resp w' ->
        uuid_UUID job_id = None
        /\ (exists j, jobs w !! job_id = Some j /\ status j = completed)
        /\ is_Some (files w !! output_path_of job_id)
        /\ resp = mkFileResponse (output_path_of job_id) (py "video/mp4")
                    (py "edited_video_" ++ take 8 job_id ++ py ".mp4"))
  /\ (forall e w', r = Raise e w' ->
        exists code detail, e = HTTPException code detail /\ (code = 400 \/ code = 404))
  /\ is_Await r = false.
Proof.
  cbn zeta. rewrite download_video_eq.
  destruct (uuid_UUID job_id) as [msg|].
  { split; [done|]. split; [discriminate|]. split; [|done].
    intros e w' [= <- <-]. eexists _, _. eauto. }
  destruct (jobs w !! job_id) as [j|].
  2:{ split; [done|]. split; [discriminate|]. split; [|done].
      intros e w' [= <- <-]. eexists _, _. eauto. }
  destruct (bool_decide (status j = completed)) eqn:Hs.
  2:{ split; [done|]. split; [discriminate|]. split; [|done].
      intros e w' [= <- <-]. eexists _, _. eauto. }
  apply bool_decide_eq_true_1 in Hs.
  destruct (bool_decide (is_Some (files w !! output_path_of job_id))) eqn:Hf.
  2:{ split; [done|]. split; [discriminate|]. split; [|done].
      intros e w' [= <- <-]. eexists _, _. eauto. }
  apply bool_decide_eq_true_1 in Hf.
  split; [done|]. split; [|split; [discriminate|done]].
  intros resp w' [= <- <-]. split; [done|]. split; [by exists j|]. done.
Qed.

(** X13. In every state of the process a completed job can be
    downloaded: for a well-formed identifier under which a completed
    record is stored, the download endpoint returns the output file of
    the job (it never answers "Output file not found"), and the output
    handle stored in the record is the URL of that download. *)
Theorem completed_job_is_downloadable (s : System) (uuid_UUID : str -> option str)
    (job_id : str) (j : Job) :
  reachable s -> uuid_UUID job_id = None ->
  jobs (world s) !! job_id = Some j -> status j = completed ->
  download_video uuid_UUID job_id (world s)
  = Return (mkFileResponse (output_path_of job_id) (py "video/mp4")
              (py "edited_video_" ++ take 8 job_id ++ py ".mp4")) (world s)
  /\ output_url j = Some (py "/api/download/" ++ job_id).
Proof.
  intros Hr Hu Hj Hs. destruct (reachable_sound s Hr) as [Hw _].
  destruct (Hw job_id j Hj) as [_ Hc]. destruct (Hc Hs) as [Hurl Hf].
  split; [|exact Hurl]. rewrite download_video_eq, Hu, Hj.
  by rewrite !bool_decide_eq_true_2.
Qed.

Lemma completed_job_is_downloadable_witness :
  download_video (fun _ => None) (py "job-1") (world demo_done)
  = Return (mkFileResponse (output_path_of (py "job-1")) (py "video/mp4")
              (py "edited_video_" ++ take 8 (py "job-1") ++ py ".mp4")) (world demo_done)
  /\ output_url (mkJob (py "job-1") completed 100
                   (Some (py "/api/download/" ++ py "job-1")) None 5000%float)
     = Some (py "/api/download/" ++ py "job-1").
Proof.
  apply (completed_job_is_downloadable demo_done (fun _ => None) (py "job-1")
           (mkJob (py "job-1") completed 100
              (Some (py "/api/download/" ++ py "job-1")) None 5000%float)
           demo_reachable).
  - reflexivity.
  - vm_compute. reflexivity.
  - reflexivity.
Defined.

(** ** The retention sweep and the other jobs *)

(** X14. A sweep always returns, and it touches nothing but the
    records it evicts and their output files: a record younger than
    the retention window is kept as it is, with its output file; no
    input file is removed; and a file that has changed is the output
    file of a record that was evicted. *)
Theorem sweep_spares_the_rest (env : Env) (w : World) :
  let r := cleanup_old_jobs env w in
  (exists w', r = Return tt w')
  /\ (forall i job, jobs w !! i = Some job -> expired (time_time env) job = false ->
        jobs (world_of r) !! i = Some job
        /\ files (world_of r) !! output_path_of i = files w !! output_path_of i)
  /\ (forall i, files (world_of r) !! input_path_of i = files w !! input_path_of i)
  /\ (forall p, files (world_of r) !! p <> files w !! p ->
        exists i job, jobs w !! i = Some job /\ expired (time_time env) job = true
                      /\ p = output_path_of i /\ jobs (world_of r) !! i = None).
Proof.
  cbn zeta. pose proof (cleanup_old_jobs_files env w) as Hf.
  destruct (cleanup_old_jobs_spec env w) as (w' & Hr & Hj & _).
  rewrite Hr in Hf |- *. cbn [world_of] in *.
  split; [by eexists|]. split; [|split].
  - intros i job Hi He. split; [by rewrite (Hj i job Hi), He|].
    destruct (Hf (output_path_of i)) as [-> |(i' & job' & Hi' & He' & Heq)]; [done|].
    apply output_path_of_inj in Heq. subst i'. congruence.
  - intros i. destruct (Hf (input_path_of i)) as [-> |(i' & job' & _ & _ & Heq)]; [done|].
    by apply input_not_output in Heq.
  - intros p Hp. destruct (Hf p) as [Heq|(i & job & Hi & He & ->)]; [done|].
    exists i, job. split; [exact Hi|]. split; [exact He|]. split; [done|].
    by rewrite (Hj i job Hi), He.
Qed.

Lemma process_video_others env i video_path prompt output_format w i' :
  i' <> i ->
  jobs (world_of (process_video env i video_path prompt output_format w)) !! i'
  = jobs w !! i'.
Proof.
  intros Hne. pose proof (start_cases env i video_path prompt output_format w) as H.
  cbn zeta in H. destruct (jobs w !! i) as [j|].
  - destruct H as [(sw & pw & j' & w' & -> & _ & E)|(req & w' & k & -> & E)];
      cbn [world_of]; by apply (eff_others _ _ _ _ _ _ E).
  - destruct H as (w' & -> & E). cbn [world_of]. by apply (eff_others _ _ _ _ _ _ E).
Qed.

Lemma continuation_others env i video_path prompt output_format w0 req w1 k rep w i' :
  process_video env i video_path prompt output_format w0 = Await req w1 k ->
  i' <> i ->
  jobs (world_of (k rep w)) !! i' = jobs w !! i'.
Proof.
  intros Hk Hne.
  pose proof (resume_cases env i video_path prompt output_format w0 req w1 k rep w Hk) as H.
  destruct (jobs w !! i) as [j|].
  - destruct H as [(sw & pw & j' & w' & -> & _ & E)|(e & w' & -> & _ & E)];
      cbn [world_of]; by apply (eff_others _ _ _ _ _ _ E).
  - destruct H as (e & w' & -> & E). cbn [world_of]. by apply (eff_others _ _ _ _ _ _ E).
Qed.

(** X15. A record that is completed or failed is final: no step of
    the process changes it.  After any step it is either still in the
    store, exactly as it was, or it is gone, and it is gone only when
    the step was a retention sweep for which the record had expired. *)
Theorem terminal_record_is_final (s s' : System) (job_id : str) (j : Job) :
  reachable s -> step s s' ->
  jobs (world s) !! job_id = Some j ->
  status j = completed \/ status j = failed ->
  (jobs (world s') !! job_id = Some j \/ jobs (world s') !! job_id = None)
  /\ (jobs (world s') !! job_id = None ->
      exists env, s' = sweep env s /\ expired (time_time env) j = true).
Proof.
  intros Hr Hstep Hj Hterm. pose proof (reachable_inv s Hr job_id) as Hinv.
  assert (Hkeep : jobs (world s') !! job_id = Some j \/
                  exists env, s' = sweep env s /\ expired (time_time env) j = true
                              /\ jobs (world s') !! job_id = None).
  { destruct (inv_record _ _ Hinv j Hj) as (Hlast & _ & _).
    destruct Hstep as [s env env_bg prompt format video Hfresh|s i0 m Hq|s i0 req k rep Hq|s env].
    - left. assert (Hne : job_id <> uuid4 env).
      { intros ->. destruct (inv_fresh _ _ Hinv Hfresh) as (_ & _ & _ & Hn). congruence. }
      unfold submit.
      destruct (edit_video_cases env prompt format video (world s))
        as [(e & w' & -> & [Hjobs _])|(fmt & w1 & [Hjobs _] & ->)]; cbn [world world_of].
      + by rewrite Hjobs.
      + cbn [jobs record set_jobs]. rewrite lookup_insert_ne by done. by rewrite Hjobs.
    - left. pose proof (inv_phase _ _ (reachable_inv s Hr i0)) as Hph. rewrite Hq in Hph.
      destruct Hph as ((env & vp & prompt & fmt & ->) & Hsw & _).
      destruct (decide (job_id = i0)) as [->|Hne].
      + rewrite Hsw in Hlast. cbn in Hlast. destruct Hterm; congruence.
      + cbn [world advance]. by rewrite process_video_others.
    - left. pose proof (inv_phase _ _ (reachable_inv s Hr i0)) as Hph. rewrite Hq in Hph.
      destruct Hph as ((env & vp & prompt & fmt & w0 & w1 & Hk) & Hsw & _).
      destruct (decide (job_id = i0)) as [->|Hne].
      + rewrite Hsw in Hlast. cbn in Hlast. destruct Hterm; congruence.
      + cbn [world advance]. by rewrite (continuation_others _ _ _ _ _ _ _ _ _ _ _ _ Hk).
    - destruct (cleanup_old_jobs_spec env (world s)) as (w' & Hrun & Hjobs & _).
      unfold sweep at 1. cbn [world]. rewrite Hrun. cbn [world_of].
      rewrite (Hjobs job_id j Hj). destruct (expired (time_time env) j) eqn:He; [|by left].
      right. exists env. split; [reflexivity|]. split; [exact He|].
      unfold sweep. cbn [world]. rewrite Hrun. cbn [world_of].
      by rewrite (Hjobs job_id j Hj), He. }
  destruct Hkeep as [H|(env & -> & He & Hn)].
  - split; [by left|]. intros Hn. congruence.
  - split; [by right|]. intros _. by exists env.
Qed.

Lemma terminal_record_is_final_witness :
  (jobs (world (sweep demo_env demo_done)) !! py "job-1"
   = Some (mkJob (py "job-1") completed 100
             (Some (py "/api/download/" ++ py "job-1")) None 5000%float)
   \/ jobs (world (sweep demo_env demo_done)) !! py "job-1" = None)
  /\ (jobs (world (sweep demo_env demo_done)) !! py "job-1" = None ->
      exists env, sweep demo_env demo_done = sweep env demo_done
                  /\ expired (time_time env)
                       (mkJob (py "job-1") completed 100
                          (Some (py "/api/download/" ++ py "job-1")) None 5000%float) = true).
Proof.
  apply (terminal_record_is_final demo_done (sweep demo_env demo_done) (py "job-1")
           (mkJob (py "job-1") completed 100
              (Some (py "/api/download/" ++ py "job-1")) None 5000%float)
           demo_reachable (step_sweep demo_done demo_env)).
  - vm_compute. reflexivity.
  - left. reflexivity.
Defined.

(** X16. The pipeline of one job leaves the other jobs alone: when a
    task of the event loop runs its next stretch (from its start, or
    from its [await] with any reply), the record, the input file and
    the output file of every other job are as they were. *)
Theorem pipelines_are_isolated (s : System) (running : str) (t : Task) (rep : Reply)
    (job_id : str) :
  reachable s -> tasks s !! running = Some t -> job_id <> running ->
  let s' := advance running (run_task t rep (world s)) s in
  step s s'
  /\ jobs (world s') !! job_id = jobs (world s) !! job_id
  /\ files (world s') !! input_path_of job_id = files (world s) !! input_path_of job_id
  /\ files (world s') !! output_path_of job_id = files (world s) !! output_path_of job_id.
Proof.
  intros Hr Ht Hne. cbn zeta. cbn [world advance].
  destruct (reachable_sound s Hr) as [_ Htasks]. specialize (Htasks running t Ht).
  assert (Hin : input_path_of job_id <> input_path_of running)
    by (intros E; by apply input_path_of_inj in E).
  assert (Hout : output_path_of job_id <> output_path_of running)
    by (intros E; by apply output_path_of_inj in E).
  assert (Hio : input_path_of job_id <> output_path_of running) by apply input_not_output.
  assert (Hoi : output_path_of job_id <> input_path_of running)
    by (intros E; symmetry in E; by apply input_not_output in E).
  destruct t as [m|req k]; cbn [run_task].
  - destruct Htasks as (env & prompt & fmt & ->).
    split; [by apply step_start|].
    split; [by apply process_video_others|].
    split; by apply process_video_files.
  - destruct Htasks as (env & prompt & fmt & w0 & w1 & Hk).
    split; [by eapply step_resume|].
    split; [by eapply continuation_others|].
    rewrite (continuation_spec _ _ _ _ _ _ _ _ _ Hk).
    split; by apply resumed_files.
Qed.

Lemma pipelines_are_isolated_witness :
  let s' := advance (py "job-1")
              (run_task (Queued demo_pipeline) (Content (py "{}")) (world demo_submitted))
              demo_submitted in
  step demo_submitted s'
  /\ jobs (world s') !! py "job-2" = jobs (world demo_submitted) !! py "job-2"
  /\ files (world s') !! input_path_of (py "job-2")
     = files (world demo_submitted) !! input_path_of (py "job-2")
  /\ files (world s') !! output_path_of (py "job-2")
     = files (world demo_submitted) !! output_path_of (py "job-2").
Proof.
  apply (pipelines_are_isolated demo_submitted (py "job-1") (Queued demo_pipeline)
           (Content (py "{}")) (py "job-2") demo_submitted_reachable demo_submitted_tasks).
  vm_compute. discriminate.
Defined.

(** ** The advisor stage at its edges *)

Lemma api_key_unset env :
  OLLAMA_API_KEY env = None \/ OLLAMA_API_KEY env = Some [] -> api_key env = None.
Proof. unfold api_key. by intros [-> | ->]. Qed.

Lemma api_key_set env key :
  OLLAMA_API_KEY env = Some key -> key <> [] -> api_key env = Some key.
Proof. unfold api_key. intros -> Hne. by destruct key. Qed.

Lemma ending_events i exit fs j ev :
  ev ∈ (ending i exit fs j).2 ->
  (exists s, ev = EvStatus i s) \/ (exists p, ev = EvProgress i p)
  \/ (exists u, ev = EvOutputUrl i u) \/ (exists m, ev = EvError i m).
Proof.
  unfold ending. destruct exit as [|stderr|msg];
    [destruct (bool_decide _)|..]; cbn [fst snd];
    rewrite ?elem_of_cons, elem_of_nil; naive_solver.
Qed.

Lemma cleanup_events_fs video_path w ev :
  ev ∈ cleanup_events video_path w -> ev = EvFs (FsRemove video_path).
Proof.
  unfold cleanup_events. destruct (files w !! video_path);
    rewrite ?elem_of_cons, elem_of_nil; naive_solver.
Qed.

(** X17. Without an API key (the variable unset or empty) the
    pipeline never contacts the advisor and never suspends: it runs
    from its start to its end in one stretch, issues no HTTP request,
    and, when the record of the job is in the store, reports the
    missing key on the console and goes on to the transcoder. *)
Theorem pipeline_without_api_key (env : Env)
    (job_id video_path prompt output_format : str) (w : World) :
  OLLAMA_API_KEY env = None \/ OLLAMA_API_KEY env = Some [] ->
  let r := process_video env job_id video_path prompt output_format w in
  is_Await r = false
  /\ (forall req, EvRequest req ∉ appended w (world_of r))
  /\ (is_Some (jobs w !! job_id) ->
      EvPrint (py "AI API error: OLLAMA_API_KEY is not configured")
        ∈ appended w (world_of r)
      /\ EvFfmpeg (transcode_cmd video_path (output_path_of job_id)
                     (dict_get FORMAT_CONFIGS output_format FORMAT_tiktok))
           ∈ appended w (world_of r)).
Proof.
  intros Hkey%api_key_unset. cbn zeta.
  destruct (jobs w !! job_id) as [j|] eqn:Hj.
  - rewrite (process_video_no_key _ _ _ _ _ _ _ Hj Hkey).
    set (w2 := record _ _).
    assert (Hj2 : jobs w2 !! job_id = Some (with_progress 10 (with_status processing j))).
    { subst w2. unfold started. cbn [jobs record]. apply lookup_insert_eq. }
    destruct (after_advisor_run env job_id video_path output_format w2 _ Hj2)
      as (w' & cl & -> & _ & _ & Hcl & Hlog).
    cbn [world_of is_Await]. split; [reflexivity|].
    assert (Hl : log w' = log w ++ [EvStatus job_id processing; EvProgress job_id 10;
                   EvPrint (py "AI API error: OLLAMA_API_KEY is not configured")]
                   ++ [EvProgress job_id 30; EvProgress job_id 50;
                       EvFfmpeg (transcode_cmd video_path (output_path_of job_id)
                                   (dict_get FORMAT_CONFIGS output_format FORMAT_tiktok))]
                   ++ (ending job_id
                         (ff_exit (ffmpeg_run env
                            (transcode_cmd video_path (output_path_of job_id)
                               (dict_get FORMAT_CONFIGS output_format FORMAT_tiktok))
                            (files w2)))
                         (match ff_written (ffmpeg_run env
                            (transcode_cmd video_path (output_path_of job_id)
                               (dict_get FORMAT_CONFIGS output_format FORMAT_tiktok))
                            (files w2)) with
                          | Some data => <[output_path_of job_id := data]> (files w2)
                          | None => files w2
                          end)
                         (with_progress 10 (with_status processing j))).2
                   ++ cl).
    { rewrite Hlog. subst w2. unfold started. cbn [log record].
      rewrite app_nil_r, <- !app_assoc. reflexivity. }
    rewrite (appended_app _ _ _ Hl). split.
    + intros req. rewrite !elem_of_app, !elem_of_cons, !elem_of_nil.
      intros [H|[H|[H|H]]].
      * naive_solver.
      * naive_solver.
      * apply ending_events in H. naive_solver.
      * destruct Hcl as [-> | ->]; [by apply elem_of_nil in H|].
        apply list_elem_of_singleton in H. discriminate H.
    + intros _. split.
      * rewrite elem_of_app. left. set_solver.
      * rewrite !elem_of_app. right. left. set_solver.
  - rewrite (process_video_evicted _ _ _ _ _ _ Hj). cbn [world_of is_Await].
    split; [reflexivity|]. split; [|intros [? ?]; discriminate].
    intros req. rewrite (appended_app _ _ _ (log_cleanup _ _ _)).
    intros H%cleanup_events_fs. discriminate H.
Qed.

Lemma pipeline_without_api_key_witness :
  is_Await (process_video locked_env (py "job-0") (input_path_of (py "job-0"))
              (py "make it square") (py "square") stale_world) = false.
Proof.
  apply (pipeline_without_api_key locked_env (py "job-0") (input_path_of (py "job-0"))
           (py "make it square") (py "square") stale_world).
  left. reflexivity.
Defined.

(** X18. With an API key configured and the record of the job in the
    store, the pipeline sets the status to processing and the progress
    to 10 and then suspends at one chat request: a POST to the base URL
    (https://ollama.com/api unless OLLAMA_BASE_URL is set) followed by
    "/chat", authorized with "Bearer" and the key, for the model
    qwen3-vl:235b-cloud, with the prompt as the user message.  Nothing
    else has been done by then, and no file has been touched. *)
Theorem pipeline_suspends_at_request (env : Env)
    (job_id video_path prompt output_format : str) (w : World) (j : Job) (key : str) :
  OLLAMA_API_KEY env = Some key -> key <> [] ->
  jobs w !! job_id = Some j ->
  let req := HttpPost (getenv (OLLAMA_BASE_URL env) (py "https://ollama.com/api")
                       ++ py "/chat")
               (py "Bearer " ++ key) (py "qwen3-vl:235b-cloud") prompt in
  exists w1 k,
    process_video env job_id video_path prompt output_format w = Await req w1 k
    /\ jobs w1 = <[job_id := mkJob (j_id j) processing 10 (output_url j) (error j)
                               (created_at j)]> (jobs w)
    /\ files w1 = files w
    /\ log w1 = log w ++ [EvStatus job_id processing; EvProgress job_id 10; EvRequest req].
Proof.
  intros Hkey Hne Hj. cbn zeta. pose proof (api_key_set env key Hkey Hne) as Hk.
  destruct (process_video_key env job_id video_path prompt output_format w j key Hj Hk)
    as (k & Hr & _).
  eexists _, k. split; [exact Hr|]. unfold started. cbn [jobs files log]. done.
Qed.

Lemma pipeline_suspends_at_request_witness :
  exists w1 k,
    demo_pipeline (world demo_submitted)
    = Await (HttpPost (py "https://ollama.com/api" ++ py "/chat")
               (py "Bearer " ++ py "key") (py "qwen3-vl:235b-cloud")
               (sanitized_prompt_of (py "make it square"))) w1 k
    /\ jobs w1 = <[py "job-1" := mkJob (py "job-1") processing 10 None None 5000%float]>
                   (jobs (world demo_submitted))
    /\ files w1 = files (world demo_submitted)
    /\ log w1 = log (world demo_submitted)
                ++ [EvStatus (py "job-1") processing; EvProgress (py "job-1") 10;
                    EvRequest (HttpPost (py "https://ollama.com/api" ++ py "/chat")
                                 (py "Bearer " ++ py "key") (py "qwen3-vl:235b-cloud")
                                 (sanitized_prompt_of (py "make it square")))].
Proof.
  apply (pipeline_suspends_at_request demo_env (py "job-1") demo_input
           (sanitized_prompt_of (py "make it square")) (py "square") (world demo_submitted)
           (mkJob (py "job-1") pending 0 None None 5000%float) (py "key")).
  - reflexivity.
  - vm_compute. discriminate.
  - vm_compute. reflexivity.
Defined.

(** X19. When the record of a job is removed from the store while its
    pipeline waits for the advisor, the pipeline does not go on with
    the job: whatever the advisor answers, the run ends with an
    exception (the KeyError of the missing record, or the
    BaseException the advisor call was left with), the transcoder is
    never invoked, no record is created again, and after processing
    and 10 nothing more is written to a status or a progress field: the
    job is not marked as failed either. *)
Theorem evicted_job_is_not_processed (env : Env)
    (job_id video_path prompt output_format : str) (w : World)
    (others : World -> World) (rep : Reply) (j : Job) (key : str) :
  OLLAMA_API_KEY env = Some key -> key <> [] ->
  jobs w !! job_id = Some j ->
  (forall w1, jobs (others w1) !! job_id = None) ->
  let r0 := process_video env job_id video_path prompt output_format w in
  let r := run_to_end r0 rep others in
  raised r = Some (match rep with
                   | Content _ => KeyError job_id
                   | Failure e => if is_Exception e then KeyError job_id else e
                   end)
  /\ jobs (world_of r) !! job_id = None
  /\ (forall cmd, EvFfmpeg cmd ∉ trace_of w r0 rep others)
  /\ (forall i, status_writes i (trace_of w r0 rep others)
                = if bool_decide (i = job_id) then [processing] else [])
  /\ (forall i, progress_writes i (trace_of w r0 rep others)
                = if bool_decide (i = job_id) then [10] else []).
Proof.
  intros Hkey Hne Hj Hev. cbn zeta. pose proof (api_key_set env key Hkey Hne) as Hk.
  pose proof (run_spec env job_id video_path prompt output_format w rep others j Hj) as Hrun.
  cbn zeta in Hrun.
  set (w1 := resumed_world env job_id prompt j w others) in *.
  assert (Hj1 : jobs w1 !! job_id = None).
  { subst w1. unfold resumed_world. rewrite Hk. apply Hev. }
  rewrite Hj1 in Hrun. rewrite bool_decide_eq_false_2 in Hrun by (intros [? ?]; discriminate).
  assert (Hshape : exists report,
             run_to_end (process_video env job_id video_path prompt output_format w) rep others
             = Raise (match rep with
                      | Content _ => KeyError job_id
                      | Failure e => if is_Exception e then KeyError job_id else e
                      end)
                 (cleanup_input env video_path
                    (mkWorld (jobs w1) (files w1) (log w1 ++ report)))
             /\ forall ev, ev ∈ report -> exists msg, ev = EvPrint msg).
  { unfold advisor_report in Hrun. rewrite Hk in Hrun. destruct rep as [text|e].
    - eexists. split.
      + rewrite Hrun. unfold after_advisor. cbn [jobs]. rewrite Hj1. reflexivity.
      + intros ev H. apply list_elem_of_singleton in H. by eexists.
    - destruct (is_Exception e).
      + eexists. split.
        * rewrite Hrun. unfold after_advisor. cbn [jobs]. rewrite Hj1. reflexivity.
        * intros ev H. apply list_elem_of_singleton in H. by eexists.
      + exists []. split.
        * rewrite Hrun. rewrite app_nil_r. by destruct w1.
        * intros ev H. by apply elem_of_nil in H. }
  destruct Hshape as (report & Hr & Hrep).
  set (w2 := mkWorld _ _ _) in Hr.
  assert (Htr : trace_of w (process_video env job_id video_path prompt output_format w)
                  rep others
                = [EvStatus job_id processing; EvProgress job_id 10]
                  ++ [EvRequest (advisor_request env prompt key)]
                  ++ (report ++ cleanup_events video_path w2)).
  { pose proof (trace_of_run env job_id video_path prompt output_format w rep others j
                  (report ++ cleanup_events video_path w2) Hj) as Ht.
    rewrite Hk in Ht. apply Ht. rewrite Hr. cbn [world_of]. rewrite log_cleanup.
    subst w2. cbn [log]. fold w1. by rewrite app_assoc. }
  rewrite Hr, Htr. cbn [raised world_of].
  split; [reflexivity|]. split; [by rewrite jobs_cleanup|].
  assert (Hquiet : forall i, status_writes i (report ++ cleanup_events video_path w2) = []
                             /\ progress_writes i (report ++ cleanup_events video_path w2) = []).
  { intros i. rewrite status_writes_app, progress_writes_app.
    assert (Hc : status_writes i (cleanup_events video_path w2) = []
                 /\ progress_writes i (cleanup_events video_path w2) = []).
    { unfold cleanup_events. by destruct (files w2 !! video_path). }
    destruct Hc as [-> ->]. rewrite !app_nil_r.
    clear -Hrep. induction report as [|ev report IH]; [done|].
    destruct (Hrep ev) as [msg ->]; [by left|].
    unfold status_writes, progress_writes in *. cbn [omap list_omap status_written progress_written].
    apply IH. intros ev' H. apply Hrep. by right. }
  split; [|split].
  - intros cmd. rewrite !elem_of_app, !elem_of_cons, !elem_of_nil.
    intros [H|[H|[H|H]]].
    + naive_solver.
    + naive_solver.
    + apply Hrep in H as [msg H]. discriminate H.
    + apply cleanup_events_fs in H. discriminate H.
  - intros i. do 2 rewrite status_writes_app. destruct (Hquiet i) as [-> _].
    unfold status_writes. cbn [omap list_omap status_written].
    destruct (decide (i = job_id)) as [->|Hni];
      [rewrite !bool_decide_eq_true_2 by done|rewrite !bool_decide_eq_false_2 by congruence];
      reflexivity.
  - intros i. do 2 rewrite progress_writes_app. destruct (Hquiet i) as [_ ->].
    unfold progress_writes. cbn [omap list_omap progress_written].
    destruct (decide (i = job_id)) as [->|Hni];
      [rewrite !bool_decide_eq_true_2 by done|rewrite !bool_decide_eq_false_2 by congruence];
      reflexivity.
Qed.

Lemma evicted_job_is_not_processed_witness :
  raised (run_to_end (demo_pipeline (world demo_submitted)) (Content (py "{}"))
            (set_jobs (fun _ => ∅)))
  = Some (KeyError (py "job-1")).
Proof.
  apply (evicted_job_is_not_processed demo_env (py "job-1") demo_input
           (sanitized_prompt_of (py "make it square")) (py "square") (world demo_submitted)
           (set_jobs (fun _ => ∅)) (Content (py "{}"))
           (mkJob (py "job-1") pending 0 None None 5000%float) (py "key")).
  - reflexivity.
  - vm_compute. discriminate.
  - vm_compute. reflexivity.
  - intros w1. cbn. apply lookup_empty.
Defined.

(** X20. When the call of the advisor is left with an exception that
    is not an [Exception] (a cancellation of the task at its [await]),
    neither handler of the pipeline catches it: the run ends with that
    exception after the [finally] block, the transcoder is not invoked,
    and the record of the job stays as it was at the [await], with
    status processing and progress 10, without an error text. *)
Theorem cancelled_pipeline_leaves_job_processing (env : Env)
    (job_id video_path prompt output_format : str) (w : World)
    (others : World -> World) (e : Exn) (j : Job) (key : str) :
  OLLAMA_API_KEY env = Some key -> key <> [] ->
  jobs w !! job_id = Some j ->
  (forall w1, jobs (others w1) !! job_id = jobs w1 !! job_id) ->
  is_Exception e = false ->
  let r0 := process_video env job_id video_path prompt output_format w in
  let r := run_to_end r0 (Failure e) others in
  raised r = Some e
  /\ jobs (world_of r) !! job_id
     = Some (mkJob (j_id j) processing 10 (output_url j) (error j) (created_at j))
  /\ (forall cmd, EvFfmpeg cmd ∉ trace_of w r0 (Failure e) others)
  /\ status_writes job_id (trace_of w r0 (Failure e) others) = [processing]
  /\ progress_writes job_id (trace_of w r0 (Failure e) others) = [10].
Proof.
  intros Hkey Hne Hj Hothers He. cbn zeta. pose proof (api_key_set env key Hkey Hne) as Hk.
  pose proof (run_spec env job_id video_path prompt output_format w (Failure e) others j Hj)
    as Hrun.
  cbn zeta in Hrun. set (w1 := resumed_world env job_id prompt j w others) in *.
  unfold advisor_report in Hrun. rewrite Hk, He in Hrun.
  assert (Hj1 : jobs w1 !! job_id = Some (with_progress 10 (with_status processing j))).
  { subst w1. unfold resumed_world. rewrite Hk, Hothers. unfold started. cbn [jobs].
    apply lookup_insert_eq. }
  assert (Htr : trace_of w (process_video env job_id video_path prompt output_format w)
                  (Failure e) others
                = [EvStatus job_id processing; EvProgress job_id 10]
                  ++ [EvRequest (advisor_request env prompt key)]
                  ++ cleanup_events video_path w1).
  { pose proof (trace_of_run env job_id video_path prompt output_format w (Failure e) others j
                  (cleanup_events video_path w1) Hj) as Ht.
    rewrite Hk in Ht. apply Ht. rewrite Hrun. cbn [world_of]. by rewrite log_cleanup. }
  rewrite Hrun, Htr. cbn [raised world_of].
  split; [reflexivity|]. split; [by rewrite jobs_cleanup|].
  assert (Hc : status_writes job_id (cleanup_events video_path w1) = []
               /\ progress_writes job_id (cleanup_events video_path w1) = []).
  { unfold cleanup_events. by destruct (files w1 !! video_path). }
  split; [|split].
  - intros cmd. rewrite !elem_of_app, !elem_of_cons, !elem_of_nil.
    intros [H|[H|H]].
    + naive_solver.
    + naive_solver.
    + apply cleanup_events_fs in H. discriminate H.
  - do 2 rewrite status_writes_app. destruct Hc as [-> _]. proj_simpl. reflexivity.
  - do 2 rewrite progress_writes_app. destruct Hc as [_ ->]. proj_simpl. reflexivity.
Qed.

Lemma cancelled_pipeline_leaves_job_processing_witness :
  jobs (world_of (run_to_end (demo_pipeline (world demo_submitted))
                    (Failure CancelledError) (fun w => w))) !! py "job-1"
  = Some (mkJob (py "job-1") processing 10 None None 5000%float).
Proof.
  apply (cancelled_pipeline_leaves_job_processing demo_env (py "job-1") demo_input
           (sanitized_prompt_of (py "make it square")) (py "square") (world demo_submitted)
           (fun w => w) CancelledError
           (mkJob (py "job-1") pending 0 None None 5000%float) (py "key")).
  - reflexivity.
  - vm_compute. discriminate.
  - vm_compute. reflexivity.
  - reflexivity.
  - reflexivity.
Defined.

(** X21. A pipeline that starts when the record of its job is not in
    the store (the sweep has evicted it in the meantime) does nothing
    for the job: it ends at once with the KeyError of line 148, which
    the handler of line 206 runs into again, without a request to the
    advisor, without the transcoder and without a write to the store;
    all it does is the removal of the input file. *)
Theorem pipeline_without_record (env : Env)
    (job_id video_path prompt output_format : str) (w : World) :
  jobs w !! job_id = None ->
  let r := process_video env job_id video_path prompt output_format w in
  r = Raise (KeyError job_id) (world_of r)
  /\ jobs (world_of r) = jobs w
  /\ (forall ev, ev ∈ appended w (world_of r) -> ev = EvFs (FsRemove video_path))
  /\ (fs_error env (FsRemove video_path) = None ->
      files (world_of r) = delete video_path (files w)).
Proof.
  intros Hj. cbn zeta. rewrite (process_video_evicted _ _ _ _ _ _ Hj). cbn [world_of].
  split; [reflexivity|]. split; [apply jobs_cleanup|]. split.
  - intros ev. rewrite (appended_app _ _ _ (log_cleanup _ _ _)). apply cleanup_events_fs.
  - intros Hok. unfold cleanup_input. destruct (files w !! video_path) eqn:Hf.
    + by rewrite Hok.
    + symmetry. by apply delete_id.
Qed.

Lemma pipeline_without_record_witness :
  jobs (world_of (demo_pipeline (mkWorld ∅ ∅ []))) = ∅.
Proof.
  apply (pipeline_without_record demo_env (py "job-1") demo_input
           (sanitized_prompt_of (py "make it square")) (py "square") (mkWorld ∅ ∅ [])).
  apply lookup_empty.
Defined.
